(** * JARVIS routing and fallback layer

    A shallow embedding of the routing-and-fallback core of JARVIS:

    - [ai_task_router]       : [jarvis/ai/ai_task_router.py], the structured,
                               resource-aware router;
    - [ai_task_router_temp]  : [jarvis/ai/ai_task_router_temp.py], the keyword
                               router over the YAML task configuration;
    - [fallback_ai_manager_temp] : [jarvis/ai/fallback_ai_manager_temp.py],
                               the primary/fallback executor over a mock API;
    - [fallback_ai_manager]  : [jarvis/ai/fallback_ai_manager.py], the fallback
                               executor, the provider adapters and the metrics
                               store.

    Python [int]s are [Z], [str]s are [string], a [dict] whose iteration order
    matters is an association list in insertion order, the metrics [dict] is a
    [gmap].  Exceptions are values of a sum type; where an [except] clause
    tests the class of what was raised, an exception is the name of its
    class with the names of its base classes.  The outside world (the
    clock, the task function, the HTTP endpoints) is an oracle that the
    definitions take as an argument. *)

From Stdlib Require Import ZArith QArith.
From stdpp Require Import base list strings gmap fin_maps.

Local Open Scope Z_scope.

(** Outcome of a Python call that may raise. *)
Inductive PyResult (E A : Type) : Type :=
| Ok (a : A)
| Raise (e : E).
Arguments Ok {E A} a.
Arguments Raise {E A} e.

(* ===================================================================== *)
(** * jarvis/ai/ai_task_router.py                                          *)
(* ===================================================================== *)

Module ai_task_router.

(** [class TaskType(Enum)] *)
Inductive TaskType : Set :=
| CODE_ANALYSIS
| CODE_GENERATION
| TEXT_GENERATION
| IMAGE_ANALYSIS
| GENERAL_QA
| DOCUMENTATION
| DEBUGGING
| OPTIMIZATION.

#[global] Instance TaskType_eq_dec : EqDecision TaskType.
Proof. solve_decision. Defined.

(** [TaskType.name] *)
Definition TaskType_name (t : TaskType) : string :=
  match t with
  | CODE_ANALYSIS => "CODE_ANALYSIS"
  | CODE_GENERATION => "CODE_GENERATION"
  | TEXT_GENERATION => "TEXT_GENERATION"
  | IMAGE_ANALYSIS => "IMAGE_ANALYSIS"
  | GENERAL_QA => "GENERAL_QA"
  | DOCUMENTATION => "DOCUMENTATION"
  | DEBUGGING => "DEBUGGING"
  | OPTIMIZATION => "OPTIMIZATION"
  end.

(** [@dataclass class AIModel] *)
Record AIModel : Type := mkAIModel {
  name : string;
  task_types : list TaskType;
  priority : Z;
  memory_requirement : Z;   (* in MB *)
  is_available : bool
}.

(** The dictionary built by [AIModel.to_dict]. *)
Record AIModelDict : Type := mkAIModelDict {
  d_name : string;
  d_task_types : list string;
  d_priority : Z;
  d_memory_requirement_mb : Z;
  d_is_available : bool
}.

Definition to_dict (m : AIModel) : AIModelDict :=
  {| d_name := name m;
     d_task_types := TaskType_name <$> task_types m;
     d_priority := priority m;
     d_memory_requirement_mb := memory_requirement m;
     d_is_available := is_available m |}.

(** [self.available_models]: a dict from model name to [AIModel]; Python
    dicts iterate in insertion order, which is the order [values()] feeds
    to the stable sort below. *)
Definition Catalog : Type := list (string * AIModel).

Definition values (c : Catalog) : list AIModel := snd <$> c.

(** [_initialize_models] *)
Definition _initialize_models : Catalog :=
  [ ("codellama:7b-instruct",
     mkAIModel "codellama:7b-instruct"
       [CODE_ANALYSIS; CODE_GENERATION; DEBUGGING; OPTIMIZATION; DOCUMENTATION]
       1 3800 true);
    ("llama3:8b",
     mkAIModel "llama3:8b" [TEXT_GENERATION; GENERAL_QA; DOCUMENTATION] 2 4700 true);
    ("mistral:latest",
     mkAIModel "mistral:latest" [TEXT_GENERATION; GENERAL_QA] 3 4400 true);
    ("llava:latest",
     mkAIModel "llava:latest" [IMAGE_ANALYSIS] 4 4700 true);
    ("zephyr:7b-beta",
     mkAIModel "zephyr:7b-beta" [TEXT_GENERATION; GENERAL_QA] 5 4100 true);
    ("gemma:2b",
     mkAIModel "gemma:2b" [TEXT_GENERATION; GENERAL_QA] 6 1700 true) ].

(** ** Exceptions *)

(** An exception as an [except] clause sees it: the name of its class and
    the names of the classes that class derives from. *)
Record PyException : Type := mkException {
  exc_class : string;
  exc_bases : list string
}.

(** [isinstance(e, cls)], the test that [except cls:] makes. *)
Definition isinstance (e : PyException) (cls : string) : bool :=
  bool_decide (cls ∈ exc_class e :: exc_bases e).

Definition ImportError : PyException :=
  mkException "ImportError" ["Exception"; "BaseException"].
Definition ModuleNotFoundError : PyException :=
  mkException "ModuleNotFoundError" ["ImportError"; "Exception"; "BaseException"].
Definition CalledProcessError : PyException :=
  mkException "CalledProcessError" ["SubprocessError"; "Exception"; "BaseException"].
Definition FileNotFoundError : PyException :=
  mkException "FileNotFoundError" ["OSError"; "Exception"; "BaseException"].
Definition PermissionError : PyException :=
  mkException "PermissionError" ["OSError"; "Exception"; "BaseException"].
Definition ValueError : PyException :=
  mkException "ValueError" ["Exception"; "BaseException"].
Definition JSONDecodeError : PyException :=
  mkException "JSONDecodeError" ["ValueError"; "Exception"; "BaseException"].
Definition TypeError : PyException :=
  mkException "TypeError" ["Exception"; "BaseException"].
Definition KeyError : PyException :=
  mkException "KeyError" ["LookupError"; "Exception"; "BaseException"].

(** ** The resource probe *)

(** What the first [try] block meets: [import torch] or one of the CUDA
    calls raises, or the calls return. *)
Inductive TorchProbe : Type :=
| TorchRaises (e : PyException)          (* the import or a CUDA call raises [e] *)
| TorchNoCuda                            (* [torch.cuda.is_available()] is false *)
| TorchCuda (total_memory : Z).          (* bytes of device 0 *)

(** What running [nvidia-smi] gives: [subprocess.run] raises (with
    [check=True] a non-zero exit status is a [CalledProcessError], an absent
    executable a [FileNotFoundError]), or it returns the output. *)
Inductive SmiProbe : Type :=
| SmiRaises (e : PyException)
| SmiOutput (parsed : option Z).         (* [int(stdout.strip())]; [None] is ValueError *)

Record ResourceProbe : Type := mkProbe {
  torch : TorchProbe;
  nvidia_smi : SmiProbe
}.

(** The second [try] block of [get_available_memory], with its
    [except (subprocess.CalledProcessError, ValueError)]. *)
Definition query_nvidia_smi (p : ResourceProbe) : PyResult PyException Z :=
  match nvidia_smi p with
  | SmiOutput (Some n) => Ok n
  | SmiOutput None => Ok (6 * 1024)
  | SmiRaises e =>
      if isinstance e "CalledProcessError" || isinstance e "ValueError"
      then Ok (6 * 1024)
      else Raise e
  end.

(** [get_available_memory]: accelerator driver, then the command, then the
    fixed default of 6 GB.  The first block has [except ImportError: pass];
    whatever else is raised in either block leaves the method. *)
Definition get_available_memory (p : ResourceProbe) : PyResult PyException Z :=
  match torch p with
  | TorchCuda total_memory => Ok (total_memory `div` (1024 * 1024))
  | TorchNoCuda => query_nvidia_smi p
  | TorchRaises e => if isinstance e "ImportError" then query_nvidia_smi p else Raise e
  end.

(** ** Routing *)

(** [task_type in model.task_types and model.is_available] *)
Definition suitable (task_type : TaskType) (model : AIModel) : bool :=
  bool_decide (task_type ∈ task_types model) && is_available model.

(** Comparison of the sort keys [(m.priority, m.memory_requirement)]:
    Python compares tuples lexicographically. *)
Definition key_le (a b : AIModel) : bool :=
  (priority a <? priority b)
  || ((priority a =? priority b) && (memory_requirement a <=? memory_requirement b)).

(** [list.sort(key=...)] is a stable sort; a stable sort has one possible
    output, which the stable insertion sort below computes: inserting from
    the right, an element is put in front of the first element whose key is
    not smaller, so equal keys keep their original order. *)
Fixpoint insert_by_key (x : AIModel) (l : list AIModel) : list AIModel :=
  match l with
  | [] => [x]
  | y :: l' => if key_le x y then x :: y :: l' else y :: insert_by_key x l'
  end.

Fixpoint sort_by_key (l : list AIModel) : list AIModel :=
  match l with
  | [] => []
  | x :: l' => insert_by_key x (sort_by_key l')
  end.

(** The loop [for model in suitable_models: if fits: return model]. *)
Fixpoint first_fitting (available_memory : Z) (l : list AIModel) : option AIModel :=
  match l with
  | [] => None
  | model :: l' =>
      if memory_requirement model <=? available_memory then Some model
      else first_fitting available_memory l'
  end.

(** [min(l, key=lambda m: m.memory_requirement)] on a non-empty list, given
    as head and tail: the first element with the least key. *)
Fixpoint min_by_memory (best : AIModel) (l : list AIModel) : AIModel :=
  match l with
  | [] => best
  | m :: l' =>
      if memory_requirement m <? memory_requirement best
      then min_by_memory m l' else min_by_memory best l'
  end.

Inductive RouteError : Type :=
| ValueError_NoSuitableModels (task_type : TaskType)
    (* ValueError("No suitable models available for task type: ...") *)
| ProbeFailed (e : PyException).     (* what [get_available_memory] let out *)

(** [AITaskRouter.route_task].  The [context] argument is never read. *)
Definition route_task (available_models : Catalog) (probe : ResourceProbe)
    (task_type : TaskType) : PyResult RouteError (string * AIModelDict) :=
  let suitable_models := filter (λ m, suitable task_type m = true) (values available_models) in
  match suitable_models with
  | [] => Raise (ValueError_NoSuitableModels task_type)
  | _ :: _ =>
      let suitable_models := sort_by_key suitable_models in
      match get_available_memory probe with
      | Raise e => Raise (ProbeFailed e)
      | Ok available_memory =>
          match first_fitting available_memory suitable_models with
          | Some model => Ok (name model, to_dict model)
          | None =>
              match suitable_models with
              | [] => Raise (ValueError_NoSuitableModels task_type) (* min() of an empty list: unreachable *)
              | m0 :: rest =>
                  let smallest_model := min_by_memory m0 rest in
                  Ok (name smallest_model, to_dict smallest_model)
              end
          end
      end
  end.

(** ** Vocabulary of the statements about routing *)

(** The order of the sort keys as a proposition. *)
Definition key_leP (a b : AIModel) : Prop :=
  priority a < priority b
  ∨ (priority a = priority b ∧ memory_requirement a <= memory_requirement b).

(** A list is in ascending key order when every element is below all the
    elements behind it. *)
Inductive ascending : list AIModel → Prop :=
| ascending_nil : ascending []
| ascending_cons x l :
    (∀ y, y ∈ l → key_leP x y) → ascending l → ascending (x :: l).

(** Two models with the same sort key. *)
Definition same_key (a b : AIModel) : Prop :=
  priority a = priority b ∧ memory_requirement a = memory_requirement b.

#[global] Instance same_key_dec a b : Decision (same_key a b).
Proof. unfold same_key. apply _. Defined.

(** The candidates of a routing call: the models of the catalog that
    support the task type and are available, in catalog order. *)
Definition candidates (available_models : Catalog) (task_type : TaskType) : list AIModel :=
  filter (λ m, suitable task_type m = true) (values available_models).

(** A model fits when its memory requirement is at most the probed memory. *)
Definition fits (available_memory : Z) (m : AIModel) : Prop :=
  memory_requirement m <= available_memory.

(** ** The rest of the catalog interface *)

(** [model.is_available = b] *)
Definition set_is_available (b : bool) (m : AIModel) : AIModel :=
  mkAIModel (name m) (task_types m) (priority m) (memory_requirement m) b.

(** A value that [json.loads] returns.  A number is kept as its literal,
    an object as its members in the order of the text. *)
#[warnings="-register-all"]
Inductive JSON : Type :=
| JNull
| JBool (b : bool)
| JNumber (literal : string)
| JString (s : string)
| JArray (items : list JSON)
| JObject (members : list (string * JSON)).

(** [for m in value]: a list gives its items, a dict its keys, a string its
    characters; nothing else can be iterated.  (A string is kept as its
    bytes and a member name may occur twice in the text, so a string or an
    object may give more items here than in Python; every one of them is a
    string, on which [m['name']] fails alike.) *)
Definition iterate (value : JSON) : PyResult PyException (list JSON) :=
  match value with
  | JArray items => Ok items
  | JObject members => Ok (JString <$> members.*1)
  | JString s => Ok ((λ c, JString (String c EmptyString)) <$> String.list_ascii_of_string s)
  | JNull | JBool _ | JNumber _ => Raise TypeError
  end.

(** [d[key]] on the dict that [json.loads] builds from an object: of two
    members with the same name the later one is kept. *)
Fixpoint dict_getitem (key : string) (members : list (string * JSON)) : option JSON :=
  match members with
  | [] => None
  | (k, v) :: members' =>
      match dict_getitem key members' with
      | Some v' => Some v'
      | None => if decide (k = key) then Some v else None
      end
  end.

(** [m['name']]: only a dict can be indexed by a string. *)
Definition getitem_name (m : JSON) : PyResult PyException JSON :=
  match m with
  | JObject members =>
      match dict_getitem "name" members with
      | Some v => Ok v
      | None => Raise KeyError
      end
  | _ => Raise TypeError
  end.

(** A list or a dict cannot be an element of a set. *)
Definition hashable (v : JSON) : bool :=
  match v with
  | JArray _ | JObject _ => false
  | _ => true
  end.

(** The comprehension [{m['name'] for m in ...}], item by item; the set is
    kept as the list of the values added. *)
Fixpoint names_of (ms : list JSON) : PyResult PyException (list JSON) :=
  match ms with
  | [] => Ok []
  | m :: ms' =>
      match getitem_name m with
      | Raise e => Raise e
      | Ok v =>
          if hashable v
          then match names_of ms' with
               | Ok installed => Ok (v :: installed)
               | Raise e => Raise e
               end
          else Raise TypeError
      end
  end.

(** [{m['name'] for m in json.loads(result.stdout)}] on the loaded value. *)
Definition installed_models (value : JSON) : PyResult PyException (list JSON) :=
  match iterate value with
  | Ok ms => names_of ms
  | Raise e => Raise e
  end.

(** [model_name in installed_models]: a [str] is equal to a string only. *)
Definition in_installed (model_name : string) (installed : list JSON) : bool :=
  existsb (λ v, match v with
                | JString s => bool_decide (s = model_name)
                | _ => false
                end) installed.

(** What lines 126-132 meet before the comprehension: [subprocess.run] or
    [json.loads] raises, or the output is loaded. *)
Inductive OllamaList : Type :=
| OllamaRaises (e : PyException)
| OllamaLoaded (value : JSON).

(** [except (subprocess.CalledProcessError, json.JSONDecodeError)] around
    the whole body: the error is logged and the catalog stays as it was. *)
Definition log_or_raise (available_models : Catalog) (e : PyException)
    : PyResult PyException Catalog :=
  if isinstance e "CalledProcessError" || isinstance e "JSONDecodeError"
  then Ok available_models
  else Raise e.

(** [update_model_availability]: every entry is marked by the membership of
    its dict key in the set of listed names.  The set is complete before
    the first flag is written. *)
Definition update_model_availability (available_models : Catalog)
    (listing : OllamaList) : PyResult PyException Catalog :=
  match listing with
  | OllamaRaises e => log_or_raise available_models e
  | OllamaLoaded value =>
      match installed_models value with
      | Raise e => log_or_raise available_models e
      | Ok installed =>
          Ok ((λ kv : string * AIModel,
                 (kv.1, set_is_available (in_installed kv.1 installed) kv.2))
              <$> available_models)
      end
  end.

(** [self.available_models[model_name]] on the dict kept in insertion order. *)
Fixpoint catalog_get (model_name : string) (c : Catalog) : option AIModel :=
  match c with
  | [] => None
  | (k, m) :: c' => if decide (k = model_name) then Some m else catalog_get model_name c'
  end.

Inductive CatalogError : Type :=
| ValueError_UnknownModel (model_name : string).
    (* ValueError(f"Unknown model: {model_name}") *)

(** [get_model_info] *)
Definition get_model_info (available_models : Catalog) (model_name : string)
    : PyResult CatalogError AIModelDict :=
  match catalog_get model_name available_models with
  | None => Raise (ValueError_UnknownModel model_name)
  | Some model => Ok (to_dict model)
  end.

(** [list_models] *)
Definition list_models (available_models : Catalog) : list AIModelDict :=
  to_dict <$> values available_models.

(** A catalog as [_initialize_models] builds it: every model is stored under
    its own name, and (as in any dict) no key occurs twice. *)
Definition well_keyed (c : Catalog) : Prop :=
  NoDup c.*1 ∧ Forall (λ kv : string * AIModel, kv.1 = name kv.2) c.

(** The probe outcomes that [get_available_memory] does not absorb: the
    first block raises something that is not an [ImportError], or it gives
    no device and running [nvidia-smi] raises something that is neither a
    [CalledProcessError] nor a [ValueError]. *)
Definition torch_lets_out (p : ResourceProbe) (e : PyException) : Prop :=
  torch p = TorchRaises e ∧ isinstance e "ImportError" = false.

Definition nvidia_smi_lets_out (p : ResourceProbe) (e : PyException) : Prop :=
  (torch p = TorchNoCuda
   ∨ ∃ e', torch p = TorchRaises e' ∧ isinstance e' "ImportError" = true)
  ∧ nvidia_smi p = SmiRaises e
  ∧ isinstance e "CalledProcessError" = false
  ∧ isinstance e "ValueError" = false.

(** A model name is listed when some entry of the listing has it, as a
    string, under ['name']. *)
Definition listed (model_name : string) (installed : list JSON) : Prop :=
  JString model_name ∈ installed.

(** The sort key as the returned dict shows it. *)
Definition dict_key_le (a b : AIModelDict) : Prop :=
  d_priority a < d_priority b
  ∨ (d_priority a = d_priority b ∧ d_memory_requirement_mb a <= d_memory_requirement_mb b).

End ai_task_router.

(* ===================================================================== *)
(** * jarvis/ai/ai_task_router_temp.py                                     *)
(* ===================================================================== *)

Module ai_task_router_temp.

(** A task entry of [jarvis_config.yaml].  A key that the YAML entry does
    not have is [None]; the empty dict is the entry without any key. *)
Record TaskConfig : Type := mkTaskConfig {
  routing_keywords : option (list string);
  primary_model : option string;
  fallback_models : option (list string);
  models : option (list string)
}.

(** The empty dict. *)
Definition empty_config : TaskConfig := mkTaskConfig None None None None.

(** [self.config]: the [tasks] mapping in its declaration order (the order
    in which [items()] yields it) and the optional [default_task] name. *)
Record Config : Type := mkConfig {
  tasks : list (string * TaskConfig);
  default_task : option string
}.

(** [d.get(key)] on a dict kept in insertion order. *)
Fixpoint dict_get {A} (key : string) (d : list (string * A)) : option A :=
  match d with
  | [] => None
  | (k, v) :: d' => if decide (k = key) then Some v else dict_get key d'
  end.

(** [needle in haystack] for two [str]: [needle] starts at some offset. *)
Fixpoint str_in (needle haystack : string) : bool :=
  String.prefix needle haystack
  || match haystack with
     | EmptyString => false
     | String _ rest => str_in needle rest
     end.

(** [str.lower] restricted to the ASCII letters; the routing functions below
    take the lowering function as an argument, this one instantiates them. *)
Definition ascii_lower (c : Ascii.ascii) : Ascii.ascii :=
  let n := Ascii.nat_of_ascii c in
  if ((65 <=? n) && (n <=? 90))%nat then Ascii.ascii_of_nat (n + 32) else c.

Fixpoint str_lower (s : string) : string :=
  match s with
  | EmptyString => EmptyString
  | String c s' => String (ascii_lower c) (str_lower s')
  end.

Section router.

(** [str.lower] *)
Variable lower : string → string.

(** The inner loop
    [for keyword in task_config.get('routing_keywords', []):
       if keyword.lower() in prompt_lower: return task_config]:
    [true] when the loop returns. *)
Fixpoint scan_keywords (prompt_lower : string) (keywords : list string) : bool :=
  match keywords with
  | [] => false
  | keyword :: keywords' =>
      if str_in (lower keyword) prompt_lower then true
      else scan_keywords prompt_lower keywords'
  end.

(** The outer loop [for task_name, task_config in self.config['tasks'].items()]:
    the task at which the loop returns. *)
Fixpoint scan_tasks (prompt_lower : string) (ts : list (string * TaskConfig))
    : option (string * TaskConfig) :=
  match ts with
  | [] => None
  | (task_name, task_config) :: ts' =>
      if scan_keywords prompt_lower (default [] (routing_keywords task_config))
      then Some (task_name, task_config)
      else scan_tasks prompt_lower ts'
  end.

(** [AITaskRouter.route_task].  The function has no [raise]: on a loaded
    configuration it always returns a dict. *)
Definition route_task (config : Config) (prompt : string) : TaskConfig :=
  let prompt_lower := lower prompt in
  match scan_tasks prompt_lower (tasks config) with
  | Some (task_name, task_config) => task_config
  | None =>
      let default_task_name := default "general_chat" (default_task config) in
      default empty_config (dict_get default_task_name (tasks config))
  end.

(** ** Vocabulary of the statements about keyword routing *)

(** A keyword matches a prompt when its lowered form occurs in the lowered
    prompt. *)
Definition keyword_matches (prompt keyword : string) : Prop :=
  str_in (lower keyword) (lower prompt) = true.

(** A task matches when any of its routing keywords does. *)
Definition task_matches (prompt : string) (task_config : TaskConfig) : Prop :=
  ∃ keyword, keyword ∈ default [] (routing_keywords task_config)
             ∧ keyword_matches prompt keyword.

End router.

End ai_task_router_temp.

(* ===================================================================== *)
(** * jarvis/ai/fallback_ai_manager_temp.py                                *)
(* ===================================================================== *)

Module fallback_ai_manager_temp.
Import ai_task_router_temp.

(** The two markers for which the mock API fails. *)
Definition unavailable (model_name : string) : bool :=
  str_in "specialized_trading_model_v2" model_name || str_in "deepseek-coder" model_name.

(** The message returned when every model failed. *)
Definition all_failed_message : string :=
  "Error: All available AI models failed to process the request.".

(** A value that Python takes as true in [if x:], for an optional string:
    neither [None] nor the empty string. *)
Definition truthy (v : option string) : option string :=
  match v with
  | Some EmptyString => None
  | _ => v
  end.

Section manager.

(** [prompt[:30]] *)
Variable first_30 : string → string.

(** [call_model_api]: the mock of an API call; [None] is a failure.  (Its
    prints and its one-second sleep are left out.) *)
Definition call_model_api (model_name prompt : string) : option string :=
  if unavailable model_name then None
  else Some ("Response from '" +:+ model_name +:+ "': The prompt was '"
             +:+ first_30 prompt +:+ "...'").

(** The loop [for fallback_model in fallback_models] with its
    [if response: return response]. *)
Fixpoint try_fallback_models (fallback_models : list string) (prompt : string)
    : option string :=
  match fallback_models with
  | [] => None
  | fallback_model :: rest =>
      match truthy (call_model_api fallback_model prompt) with
      | Some response => Some response
      | None => try_fallback_models rest prompt
      end
  end.

(** [FallbackAIManager.execute_task] of this file: the primary model when
    the task names one, then the fallback models in order. *)
Definition execute_task (task_config : TaskConfig) (prompt : string) : string :=
  let fallback_models := default [] (fallback_models task_config) in
  let from_primary :=
    match truthy (primary_model task_config) with
    | Some primary_model => truthy (call_model_api primary_model prompt)
    | None => None
    end in
  match from_primary with
  | Some response => response
  | None =>
      match try_fallback_models fallback_models prompt with
      | Some response => response
      | None => all_failed_message
      end
  end.

(** The models of a task in the order in which [execute_task] tries them. *)
Definition models_in_order (task_config : TaskConfig) : list string :=
  match truthy (primary_model task_config) with
  | Some primary_model => [primary_model]
  | None => []
  end ++ default [] (fallback_models task_config).

End manager.

End fallback_ai_manager_temp.

(* ===================================================================== *)
(** * jarvis/ai/fallback_ai_manager.py                                     *)
(* ===================================================================== *)

Module fallback_ai_manager.

(** ** Exceptions, attempts, events *)

(** The exceptions that the manager stores in attempts and in the log.
    [Exception cls msg] is an exception of class [cls] whose [str()] is
    [msg]; [TimeoutError model_name timeout] is the built-in
    [TimeoutError(f"Model {model_name} timed out after {timeout}s")] that the
    executor builds itself. *)
Inductive PyError : Type :=
| Exception (cls msg : string)
| TimeoutError (model_name : string) (timeout : Q).

Definition ValueError (msg : string) : PyError := Exception "ValueError" msg.
Definition RuntimeError (msg : string) : PyError := Exception "RuntimeError" msg.

(** [@dataclass class ModelAttempt] *)
Module ModelAttempt.
Record t : Type := mk {
  model_name : string;
  success : bool;
  response : option string;
  error : option PyError;
  duration : Q;
  retry_count : nat
}.

(** [ModelAttempt(model_name=model_name)] with the dataclass defaults. *)
Definition new (model_name : string) : t := mk model_name false None None 0%Q 0%nat.

(** The dict of [to_dict]: [response] is dropped, [error] is the string of
    the exception when there is one (kept here as the exception). *)
Record dict : Type := mk_dict {
  d_model_name : string;
  d_success : bool;
  d_error : option PyError;
  d_duration : Q;
  d_retry_count : nat
}.

Definition to_dict (a : t) : dict :=
  mk_dict (model_name a) (success a) (error a) (duration a) (retry_count a).

(** The assignments to the fields of the one attempt object of a model. *)
Definition set_retry_count (n : nat) (a : t) : t :=
  mk (model_name a) (success a) (response a) (error a) (duration a) n.
Definition set_duration (d : Q) (a : t) : t :=
  mk (model_name a) (success a) (response a) (error a) d (retry_count a).
Definition set_success (b : bool) (a : t) : t :=
  mk (model_name a) b (response a) (error a) (duration a) (retry_count a).
Definition set_response (r : string) (a : t) : t :=
  mk (model_name a) (success a) (Some r) (error a) (duration a) (retry_count a).
Definition set_error (e : PyError) (a : t) : t :=
  mk (model_name a) (success a) (response a) (Some e) (duration a) (retry_count a).
End ModelAttempt.

(** The events handed to [_log_performance_event], one JSON object each. *)
Inductive EventBody : Type :=
| model_attempt
    (model_name : string) (success : bool) (error : option PyError)
    (duration : Q) (retry_count : nat) (task_type : string)
    (fallback_chain : list string) (fallback_index : nat)
| fallback_chain_exhausted
    (task_type : string) (fallback_chain : list string)
    (attempts : list ModelAttempt.dict) (last_model_used : option string)
    (error : option PyError).

(** An event with the [timestamp] that [_log_performance_event] adds. *)
Record Event : Type := mkEvent { body : EventBody; timestamp : Q }.

(** ** The metrics store *)

(** An entry of [self.model_metrics]. *)
Record ModelMetrics : Type := mkMetrics {
  total_attempts : Z;
  successful_attempts : Z;
  total_duration : Q;
  last_used : Q
}.

(** ** The manager, its collaborators and the world *)

(** The [config] object that the module imports from [...utils.config], as
    far as the provider adapters read it: each attribute holds a string or
    [None]. *)
Record Settings : Type := mkSettings {
  OLLAMA_URL : option string;
  OPENAI_API_KEY : option string;
  ANTHROPIC_API_KEY : option string;
  DEEPSEEK_API_KEY : option string
}.

(** The attributes of a [FallbackAIManager] that do not change.  A task of
    [tasks_config] is kept as the value of its ['models'] key, if it has one.
    [fallback_chains] is read by [get_fallback_chain]; [__init__] does not
    assign it, so it is taken as given. *)
Record Manager : Type := mkManager {
  tasks_config : gmap string (option (list string));
  max_retries : Z;
  timeout : Q;
  fallback_chains : gmap string (list string);
  config : Settings
}.

(** What the manager asks of the outside world. *)
Inductive Request : Type :=
| TaskCall (model_name : string)
    (* [task_func(model_name, *args, **kwargs)] under [asyncio.wait_for] *)
| HttpPost (url : string) (api_key : option string) (model_tag prompt : string).
    (* one [client.post] of a provider adapter, with the decoding of its reply *)

#[global] Instance Request_eq_dec : EqDecision Request.
Proof. solve_decision. Defined.

(** How an awaited call ends. *)
Inductive Outcome : Type :=
| Returns (result : string)
| Raises (e : PyError)          (* an [Exception] of the callee *)
| TimesOut.                     (* [asyncio.TimeoutError] of [wait_for] *)

(** The outside world: the readings of [time.time()] in order, and how each
    request ends given all the requests made before it. *)
Record Env : Type := mkEnv {
  clock : nat → Q;
  respond : list (Request * Outcome) → Request → Outcome
}.

(** The mutable state: the metrics dict of the manager, the lines appended
    to the performance log, the requests made so far with their outcomes,
    the number of clock readings and the number of [asyncio.sleep(1)]. *)
Record World : Type := mkWorld {
  model_metrics : gmap string ModelMetrics;
  performance_log : list Event;
  calls : list (Request * Outcome);
  ticks : nat;
  sleeps : nat
}.

(** Computations that read and change the world. *)
Definition M (A : Type) : Type := World → A * World.

Definition ret {A} (a : A) : M A := λ w, (a, w).

Definition bind {A B} (c : M A) (k : A → M B) : M B :=
  λ w, let (a, w') := c w in k a w'.

Notation "'do' x <- c ; k" := (bind c (λ x, k))
  (at level 10, x name, c at level 100, k at level 200).
Notation "'do' ' p <- c ; k" := (bind c (λ x, match x with p => k end))
  (at level 10, p pattern, c at level 100, k at level 200).
Notation "c ;; k" := (bind c (λ _, k))
  (at level 100, k at level 200, right associativity).

Section with_env.

Variable env : Env.

(** [time.time()] *)
Definition time_time : M Q :=
  λ w, (clock env (ticks w),
        mkWorld (model_metrics w) (performance_log w) (calls w) (S (ticks w)) (sleeps w)).

(** [await ...] of a request. *)
Definition await (req : Request) : M Outcome :=
  λ w, let o := respond env (calls w) req in
       (o, mkWorld (model_metrics w) (performance_log w) (calls w ++ [(req, o)])
             (ticks w) (sleeps w)).

(** [await asyncio.sleep(1)] *)
Definition sleep : M unit :=
  λ w, (tt, mkWorld (model_metrics w) (performance_log w) (calls w) (ticks w) (S (sleeps w))).

(** [_log_performance_event]: stamps the event and appends it.  (A failure
    to write the file is caught and reported by the source; the log here is
    the sequence of events handed to the sink.) *)
Definition _log_performance_event (event : EventBody) : M unit :=
  do now <- time_time;
  λ w, (tt, mkWorld (model_metrics w) (performance_log w ++ [mkEvent event now])
              (calls w) (ticks w) (sleeps w)).

(** The entry that [update_model_metrics] creates for an unknown model. *)
Definition zero_metrics : ModelMetrics := mkMetrics 0 0 0%Q 0%Q.

(** The effect of [update_model_metrics] on the dict, at clock reading [now]. *)
Definition update_metrics_dict (mm : gmap string ModelMetrics)
    (model_name : string) (success : bool) (duration now : Q)
    : gmap string ModelMetrics :=
  let metrics := default zero_metrics (mm !! model_name) in
  <[model_name :=
      mkMetrics (total_attempts metrics + 1)
        (if success then successful_attempts metrics + 1 else successful_attempts metrics)
        (total_duration metrics + duration)%Q
        now]> mm.

(** [update_model_metrics] *)
Definition update_model_metrics (model_name : string) (success : bool) (duration : Q)
    : M unit :=
  do now <- time_time;
  λ w, (tt, mkWorld (update_metrics_dict (model_metrics w) model_name success duration now)
              (performance_log w) (calls w) (ticks w) (sleeps w)).

(** *** The provider adapters *)

Inductive Client : Type :=
| _call_ollama
| _call_openai
| _call_anthropic
| _call_deepseek.

(** [_get_model_client]: dispatch on the prefix of the identifier. *)
Definition _get_model_client (model_name : string) : option Client :=
  if String.prefix "ollama/" model_name then Some _call_ollama
  else if String.prefix "openai/" model_name then Some _call_openai
  else if String.prefix "anthropic/" model_name then Some _call_anthropic
  else if String.prefix "deepseek/" model_name then Some _call_deepseek
  else None.

(** [model_name.split('/', 1)[1]]: what follows the first slash (the
    adapters are only reached with an identifier that has one). *)
Fixpoint model_tag_of (model_name : string) : string :=
  match model_name with
  | EmptyString => EmptyString
  | String c rest => if Ascii.eqb c (Ascii.ascii_of_nat 47) then rest else model_tag_of rest
  end.

(** A configuration value that Python takes as true: neither [None] nor
    the empty string. *)
Definition truthy (v : option string) : option string :=
  match v with
  | Some EmptyString => None
  | _ => v
  end.

(** A hosted adapter: the key is checked before anything is sent. *)
Definition call_hosted (key_name url : string) (api_key : option string)
    (model_name prompt : string) : M Outcome :=
  let model_tag := model_tag_of model_name in
  match truthy api_key with
  | None => ret (Raises (ValueError (key_name +:+ " is not configured.")))
  | Some key => await (HttpPost url (Some key) model_tag prompt)
  end.

(** [await model_client(model_name, prompt)] for the client that
    [_get_model_client] returned.  The decoding of the reply (the last
    streamed fragment for Ollama, the vendor envelope for the others) is
    part of the outcome of the request. *)
Definition call_client (mgr : Manager) (client : Client) (model_name prompt : string)
    : M Outcome :=
  match client with
  | _call_ollama =>
      let model_tag := model_tag_of model_name in
      let ollama_url := default "http://localhost:11434" (truthy (OLLAMA_URL (config mgr))) in
      await (HttpPost (ollama_url +:+ "/api/generate") None model_tag prompt)
  | _call_openai =>
      call_hosted "OPENAI_API_KEY" "https://api.openai.com/v1/chat/completions"
        (OPENAI_API_KEY (config mgr)) model_name prompt
  | _call_anthropic =>
      call_hosted "ANTHROPIC_API_KEY" "https://api.anthropic.com/v1/messages"
        (ANTHROPIC_API_KEY (config mgr)) model_name prompt
  | _call_deepseek =>
      call_hosted "DEEPSEEK_API_KEY" "https://api.deepseek.com/chat/completions"
        (DEEPSEEK_API_KEY (config mgr)) model_name prompt
  end.

(** The credential that an adapter requires: the name of the setting and
    its value; the Ollama adapter requires none. *)
Definition required_key (mgr : Manager) (client : Client)
    : option (string * option string) :=
  match client with
  | _call_ollama => None
  | _call_openai => Some ("OPENAI_API_KEY", OPENAI_API_KEY (config mgr))
  | _call_anthropic => Some ("ANTHROPIC_API_KEY", ANTHROPIC_API_KEY (config mgr))
  | _call_deepseek => Some ("DEEPSEEK_API_KEY", DEEPSEEK_API_KEY (config mgr))
  end.

(** *** [execute_task] *)

(** What [execute_task] returns: the response of a model, or one of its
    three error messages. *)
Inductive TaskResult : Type :=
| Response (text : string)
| TaskNotConfigured (task_name : string)
    (* "Error: Task '...' is not configured." *)
| NoModelsConfigured (task_name : string)
    (* "Error: No models configured for task '...'." *)
| AllModelsFailed (task_name : string) (last_error : option PyError).
    (* "Task '...' failed. All models in the chain failed. Last error: ..." *)

(** The exception that a failed adapter call leaves in [except Exception as e];
    without [wait_for], a timeout is the exception of the HTTP client. *)
Definition exception_of (o : Outcome) : PyError :=
  match o with
  | Raises e => e
  | TimesOut => Exception "httpx.TimeoutException" ""
  | Returns _ => Exception "" ""
  end.

(** The loop [for attempt in range(self.max_retries)] of [execute_task] for
    one model, from the attempt indices that remain. *)
Fixpoint execute_task_retries (mgr : Manager) (client : Client)
    (model_name prompt : string) (attempts : list nat) (last_error : option PyError)
    : M (option string * option PyError) :=
  match attempts with
  | [] => ret (None, last_error)
  | attempt :: attempts' =>
      do start_time <- time_time;
      do o <- call_client mgr client model_name prompt;
      match o with
      | Returns response =>
          do now <- time_time;
          let duration := (now - start_time)%Q in
          update_model_metrics model_name true duration ;;
          ret (Some response, last_error)
      | _ =>
          do now <- time_time;
          let duration := (now - start_time)%Q in
          let last_error := Some (exception_of o) in
          update_model_metrics model_name false duration ;;
          (if decide (Z.of_nat attempt < max_retries mgr - 1) then sleep else ret tt) ;;
          execute_task_retries mgr client model_name prompt attempts' last_error
      end
  end.

(** [range(n)] for a Python int. *)
Definition range (n : Z) : list nat := seq 0 (Z.to_nat n).

(** The loop [for model_name in model_chain] of [execute_task]. *)
Fixpoint execute_task_chain (mgr : Manager) (prompt : string)
    (model_chain : list string) (last_error : option PyError)
    : M (option string * option PyError) :=
  match model_chain with
  | [] => ret (None, last_error)
  | model_name :: model_chain' =>
      match _get_model_client model_name with
      | None => execute_task_chain mgr prompt model_chain' last_error
      | Some model_client =>
          do '(r, last_error) <-
            execute_task_retries mgr model_client model_name prompt
              (range (max_retries mgr)) last_error;
          match r with
          | Some response => ret (Some response, last_error)
          | None => execute_task_chain mgr prompt model_chain' last_error
          end
      end
  end.

(** [execute_task] *)
Definition execute_task (mgr : Manager) (task_name prompt : string) : M TaskResult :=
  match tasks_config mgr !! task_name with
  | None => ret (TaskNotConfigured task_name)
  | Some task =>
      match default [] task with
      | [] => ret (NoModelsConfigured task_name)
      | model_chain =>
          do '(r, last_error) <- execute_task_chain mgr prompt model_chain None;
          match r with
          | Some response => ret (Response response)
          | None => ret (AllModelsFailed task_name last_error)
          end
      end
  end.

End with_env.

(** [get_model_success_rate].  Python's [/] on two ints is the double
    nearest to the exact quotient; the model keeps the exact quotient. *)
Definition get_model_success_rate (mm : gmap string ModelMetrics) (model_name : string) : Q :=
  match mm !! model_name with
  | None => 1%Q
  | Some metrics =>
      if decide (total_attempts metrics = 0) then 1%Q
      else (inject_Z (successful_attempts metrics) / inject_Z (total_attempts metrics))%Q
  end.

Inductive KeyError : Type := KeyError_text.

(** [get_fallback_chain]: [dict.get(task_type, self.fallback_chains['text'])];
    the default is evaluated before [get] is called, so a missing ['text']
    chain raises [KeyError] whatever the task type. *)
Definition get_fallback_chain (mgr : Manager) (task_type : string)
    : PyResult KeyError (list string) :=
  match fallback_chains mgr !! "text" with
  | None => Raise KeyError_text
  | Some text_chain => Ok (default text_chain (fallback_chains mgr !! task_type))
  end.

Section with_env_fallback.

Variable env : Env.

(** *** [execute_with_fallback] *)

(** The [finally] block of an attempt: it runs after a failed attempt and
    also on the way out of the [return] of a successful one. *)
Definition attempt_finally (task_type : string) (fallback_chain : list string)
    (model_idx : nat) (model_name : string) (start_time : Q)
    (attempt : ModelAttempt.t) : M ModelAttempt.t :=
  do now <- time_time env;
  let attempt := ModelAttempt.set_duration (now - start_time)%Q attempt in
  update_model_metrics env model_name (ModelAttempt.success attempt)
    (ModelAttempt.duration attempt) ;;
  if ModelAttempt.success attempt then ret attempt
  else
    _log_performance_event env
      (model_attempt model_name false (ModelAttempt.error attempt)
         (ModelAttempt.duration attempt) (ModelAttempt.retry_count attempt)
         task_type fallback_chain model_idx) ;;
    ret attempt.

(** The loop [for retry in range(self.max_retries)] for one model, from the
    retry indices that remain.  [attempt] is the one [ModelAttempt] object
    of the model, which every retry overwrites; the result is [Some] when
    the function returned from inside the loop. *)
Fixpoint execute_with_fallback_retries (mgr : Manager) (task_type : string)
    (fallback_chain : list string) (model_idx : nat) (model_name : string)
    (start_time : Q) (retries : list nat)
    (attempt : ModelAttempt.t) (last_error : option PyError)
    : M (option string * ModelAttempt.t * option PyError) :=
  match retries with
  | [] => ret (None, attempt, last_error)
  | retry :: retries' =>
      let attempt := ModelAttempt.set_retry_count retry attempt in
      do o <- await env (TaskCall model_name);
      match o with
      | Returns result =>
          do now <- time_time env;
          let attempt := ModelAttempt.set_duration (now - start_time)%Q attempt in
          let attempt := ModelAttempt.set_success true attempt in
          let attempt := ModelAttempt.set_response result attempt in
          update_model_metrics env model_name true (ModelAttempt.duration attempt) ;;
          _log_performance_event env
            (model_attempt model_name true None
               (ModelAttempt.duration attempt) (ModelAttempt.retry_count attempt)
               task_type fallback_chain model_idx) ;;
          (* [return result, attempt], through [finally] *)
          do attempt <- attempt_finally task_type fallback_chain model_idx model_name
                          start_time attempt;
          ret (Some result, attempt, last_error)
      | TimesOut =>
          let last_error := Some (TimeoutError model_name (timeout mgr)) in
          let attempt := ModelAttempt.set_error (TimeoutError model_name (timeout mgr)) attempt in
          do attempt <- attempt_finally task_type fallback_chain model_idx model_name
                          start_time attempt;
          execute_with_fallback_retries mgr task_type fallback_chain model_idx
            model_name start_time retries' attempt last_error
      | Raises e =>
          let attempt := ModelAttempt.set_error e attempt in
          let last_error := Some e in
          do attempt <- attempt_finally task_type fallback_chain model_idx model_name
                          start_time attempt;
          execute_with_fallback_retries mgr task_type fallback_chain model_idx
            model_name start_time retries' attempt last_error
      end
  end.

(** The local variables that the loop over the chain carries. *)
Record ChainState : Type := mkChainState {
  last_error : option PyError;
  last_model_used : option string;
  fallback_event_chain : list ModelAttempt.dict
}.

(** The loop [for model_idx, model_name in enumerate(fallback_chain)], from
    the models that remain, [model_idx] being the index of the first. *)
Fixpoint execute_with_fallback_chain (mgr : Manager) (task_type : string)
    (fallback_chain : list string) (model_idx : nat) (remaining : list string)
    (st : ChainState) : M (option (string * ModelAttempt.t) * ChainState) :=
  match remaining with
  | [] => ret (None, st)
  | model_name :: remaining' =>
      let attempt := ModelAttempt.new model_name in
      do start_time <- time_time env;
      do '(r, attempt, err) <-
        execute_with_fallback_retries mgr task_type fallback_chain model_idx
          model_name start_time (range (max_retries mgr)) attempt (last_error st);
      match r with
      | Some result => ret (Some (result, attempt), st)
      | None =>
          execute_with_fallback_chain mgr task_type fallback_chain (S model_idx)
            remaining'
            (mkChainState err (Some model_name)
               (fallback_event_chain st ++ [ModelAttempt.to_dict attempt]))
      end
  end.

(** The attempt returned when the chain is exhausted. *)
Definition exhausted_attempt : ModelAttempt.t :=
  ModelAttempt.mk "" false None
    (Some (RuntimeError "All models in fallback chain failed")) 0%Q 0%nat.

(** [execute_with_fallback].  The task function and its arguments are the
    [TaskCall] requests of the environment. *)
Definition execute_with_fallback (mgr : Manager) (task_type : string)
    : M (PyResult KeyError (option string * ModelAttempt.t)) :=
  match get_fallback_chain mgr task_type with
  | Raise e => ret (Raise e)
  | Ok fallback_chain =>
      do '(r, st) <-
        execute_with_fallback_chain mgr task_type fallback_chain 0 fallback_chain
          (mkChainState None None []);
      match r with
      | Some (result, attempt) => ret (Ok (Some result, attempt))
      | None =>
          _log_performance_event env
            (fallback_chain_exhausted task_type fallback_chain
               (fallback_event_chain st) (last_model_used st) (last_error st)) ;;
          ret (Ok (None, exhausted_attempt))
      end
  end.

(** *** [get_system_health] *)

Inductive HealthStatus : Type := healthy | degraded | unhealthy.

#[global] Instance HealthStatus_eq_dec : EqDecision HealthStatus.
Proof. solve_decision. Defined.

(** An entry of [health['models']]. *)
Record ModelHealth : Type := mkModelHealth {
  h_success_rate : Q;
  h_total_attempts : Z;
  h_successful_attempts : Z;
  h_average_duration : Q;
  h_last_used : Q;
  status : HealthStatus
}.

Record SystemHealth : Type := mkSystemHealth {
  models : gmap string ModelHealth;
  overall_health : HealthStatus;
  h_timestamp : Q
}.

(** ['healthy' if success_rate > 0.8 else 'degraded' if success_rate > 0.5
    else 'unhealthy'] *)
Definition status_of (success_rate : Q) : HealthStatus :=
  if Qlt_le_dec (8 # 10) success_rate then healthy
  else if Qlt_le_dec (5 # 10) success_rate then degraded
  else unhealthy.

(** The entry that the loop over [self.model_metrics.items()] builds for
    one model. *)
Definition health_entry (mm : gmap string ModelMetrics) (model_name : string)
    (metrics : ModelMetrics) : ModelHealth :=
  let success_rate := get_model_success_rate mm model_name in
  mkModelHealth success_rate (total_attempts metrics) (successful_attempts metrics)
    (if decide (0 < total_attempts metrics)
     then (total_duration metrics / inject_Z (total_attempts metrics))%Q else 0%Q)
    (last_used metrics)
    (status_of success_rate).

(** The body of that loop. *)
Definition health_step (mm : gmap string ModelMetrics) (health : SystemHealth)
    (item : string * ModelMetrics) : SystemHealth :=
  let (model_name, metrics) := item in
  let models' := <[model_name := health_entry mm model_name metrics]> (models health) in
  mkSystemHealth models'
    (if decide (status (health_entry mm model_name metrics) ≠ healthy)
     then degraded else overall_health health)
    (h_timestamp health).

(** [get_system_health] *)
Definition get_system_health : M SystemHealth :=
  do now <- time_time env;
  λ w, (foldl (health_step (model_metrics w)) (mkSystemHealth ∅ healthy now)
          (map_to_list (model_metrics w)), w).

(** ** Vocabulary of the statements about the executor *)

(** An item of the metrics dict whose model is not classified healthy. *)
Definition non_healthy (mm : gmap string ModelMetrics)
    (item : string * ModelMetrics) : Prop :=
  status (health_entry mm item.1 item.2) ≠ healthy.

#[global] Instance non_healthy_dec mm item : Decision (non_healthy mm item).
Proof. unfold non_healthy. apply _. Defined.

(** An awaited call failed when it did not return. *)
Definition is_failure (o : Outcome) : Prop := ∀ result, o ≠ Returns result.

(** The exception that [execute_with_fallback] stores for a failed call. *)
Definition failure_error (mgr : Manager) (model_name : string) (o : Outcome) : PyError :=
  match o with
  | Raises e => e
  | TimesOut | Returns _ => TimeoutError model_name (timeout mgr)
  end.

(** The counters of a model, 0 when the model has no entry. *)
Definition attempts_of (mm : gmap string ModelMetrics) (model_name : string) : Z :=
  default 0 (total_attempts <$> mm !! model_name).

Definition successes_of (mm : gmap string ModelMetrics) (model_name : string) : Z :=
  default 0 (successful_attempts <$> mm !! model_name).

(** What an event of the performance log says, without its times. *)
Inductive EventBrief : Type :=
| attempt_logged (model_name : string) (success : bool) (retry_count fallback_index : nat)
| exhausted_logged (attempts : list (string * bool)).

Definition event_brief (e : Event) : EventBrief :=
  match body e with
  | model_attempt model_name success _ _ retry_count _ _ fallback_index =>
      attempt_logged model_name success retry_count fallback_index
  | fallback_chain_exhausted _ _ attempts _ _ =>
      exhausted_logged ((λ d, (ModelAttempt.d_model_name d, ModelAttempt.d_success d)) <$> attempts)
  end.

(** [true] for a call that returned. *)
Definition returned (o : Outcome) : bool :=
  match o with
  | Returns _ => true
  | Raises _ | TimesOut => false
  end.

(** What one call of the task function adds to [total_attempts] and to
    [successful_attempts] of its model in [execute_with_fallback]: a failed
    call is counted once, a call that returned is counted by the success
    branch and again by [finally]. *)
Definition attempts_added (o : Outcome) : Z := if returned o then 2 else 1.
Definition successes_added (o : Outcome) : Z := if returned o then 2 else 0.

(** The same for a sequence of calls, for the model [model_name]. *)
Fixpoint attempts_recorded (cs : list (Request * Outcome)) (model_name : string) : Z :=
  match cs with
  | [] => 0
  | (req, o) :: cs' =>
      (if decide (req = TaskCall model_name) then attempts_added o else 0)
      + attempts_recorded cs' model_name
  end.

Fixpoint successes_recorded (cs : list (Request * Outcome)) (model_name : string) : Z :=
  match cs with
  | [] => 0
  | (req, o) :: cs' =>
      (if decide (req = TaskCall model_name) then successes_added o else 0)
      + successes_recorded cs' model_name
  end.

(** A call of the task function for [model_name] that failed. *)
Definition failed_call (c : Request * Outcome) : Prop := is_failure c.2.

(** The log lines of a run of retries: one per call, in order. *)
Definition attempt_briefs (model_name : string) (model_idx : nat)
    (retries : list nat) (outs : list Outcome) : list EventBrief :=
  zip_with (λ retry o, attempt_logged model_name (returned o) retry model_idx) retries outs.

(** The world [w'] comes from [w] by the calls [cs], each counted in the
    metrics of its model as [attempts_added] and [successes_added] say. *)
Definition trace_effect (w w' : World) (cs : list (Request * Outcome)) : Prop :=
  calls w' = calls w ++ cs
  ∧ (∀ m, attempts_of (model_metrics w') m
          = attempts_of (model_metrics w) m + attempts_recorded cs m)
  ∧ (∀ m, successes_of (model_metrics w') m
          = successes_of (model_metrics w) m + successes_recorded cs m).

(** A log line about one attempt. *)
Definition is_attempt_brief (b : EventBrief) : Prop :=
  match b with
  | attempt_logged _ _ _ _ => True
  | exhausted_logged _ => False
  end.

(** The attempt object and the world after one failed attempt of
    [execute_with_fallback] that started in world [w]. *)
Definition failed_attempt (mgr : Manager) (model_name : string) (start_time : Q)
    (retry : nat) (o : Outcome) (attempt : ModelAttempt.t) (w : World) : ModelAttempt.t :=
  ModelAttempt.set_duration (clock env (ticks w) - start_time)%Q
    (ModelAttempt.set_error (failure_error mgr model_name o)
       (ModelAttempt.set_retry_count retry attempt)).

Definition failed_attempt_world (mgr : Manager) (task_type : string)
    (fallback_chain : list string) (model_idx : nat) (model_name : string)
    (start_time : Q) (retry : nat) (o : Outcome) (w : World) : World :=
  let duration := (clock env (ticks w) - start_time)%Q in
  mkWorld
    (update_metrics_dict (model_metrics w) model_name false duration (clock env (S (ticks w))))
    (performance_log w
       ++ [mkEvent
             (model_attempt model_name false (Some (failure_error mgr model_name o))
                duration retry task_type fallback_chain model_idx)
             (clock env (S (S (ticks w))))])
    (calls w ++ [(TaskCall model_name, o)])
    (S (S (S (ticks w))))
    (sleeps w).

(** The same after a successful attempt: the metrics are updated before
    the [return] and again in the [finally] block. *)
Definition successful_attempt (start_time : Q) (retry : nat) (result : string)
    (attempt : ModelAttempt.t) (w : World) : ModelAttempt.t :=
  ModelAttempt.set_duration (clock env (S (S (S (ticks w)))) - start_time)%Q
    (ModelAttempt.set_response result
       (ModelAttempt.set_success true
          (ModelAttempt.set_duration (clock env (ticks w) - start_time)%Q
             (ModelAttempt.set_retry_count retry attempt)))).

Definition successful_attempt_world (task_type : string)
    (fallback_chain : list string) (model_idx : nat) (model_name : string)
    (start_time : Q) (retry : nat) (result : string) (w : World) : World :=
  let duration := (clock env (ticks w) - start_time)%Q in
  let duration' := (clock env (S (S (S (ticks w)))) - start_time)%Q in
  mkWorld
    (update_metrics_dict
       (update_metrics_dict (model_metrics w) model_name true duration
          (clock env (S (ticks w))))
       model_name true duration' (clock env (S (S (S (S (ticks w)))))))
    (performance_log w
       ++ [mkEvent
             (model_attempt model_name true None duration retry task_type
                fallback_chain model_idx)
             (clock env (S (S (ticks w))))])
    (calls w ++ [(TaskCall model_name, Returns result)])
    (S (S (S (S (S (ticks w))))))
    (sleeps w).

End with_env_fallback.

(** ** Further vocabulary *)

(** The counters of every model are consistent: no more successes than
    attempts, and neither negative. *)
Definition counters_consistent (mm : gmap string ModelMetrics) : Prop :=
  ∀ m, 0 <= successes_of mm m <= attempts_of mm m.

(** The model and the success flag that a log line about an attempt
    carries; [None] for the line about an exhausted chain. *)
Definition brief_key (b : EventBrief) : option (string * bool) :=
  match b with
  | attempt_logged model_name success _ _ => Some (model_name, success)
  | exhausted_logged _ => None
  end.

Definition event_key (e : Event) : option (string * bool) := brief_key (event_brief e).

(** The model and the success flag of a call of the task function. *)
Definition call_key (c : Request * Outcome) : option (string * bool) :=
  match c.1 with
  | TaskCall model_name => Some (model_name, returned c.2)
  | HttpPost _ _ _ _ => None
  end.

(** The calls of an execution whose model [chain] received the outcomes
    [blocks], one block per model: all calls of the first model, then all
    calls of the second, and so on. *)
Definition scheduled_calls (chain : list string) (blocks : list (list Outcome))
    : list (Request * Outcome) :=
  concat (zip_with (λ m b, (λ o, (TaskCall m, o)) <$> b) chain blocks).

(** The attempt record of a model that was never called. *)
Definition untried (model_name : string) : ModelAttempt.dict :=
  ModelAttempt.to_dict (ModelAttempt.new model_name).

(** 1 for a result, 0 for none. *)
Definition hit {A} (r : option A) : Z :=
  match r with
  | Some _ => 1
  | None => 0
  end.

(** The prefix by which [_get_model_client] recognises a client. *)
Definition provider_prefix (client : Client) : string :=
  match client with
  | _call_ollama => "ollama/"
  | _call_openai => "openai/"
  | _call_anthropic => "anthropic/"
  | _call_deepseek => "deepseek/"
  end.

(** The models of a chain for which [_get_model_client] finds a client. *)
Definition resolvable (chain : list string) : list string :=
  filter (λ m, is_Some (_get_model_client m)) chain.

End fallback_ai_manager.

(* ===================================================================== *)
(** * Scenarios                                                            *)
(* ===================================================================== *)

(** Concrete configurations and environments on which the statements below
    are exercised. *)
Module scenarios.

Section router_scenarios.
Import ai_task_router.

(** A listing of two installed models; entries carry more than the name. *)
Definition two_small_models : JSON :=
  JArray [ JObject [("name", JString "gemma:2b"); ("size", JNumber "1678456656")];
           JObject [("name", JString "llava:latest"); ("size", JNumber "4733363377")] ].

End router_scenarios.

Section keyword_router_scenarios.
Import ai_task_router_temp.

(** Two tasks with overlapping keyword sets: the longer, more specific
    keyword of the later task does not win. *)
Definition overlapping_config : Config :=
  mkConfig
    [ ("code_analysis", mkTaskConfig (Some ["code"; "Analyze"]) (Some "ollama/codellama") None None);
      ("code_review", mkTaskConfig (Some ["analyze this code"]) (Some "openai/gpt-4") None None);
      ("general_chat", mkTaskConfig None (Some "ollama/llama3") (Some ["ollama/mistral"]) None) ]
    (Some "general_chat").

(** A configuration whose default task is not declared. *)
Definition no_default_config : Config :=
  mkConfig
    [ ("code_analysis", mkTaskConfig (Some ["code"]) (Some "ollama/codellama") None None) ]
    None.

(** A configuration with an empty keyword in its second task. *)
Definition catch_all_config : Config :=
  mkConfig
    [ ("code_analysis", mkTaskConfig (Some ["code"]) (Some "ollama/codellama") None None);
      ("anything", mkTaskConfig (Some ["help"; EmptyString]) (Some "ollama/llama3") None None);
      ("trading", mkTaskConfig (Some ["btc"]) (Some "ollama/mistral") None None);
      ("general_chat", mkTaskConfig None (Some "ollama/gemma") None None) ]
    (Some "general_chat").

(** A task whose primary model and first fallback are among those the mock
    API fails for. *)
Definition trading_task : TaskConfig :=
  mkTaskConfig (Some ["btc"; "signal"]) (Some "specialized_trading_model_v2")
    (Some ["deepseek-coder:6.7b"; "llama3:8b"; "mistral:latest"]) None.

(** [prompt[:30]] on a prompt of one-byte characters. *)
Definition first_30_bytes (prompt : string) : string := String.substring 0 30 prompt.

End keyword_router_scenarios.

Section fallback_scenarios.
Import fallback_ai_manager.

(** A clock that advances by one second per reading. *)
Definition ticking_clock (n : nat) : Q := inject_Z (Z.of_nat n).

(** The task function of the spec's example: [p1/modelA] always raises, any
    other model answers. *)
Definition flaky_env : Env :=
  mkEnv ticking_clock
    (λ _ req,
       match req with
       | TaskCall model_name =>
           if decide (model_name = "p1/modelA")
           then Raises (Exception "ValueError" "Simulated failure")
           else Returns ("Response from " +:+ model_name)
       | HttpPost _ _ _ _ => Raises (Exception "httpx.ConnectError" "unreachable")
       end).

(** A task function that never answers: it raises on its first call and
    times out afterwards. *)
Definition failing_env : Env :=
  mkEnv ticking_clock
    (λ h _, match h with
            | [] => Raises (Exception "ValueError" "Simulated failure")
            | _ :: _ => TimesOut
            end).

(** A manager with the default [max_retries] and [timeout], a two-model
    text chain, one task served by a hosted model, and the settings that
    [os.getenv(..., '')] gives when no key is set. *)
Definition demo_manager : Manager :=
  mkManager
    {[ "chat" := Some ["openai/gpt-4"] ]}
    2 60%Q
    {[ "text" := ["p1/modelA"; "p2/modelB"] ]}
    (mkSettings None (Some EmptyString) (Some EmptyString) None).

Definition initial_world : World := mkWorld ∅ [] [] 0 0.

(** A manager whose retry budget is zero. *)
Definition no_budget_manager : Manager :=
  mkManager ∅ 0 60%Q {[ "text" := ["p1/modelA"; "p2/modelB"] ]}
    (mkSettings None None None None).



(** The world after the run in which both models of the text chain fail,
    after a chat task answered by the local model, and after the chat task
    of the manager without an OpenAI key. *)
Definition exhausted_world : World :=
  (execute_with_fallback failing_env demo_manager "text" initial_world).2.


Definition unanswered_world : World :=
  (execute_task flaky_env demo_manager "chat" "hi" initial_world).2.

(** A store in which one model succeeded 4 times out of 5. *)
Definition four_of_five : gmap string ModelMetrics :=
  {[ "ollama/llama3" := mkMetrics 5 4 10%Q 100%Q ]}.

End fallback_scenarios.

End scenarios.

(* ===================================================================== *)
(** * Properties of the structured router                                  *)
(* ===================================================================== *)

Section ai_task_router_properties.
Import ai_task_router.

Lemma key_le_spec a b : key_le a b = true ↔ key_leP a b.
Proof. unfold key_le, key_leP. lia. Qed.

Lemma key_le_total a b : key_le a b = false → key_leP b a.
Proof. unfold key_le, key_leP. lia. Qed.

Lemma key_leP_trans a b c : key_leP a b → key_leP b c → key_leP a c.
Proof. unfold key_leP. lia. Qed.

Lemma insert_by_key_perm x l : insert_by_key x l ≡ₚ x :: l.
Proof.
  induction l as [|y l IH]; simpl; [done|].
  destruct (key_le x y); [done|].
  rewrite IH. apply Permutation_swap.
Qed.

Lemma sort_by_key_perm l : sort_by_key l ≡ₚ l.
Proof.
  induction l as [|x l IH]; simpl; [done|].
  by rewrite insert_by_key_perm, IH.
Qed.

Lemma elem_of_sort_by_key m l : m ∈ sort_by_key l ↔ m ∈ l.
Proof. by rewrite sort_by_key_perm. Qed.

Lemma insert_by_key_ascending x l :
  ascending l → ascending (insert_by_key x l).
Proof.
  induction 1 as [|y l Hy Hl IH]; simpl.
  - constructor; [|constructor]. intros y Hy. by apply elem_of_nil in Hy.
  - destruct (key_le x y) eqn:Hxy.
    + apply key_le_spec in Hxy.
      constructor; [|by constructor].
      intros z [->|Hz]%elem_of_cons; [done|].
      eapply key_leP_trans; eauto.
    + apply key_le_total in Hxy.
      constructor; [|done].
      intros z Hz. rewrite insert_by_key_perm in Hz.
      apply elem_of_cons in Hz as [->|Hz]; auto.
Qed.

Lemma sort_by_key_ascending l : ascending (sort_by_key l).
Proof.
  induction l; simpl; [constructor | by apply insert_by_key_ascending].
Qed.

(** The sort is stable: the models that share a key come out in the order
    in which they went in.  With [sort_by_key_perm] and
    [sort_by_key_ascending] this fixes the output of any stable sort. *)
Lemma insert_by_key_stable k x l :
  filter (same_key k) (insert_by_key x l) = filter (same_key k) (x :: l).
Proof.
  induction l as [|y l IH]; simpl; [done|].
  destruct (key_le x y) eqn:Hxy; [done|].
  rewrite filter_cons, IH, !filter_cons.
  destruct (decide (same_key k y)) as [Hy|Hy], (decide (same_key k x)) as [Hx|Hx];
    try done.
  exfalso. unfold same_key in Hx, Hy. unfold key_le in Hxy. lia.
Qed.

Lemma sort_by_key_stable k l :
  filter (same_key k) (sort_by_key l) = filter (same_key k) l.
Proof.
  induction l as [|x l IH]; simpl; [done|].
  by rewrite insert_by_key_stable, !filter_cons, IH.
Qed.

Lemma first_fitting_Some avail l m :
  ascending l →
  first_fitting avail l = Some m →
  m ∈ l ∧ memory_requirement m <= avail
  ∧ ∀ m', m' ∈ l → memory_requirement m' <= avail → key_leP m m'.
Proof.
  induction 1 as [|x l Hx Hl IH]; simpl; [done|].
  destruct (Z.leb_spec (memory_requirement x) avail) as [Hfit|Hfit].
  - intros [= <-]. split_and!; [left | done |].
    intros m' [->|Hm']%elem_of_cons _; [unfold key_leP; lia | auto].
  - intros Hm. destruct (IH Hm) as (Hin & Hle & Hmin).
    split_and!; [by right | done |].
    intros m' [->|Hm']%elem_of_cons Hfit'; [lia | auto].
Qed.

Lemma first_fitting_None avail l :
  first_fitting avail l = None ↔ ∀ m, m ∈ l → avail < memory_requirement m.
Proof.
  induction l as [|x l IH]; simpl.
  - split; [|done]. intros _ m Hm. by apply elem_of_nil in Hm.
  - destruct (Z.leb_spec (memory_requirement x) avail) as [Hfit|Hfit].
    + split; [done|]. intros H. specialize (H x (list_elem_of_here _ _)). lia.
    + rewrite IH. split.
      * intros H m [->|Hm]%elem_of_cons; auto.
      * intros H m Hm. apply H. by right.
Qed.

Lemma min_by_memory_spec best l :
  min_by_memory best l ∈ best :: l
  ∧ ∀ m, m ∈ best :: l →
      memory_requirement (min_by_memory best l) <= memory_requirement m.
Proof.
  revert best. induction l as [|x l IH]; intros best; simpl.
  - split; [left|]. intros m [->|[]%elem_of_nil]%elem_of_cons. lia.
  - destruct (Z.ltb_spec (memory_requirement x) (memory_requirement best)) as [Hlt|Hge].
    + destruct (IH x) as [Hin Hmin]. split.
      * by right.
      * intros m [->|Hm]%elem_of_cons; [|by apply Hmin].
        specialize (Hmin x (list_elem_of_here _ _)). lia.
    + destruct (IH best) as [Hin Hmin]. split.
      * apply elem_of_cons in Hin as [->|Hin]; [left | right; by right].
      * intros m [->|[->|Hm]%elem_of_cons]%elem_of_cons.
        -- apply Hmin. left.
        -- specialize (Hmin best (list_elem_of_here _ _)). lia.
        -- apply Hmin. by right.
Qed.


Lemma elem_of_candidates c t m :
  m ∈ candidates c t ↔ (t ∈ task_types m ∧ is_available m = true) ∧ m ∈ values c.
Proof.
  unfold candidates. rewrite list_elem_of_filter. unfold suitable.
  rewrite andb_true_iff, bool_decide_eq_true. tauto.
Qed.

(** The selection of [route_task] on the calls whose probe yields a value.
    Whenever some model of the catalog supports the requested task type and
    is available, and the resource probe reports [available_memory],
    [route_task] does not raise: it returns the name and the dictionary of
    a candidate [model].  If some candidate fits in the available memory,
    [model] fits and is the first fitting element of the candidates sorted
    in ascending (priority, memory requirement) order, so its key is
    lexicographically minimal among the fitting candidates.  If no candidate
    fits, [model] has the least memory requirement of all candidates. *)
Lemma route_task_selects available_models probe task_type available_memory :
  candidates available_models task_type ≠ [] →
  get_available_memory probe = Ok available_memory →
  ∃ model,
    route_task available_models probe task_type = Ok (name model, to_dict model)
    ∧ model ∈ candidates available_models task_type
    ∧ ((∃ m, m ∈ candidates available_models task_type ∧ fits available_memory m) →
         fits available_memory model
         ∧ first_fitting available_memory
             (sort_by_key (candidates available_models task_type)) = Some model
         ∧ ascending (sort_by_key (candidates available_models task_type))
         ∧ ∀ m, m ∈ candidates available_models task_type →
                fits available_memory m → key_leP model m)
    ∧ ((∀ m, m ∈ candidates available_models task_type → ¬ fits available_memory m) →
         ∀ m, m ∈ candidates available_models task_type →
              memory_requirement model <= memory_requirement m).
Proof.
  intros Hne Hprobe. unfold route_task. fold (candidates available_models task_type).
  set (cs := candidates available_models task_type) in *.
  destruct cs as [|c0 cs'] eqn:Hcs; [done|]. rewrite <- Hcs. rewrite Hprobe.
  pose proof (sort_by_key_ascending cs) as Hasc.
  destruct (first_fitting available_memory (sort_by_key cs)) as [model|] eqn:Hff.
  - destruct (first_fitting_Some _ _ _ Hasc Hff) as (Hin & Hfit & Hmin).
    exists model. split_and!; [done | by apply elem_of_sort_by_key | |].
    + intros _. split_and!; [done | done | done |].
      intros m Hm Hfm. apply Hmin; [by apply elem_of_sort_by_key | done].
    + intros Hnone. exfalso. eapply Hnone; [|exact Hfit].
      by apply elem_of_sort_by_key.
  - pose proof (proj1 (first_fitting_None _ _) Hff) as Hnone.
    destruct (sort_by_key cs) as [|m0 rest] eqn:Hsort.
    { exfalso. pose proof (sort_by_key_perm cs) as Hp. rewrite Hsort, Hcs in Hp.
      by apply Permutation_nil_cons in Hp. }
    destruct (min_by_memory_spec m0 rest) as [Hin Hmin].
    exists (min_by_memory m0 rest). rewrite <- Hsort in Hin, Hmin.
    split_and!; [done | by apply elem_of_sort_by_key | |].
    + intros (m & Hm & Hfm). exfalso.
      apply elem_of_sort_by_key in Hm. rewrite Hsort in Hm.
      specialize (Hnone m Hm). unfold fits in Hfm. lia.
    + intros _ m Hm. apply Hmin. by apply elem_of_sort_by_key.
Qed.

(** The shipped catalog, every model installed, with 4500 MB reported by
    [nvidia-smi]. *)
Lemma route_task_selects_shipped :
  ∃ model,
    route_task _initialize_models (mkProbe (TorchRaises ImportError) (SmiOutput (Some 4500)))
      TEXT_GENERATION = Ok (name model, to_dict model)
    ∧ name model = "mistral:latest".
Proof.
  destruct (route_task_selects _initialize_models
              (mkProbe (TorchRaises ImportError) (SmiOutput (Some 4500)))
              TEXT_GENERATION 4500) as (model & Hr & _).
  - discriminate.
  - reflexivity.
  - exists model. split; [exact Hr|].
    destruct model. vm_compute in Hr. simpl. congruence.
Qed.

(** C1.  The claim fails on the code where the memory probe itself fails.
    On the shipped catalog with every model available, on a machine where
    [import torch] raises [ImportError] and the [nvidia-smi] executable is
    absent, text generation has candidates, and with the 6 GB that
    [get_available_memory] documents as its default ("Default to 6GB if
    can't determine") [llama3:8b] would be returned.  But the
    [FileNotFoundError] of [subprocess.run] is not listed in
    [except (subprocess.CalledProcessError, ValueError)]: it leaves
    [get_available_memory] and then [route_task], which returns no model. *)
Theorem route_task_probe_failure_escapes :
  candidates _initialize_models TEXT_GENERATION ≠ []
  ∧ get_available_memory (mkProbe (TorchRaises ImportError) (SmiRaises FileNotFoundError))
    = Raise FileNotFoundError
  ∧ route_task _initialize_models
      (mkProbe (TorchRaises ImportError) (SmiRaises FileNotFoundError)) TEXT_GENERATION
    = Raise (ProbeFailed FileNotFoundError)
  ∧ (∀ r, route_task _initialize_models
            (mkProbe (TorchRaises ImportError) (SmiRaises FileNotFoundError)) TEXT_GENERATION
          ≠ Ok r)
  ∧ fst <$> (match route_task _initialize_models
                     (mkProbe (TorchRaises ImportError) (SmiRaises CalledProcessError))
                     TEXT_GENERATION with Ok r => Some r | Raise _ => None end)
    = Some "llama3:8b".
Proof.
  split_and!; [discriminate | reflexivity | reflexivity | | reflexivity].
  intros r. discriminate.
Qed.

(** C7.  When no model of the catalog both supports the requested task type
    and is available, [route_task] raises the "No suitable models available"
    [ValueError] and returns no model, whatever the resource probe says. *)
Theorem route_task_no_suitable_model available_models probe task_type :
  candidates available_models task_type = [] →
  route_task available_models probe task_type
  = Raise (ValueError_NoSuitableModels task_type).
Proof.
  intros Hnil. unfold route_task. fold (candidates available_models task_type).
  by rewrite Hnil.
Qed.

(** Image analysis when the only vision model is not installed. *)
Lemma route_task_no_suitable_model_witness :
  route_task
    [("llava:latest", mkAIModel "llava:latest" [IMAGE_ANALYSIS] 4 4700 false);
     ("gemma:2b", mkAIModel "gemma:2b" [TEXT_GENERATION; GENERAL_QA] 6 1700 true)]
    (mkProbe TorchNoCuda (SmiRaises CalledProcessError)) IMAGE_ANALYSIS
  = Raise (ValueError_NoSuitableModels IMAGE_ANALYSIS).
Proof.
  apply route_task_no_suitable_model. reflexivity.
Defined.

(** Degraded selection on the shipped catalog: with 1 GB nothing fits and
    the smallest text model is returned. *)
Example route_task_degraded :
  fst <$> (match route_task _initialize_models
                   (mkProbe (TorchCuda (1024 * 1024 * 1024)) (SmiRaises FileNotFoundError))
                   TEXT_GENERATION with Ok r => Some r | Raise _ => None end)
  = Some "gemma:2b".
Proof. reflexivity. Qed.

End ai_task_router_properties.

(* ===================================================================== *)
(** * Properties of the keyword router                                     *)
(* ===================================================================== *)

Section ai_task_router_temp_properties.
Import ai_task_router_temp.

Lemma append_String c (a b : string) :
  (String c a +:+ b)%string = String c (a +:+ b)%string.
Proof. reflexivity. Qed.

Lemma append_empty_l (b : string) : (EmptyString +:+ b)%string = b.
Proof. reflexivity. Qed.

Lemma prefix_true_iff (a b : string) :
  String.prefix a b = true ↔ ∃ post, b = (a +:+ post)%string.
Proof.
  revert b. induction a as [|c a IH]; intros [|d b]; simpl.
  - split; [|done]. intros _. by exists EmptyString.
  - split; [|done]. intros _. by exists (String d b).
  - split; [done|]. intros [post Hp]. by rewrite append_String in Hp.
  - destruct (Ascii.ascii_dec c d) as [->|Hne].
    + rewrite IH. split; intros [post Hp]; exists post.
      * by rewrite append_String, Hp.
      * rewrite append_String in Hp. congruence.
    + split; [done|]. intros [post Hp]. rewrite append_String in Hp. congruence.
Qed.

(** [str_in] is the substring relation. *)
Lemma str_in_true_iff (needle haystack : string) :
  str_in needle haystack = true
  ↔ ∃ pre post, haystack = (pre +:+ needle +:+ post)%string.
Proof.
  induction haystack as [|c h IH].
  - change (str_in needle EmptyString) with (String.prefix needle EmptyString || false).
    rewrite orb_false_r, prefix_true_iff. split.
    + intros [post ->]. by exists EmptyString, post.
    + intros (pre & post & Hp). destruct pre as [|d pre].
      * by exists post.
      * by rewrite append_String in Hp.
  - change (str_in needle (String c h))
      with (String.prefix needle (String c h) || str_in needle h).
    rewrite orb_true_iff, prefix_true_iff, IH. split.
    + intros [[post Hp]|(pre & post & Hp)].
      * by exists EmptyString, post.
      * exists (String c pre), post. by rewrite append_String, Hp.
    + intros (pre & post & Hp). destruct pre as [|d pre].
      * left. by exists post.
      * right. exists pre, post. rewrite append_String in Hp. congruence.
Qed.

Variable lower : string → string.

Lemma scan_keywords_true prompt keywords :
  scan_keywords lower (lower prompt) keywords = true
  ↔ ∃ keyword, keyword ∈ keywords ∧ keyword_matches lower prompt keyword.
Proof.
  unfold keyword_matches. induction keywords as [|k ks IH]; simpl.
  - split; [done|]. by intros (k & Hk%elem_of_nil & _).
  - destruct (str_in (lower k) (lower prompt)) eqn:Hk.
    + split; [|done]. intros _. exists k. split; [left|done].
    + rewrite IH. split.
      * intros (k' & Hin & Hm). exists k'. split; [by right|done].
      * intros (k' & [->|Hin]%elem_of_cons & Hm); [congruence|eauto].
Qed.

Lemma scan_keywords_task_matches prompt task_config :
  scan_keywords lower (lower prompt) (default [] (routing_keywords task_config)) = true
  ↔ task_matches lower prompt task_config.
Proof. apply scan_keywords_true. Qed.

Lemma scan_tasks_first prompt pre task_name task_config post :
  (∀ n c, (n, c) ∈ pre → ¬ task_matches lower prompt c) →
  task_matches lower prompt task_config →
  scan_tasks lower (lower prompt) (pre ++ (task_name, task_config) :: post)
  = Some (task_name, task_config).
Proof.
  intros Hpre Hm. induction pre as [|[n c] pre IH]; simpl.
  - apply scan_keywords_task_matches in Hm. by rewrite Hm.
  - destruct (scan_keywords lower (lower prompt) (default [] (routing_keywords c))) eqn:Hc.
    + exfalso. apply (Hpre n c); [left|]. by apply scan_keywords_task_matches.
    + apply IH. intros n' c' Hin. apply (Hpre n' c'). by right.
Qed.

Lemma scan_tasks_None prompt ts :
  scan_tasks lower (lower prompt) ts = None
  ↔ ∀ n c, (n, c) ∈ ts → ¬ task_matches lower prompt c.
Proof.
  induction ts as [|[n c] ts IH]; simpl.
  - split; [|done]. intros _ n c Hin. by apply elem_of_nil in Hin.
  - destruct (scan_keywords lower (lower prompt) (default [] (routing_keywords c))) eqn:Hc.
    + split; [done|]. intros H. exfalso. apply (H n c); [left|].
      by apply scan_keywords_task_matches.
    + rewrite IH. split.
      * intros H n' c' [[= -> ->]|Hin]%elem_of_cons; [|eauto].
        rewrite <- scan_keywords_task_matches. congruence.
      * intros H n' c' Hin. apply (H n' c'). by right.
Qed.

(** C5.  Keyword routing is decided by declaration order alone: if the tasks
    are [pre ++ (task_name, task_config) :: post], no task of [pre] has a
    keyword whose lowered form occurs in the lowered prompt and
    [task_config] has one, then the scan stops at [task_name] and
    [route_task] returns [task_config], whatever the later tasks [post] and
    their keywords are, whichever keyword matched and wherever in the
    prompt. *)
Theorem route_task_first_declared_wins config prompt pre task_name task_config post :
  tasks config = pre ++ (task_name, task_config) :: post →
  (∀ n c, (n, c) ∈ pre → ¬ task_matches lower prompt c) →
  task_matches lower prompt task_config →
  scan_tasks lower (lower prompt) (tasks config) = Some (task_name, task_config)
  ∧ route_task lower config prompt = task_config.
Proof.
  intros Hts Hpre Hm. unfold route_task. rewrite Hts.
  by rewrite (scan_tasks_first _ _ _ _ _ Hpre Hm).
Qed.

(** Of two matching tasks the one declared later is never selected. *)
Corollary route_task_later_task_loses config prompt pre n1 c1 mid n2 c2 post :
  tasks config = pre ++ (n1, c1) :: mid ++ (n2, c2) :: post →
  NoDup (tasks config).*1 →
  task_matches lower prompt c1 →
  task_matches lower prompt c2 →
  ∃ n c, scan_tasks lower (lower prompt) (tasks config) = Some (n, c) ∧ n ≠ n2.
Proof.
  intros Hts Hnd Hm1 Hm2. rewrite Hts in *. clear Hts.
  induction pre as [|[n c] pre IH]; simpl in *.
  - apply scan_keywords_task_matches in Hm1 as ->.
    exists n1, c1. split; [done|]. intros ->.
    apply NoDup_cons in Hnd as [Hnot _]. apply Hnot.
    rewrite fmap_app, fmap_cons. simpl. apply elem_of_app. right. left.
  - destruct (scan_keywords lower (lower prompt) (default [] (routing_keywords c))).
    + exists n, c. split; [done|]. intros ->.
      apply NoDup_cons in Hnd as [Hnot _]. apply Hnot.
      rewrite fmap_app, fmap_cons, fmap_app, fmap_cons. simpl.
      apply elem_of_app. right. right. apply elem_of_app. right. left.
    + apply IH. by apply NoDup_cons in Hnd as [_ ?].
Qed.

(** C6, as the code has it.  When no task has a matching keyword,
    [route_task] looks the default task name up ([default_task], or
    "general_chat" when the configuration names none): if that task is
    declared its config is returned, and if it is not declared the empty
    dict is returned; no error is raised in either case. *)
Theorem route_task_default config prompt :
  (∀ n c, (n, c) ∈ tasks config → ¬ task_matches lower prompt c) →
  let default_task_name := default "general_chat" (default_task config) in
  (∀ c, dict_get default_task_name (tasks config) = Some c →
        route_task lower config prompt = c)
  ∧ (dict_get default_task_name (tasks config) = None →
        route_task lower config prompt = empty_config).
Proof.
  intros Hno%scan_tasks_None. unfold route_task. rewrite Hno. simpl.
  split; [intros c ->|intros ->]; done.
Qed.

End ai_task_router_temp_properties.

Section ai_task_router_temp_examples.
Import ai_task_router_temp scenarios.

Lemma route_task_first_declared_wins_witness :
  route_task str_lower overlapping_config "Please ANALYZE THIS CODE for me"
  = mkTaskConfig (Some ["code"; "Analyze"]) (Some "ollama/codellama") None None.
Proof.
  refine (proj2 (route_task_first_declared_wins str_lower overlapping_config
            "Please ANALYZE THIS CODE for me" [] "code_analysis" _ _ eq_refl _ _)).
  - intros n c Hin. by apply elem_of_nil in Hin.
  - exists "code". split; [left|reflexivity].
Defined.

(** No error is raised and nothing is reported: the caller gets [{}]. *)
Lemma route_task_undefined_default_returns_empty :
  scan_tasks str_lower (str_lower "Hello there!") (tasks no_default_config) = None
  ∧ dict_get (default "general_chat" (default_task no_default_config))
      (tasks no_default_config) = None
  ∧ route_task str_lower no_default_config "Hello there!" = empty_config.
Proof. split_and!; reflexivity. Qed.

Lemma route_task_default_witness :
  route_task str_lower overlapping_config "Hello there!"
  = mkTaskConfig None (Some "ollama/llama3") (Some ["ollama/mistral"]) None
  ∧ route_task str_lower no_default_config "Hello there!" = empty_config.
Proof.
  split.
  - refine (proj1 (route_task_default str_lower overlapping_config "Hello there!" _) _ eq_refl).
    apply scan_tasks_None. reflexivity.
  - refine (proj2 (route_task_default str_lower no_default_config "Hello there!" _) eq_refl).
    apply scan_tasks_None. reflexivity.
Defined.

End ai_task_router_temp_examples.

(* ===================================================================== *)
(** * Properties of the metrics store                                      *)
(* ===================================================================== *)

Section metrics_properties.
Import fallback_ai_manager.

Lemma update_metrics_dict_lookup mm model_name success duration now :
  update_metrics_dict mm model_name success duration now !! model_name
  = Some (mkMetrics
            (total_attempts (default zero_metrics (mm !! model_name)) + 1)
            (if success
             then successful_attempts (default zero_metrics (mm !! model_name)) + 1
             else successful_attempts (default zero_metrics (mm !! model_name)))
            (total_duration (default zero_metrics (mm !! model_name)) + duration)%Q
            now).
Proof. unfold update_metrics_dict. by rewrite lookup_insert_eq. Qed.

Lemma update_metrics_dict_lookup_ne mm model_name other success duration now :
  model_name ≠ other →
  update_metrics_dict mm model_name success duration now !! other = mm !! other.
Proof. intros Hne. unfold update_metrics_dict. by rewrite lookup_insert_ne. Qed.

(** The general case of the success rate: the exact quotient. *)
Lemma get_model_success_rate_tracked mm model_name metrics :
  mm !! model_name = Some metrics →
  total_attempts metrics ≠ 0 →
  get_model_success_rate mm model_name
  = (inject_Z (successful_attempts metrics) / inject_Z (total_attempts metrics))%Q.
Proof.
  intros Hm Hne. unfold get_model_success_rate. rewrite Hm.
  by destruct (decide (total_attempts metrics = 0)).
Qed.

(** C8.  The success rate of a model without recorded attempts (not in the
    metrics dict, or in it with [total_attempts] 0) is exactly 1; the
    success rate of a model whose entry records 3 attempts of which 1
    succeeded is 1/3. *)
Theorem get_model_success_rate_spec (mm : gmap string ModelMetrics) model_name :
  ((mm !! model_name = None
    ∨ ∃ metrics, mm !! model_name = Some metrics ∧ total_attempts metrics = 0) →
   get_model_success_rate mm model_name = 1%Q)
  ∧ (∀ metrics, mm !! model_name = Some metrics →
       total_attempts metrics = 3 → successful_attempts metrics = 1 →
       get_model_success_rate mm model_name = (1 # 3)%Q).
Proof.
  unfold get_model_success_rate. split.
  - intros [->|(metrics & -> & Hz)]; [done|].
    by destruct (decide (total_attempts metrics = 0)).
  - intros metrics -> Ht Hs. rewrite Ht, Hs. reflexivity.
Qed.

(** Three recorded attempts, the second of which succeeded, on a fresh
    store; an untracked model beside it. *)
Lemma get_model_success_rate_spec_witness :
  let mm :=
    update_metrics_dict
      (update_metrics_dict
         (update_metrics_dict ∅ "ollama/llama3" false (3 # 2) 10)
         "ollama/llama3" true (1 # 2) 20)
      "ollama/llama3" false (2 # 1) 30 in
  get_model_success_rate mm "openai/gpt-4" = 1%Q
  ∧ get_model_success_rate mm "ollama/llama3" = (1 # 3)%Q.
Proof.
  intros mm. split.
  - apply (proj1 (get_model_success_rate_spec mm "openai/gpt-4")).
    left. reflexivity.
  - eapply (proj2 (get_model_success_rate_spec mm "ollama/llama3"));
      [ unfold mm; apply update_metrics_dict_lookup | vm_compute; reflexivity
      | vm_compute; reflexivity ].
Defined.

(** ** System health *)

Lemma status_of_healthy r : status_of r = healthy ↔ (8 # 10 < r)%Q.
Proof.
  unfold status_of. destruct (Qlt_le_dec (8 # 10) r) as [H|H]; [done|].
  split.
  - by destruct (Qlt_le_dec (5 # 10) r).
  - intros H'. exfalso. by apply (Qle_not_lt _ _ H).
Qed.

Lemma status_of_degraded r :
  status_of r = degraded ↔ (r <= 8 # 10)%Q ∧ (5 # 10 < r)%Q.
Proof.
  unfold status_of. destruct (Qlt_le_dec (8 # 10) r) as [H|H].
  - split; [done|]. intros [H' _]. exfalso. by apply (Qle_not_lt _ _ H').
  - destruct (Qlt_le_dec (5 # 10) r) as [H5|H5]; [done|].
    split; [done|]. intros [_ H']. exfalso. by apply (Qle_not_lt _ _ H5).
Qed.

Lemma status_of_unhealthy r : status_of r = unhealthy ↔ (r <= 5 # 10)%Q.
Proof.
  unfold status_of. destruct (Qlt_le_dec (8 # 10) r) as [H|H].
  - split; [done|]. intros H'. exfalso.
    apply (Qle_not_lt _ _ H'). eapply Qlt_trans; [|exact H]. reflexivity.
  - destruct (Qlt_le_dec (5 # 10) r) as [H5|H5]; [|done].
    split; [done|]. intros H'. exfalso. by apply (Qle_not_lt _ _ H').
Qed.

Local Arguments health_step : simpl never.

Lemma foldl_health_step_timestamp mm l h :
  h_timestamp (foldl (health_step mm) h l) = h_timestamp h.
Proof.
  revert h. induction l as [|[k v] l IH]; intros h; simpl; [done|].
  by rewrite IH.
Qed.

Lemma foldl_health_step_models mm l h k :
  NoDup l.*1 →
  (∀ v, (k, v) ∈ l →
        models (foldl (health_step mm) h l) !! k = Some (health_entry mm k v))
  ∧ (k ∉ l.*1 → models (foldl (health_step mm) h l) !! k = models h !! k).
Proof.
  revert h. induction l as [|[k0 v0] l IH]; intros h Hnd.
  - split; [|done]. intros v Hv. by apply elem_of_nil in Hv.
  - rewrite fmap_cons in Hnd. apply NoDup_cons in Hnd as [Hk0 Hnd]. simpl in Hk0.
    destruct (IH (health_step mm h (k0, v0)) Hnd) as [IH1 IH2]. simpl. split.
    + intros v [[= -> ->]|Hv]%elem_of_cons; [|by apply IH1].
      rewrite IH2 by done. unfold health_step. simpl. by rewrite lookup_insert_eq.
    + intros Hk. apply not_elem_of_cons in Hk as [Hne Hk].
      rewrite IH2 by done. unfold health_step. simpl. by rewrite lookup_insert_ne.
Qed.

Lemma foldl_health_step_overall mm l h :
  (Exists (non_healthy mm) l →
     overall_health (foldl (health_step mm) h l) = degraded)
  ∧ (¬ Exists (non_healthy mm) l →
     overall_health (foldl (health_step mm) h l) = overall_health h).
Proof.
  revert h. induction l as [|[k v] l IH]; intros h.
  - split; [|done]. intros H. by apply Exists_nil in H.
  - destruct (IH (health_step mm h (k, v))) as [IH1 IH2].
    change (foldl (health_step mm) h ((k, v) :: l))
      with (foldl (health_step mm) (health_step mm h (k, v)) l).
    split.
    + intros [Hk|Hl]%Exists_cons; [|by apply IH1].
      destruct (decide (Exists (non_healthy mm) l)) as [Hl|Hl]; [by apply IH1|].
      rewrite IH2 by done. unfold health_step. simpl in *. by rewrite decide_True.
    + intros Hn. rewrite IH2.
      * unfold health_step. simpl. rewrite decide_False; [done|].
        intros Hk. apply Hn. by left.
      * intros Hl. apply Hn. by right.
Qed.

Lemma get_system_health_fold env w :
  (get_system_health env w).1
  = foldl (health_step (model_metrics w))
      (mkSystemHealth ∅ healthy (clock env (ticks w)))
      (map_to_list (model_metrics w)).
Proof. reflexivity. Qed.

Lemma get_system_health_models env w model_name :
  models (get_system_health env w).1 !! model_name
  = health_entry (model_metrics w) model_name <$> model_metrics w !! model_name.
Proof.
  rewrite get_system_health_fold.
  set (mm := model_metrics w).
  pose proof (NoDup_fst_map_to_list mm) as Hnd.
  destruct (foldl_health_step_models mm (map_to_list mm)
              (mkSystemHealth ∅ healthy (clock env (ticks w))) model_name Hnd)
    as [H1 H2].
  destruct (mm !! model_name) as [metrics|] eqn:Hm; simpl.
  - apply H1. by apply elem_of_map_to_list.
  - rewrite H2; [done|].
    intros ([k v] & -> & Hin%elem_of_map_to_list)%list_elem_of_fmap.
    simpl in Hm. congruence.
Qed.

Lemma get_system_health_overall env w :
  overall_health (get_system_health env w).1
  = if decide (Exists (non_healthy (model_metrics w)) (map_to_list (model_metrics w)))
    then degraded else healthy.
Proof.
  rewrite get_system_health_fold.
  set (mm := model_metrics w).
  destruct (foldl_health_step_overall mm (map_to_list mm)
              (mkSystemHealth ∅ healthy (clock env (ticks w)))) as [H1 H2].
  destruct (decide (Exists (non_healthy mm) (map_to_list mm))) as [He|He].
  - by apply H1.
  - by rewrite H2.
Qed.

(** C9.  [get_system_health] gives every tracked model an entry whose
    success rate is that of [get_model_success_rate] and whose status is
    [healthy] iff the rate is above 0.8, [degraded] iff it is at most 0.8
    and above 0.5, and [unhealthy] iff it is at most 0.5; untracked models
    get no entry.  The overall health is [degraded] iff some entry is not
    [healthy], [healthy] iff every entry is, and is never [unhealthy]. *)
Theorem get_system_health_spec env w :
  let health := (get_system_health env w).1 in
  (∀ model_name metrics, model_metrics w !! model_name = Some metrics →
     ∃ entry, models health !! model_name = Some entry
       ∧ h_success_rate entry = get_model_success_rate (model_metrics w) model_name
       ∧ (status entry = healthy ↔ (8 # 10 < h_success_rate entry)%Q)
       ∧ (status entry = degraded
          ↔ (h_success_rate entry <= 8 # 10)%Q ∧ (5 # 10 < h_success_rate entry)%Q)
       ∧ (status entry = unhealthy ↔ (h_success_rate entry <= 5 # 10)%Q))
  ∧ (∀ model_name, model_metrics w !! model_name = None →
       models health !! model_name = None)
  ∧ (overall_health health = degraded
     ↔ ∃ model_name entry,
         models health !! model_name = Some entry ∧ status entry ≠ healthy)
  ∧ (overall_health health = healthy
     ↔ ∀ model_name entry,
         models health !! model_name = Some entry → status entry = healthy)
  ∧ overall_health health ≠ unhealthy.
Proof.
  intros health.
  assert (Hex : Exists (non_healthy (model_metrics w)) (map_to_list (model_metrics w))
                ↔ ∃ model_name entry,
                    models health !! model_name = Some entry ∧ status entry ≠ healthy).
  { rewrite Exists_exists. split.
    - intros ([k v] & Hin%elem_of_map_to_list & Hst). simpl in Hst.
      exists k, (health_entry (model_metrics w) k v). split; [|done].
      unfold health. by rewrite get_system_health_models, Hin.
    - intros (k & entry & Hk & Hst). unfold health in Hk.
      rewrite get_system_health_models in Hk.
      destruct (model_metrics w !! k) as [v|] eqn:Hv; [|done].
      injection Hk as <-. exists (k, v). split; [by apply elem_of_map_to_list|done]. }
  pose proof (get_system_health_overall env w) as Hov. fold health in Hov.
  split_and!.
  - intros model_name metrics Hm.
    exists (health_entry (model_metrics w) model_name metrics).
    unfold health. rewrite get_system_health_models, Hm. simpl.
    split_and!; [done | done | apply status_of_healthy | apply status_of_degraded
                | apply status_of_unhealthy].
  - intros model_name Hm. unfold health. by rewrite get_system_health_models, Hm.
  - rewrite <- Hex, Hov. by case_decide.
  - rewrite Hov. case_decide as Hd.
    + split; [done|]. intros Hall. apply Hex in Hd as (k & entry & Hk & Hst).
      exfalso. apply Hst. by eapply Hall.
    + split; [|done]. intros _ k entry Hk.
      destruct (decide (status entry = healthy)) as [|Hst]; [done|].
      exfalso. apply Hd, Hex. eauto.
  - rewrite Hov. by case_decide.
Qed.

End metrics_properties.

(* ===================================================================== *)
(** * Properties of the fallback executor                                  *)
(* ===================================================================== *)

Section execute_with_fallback_properties.
Import fallback_ai_manager.

Variable env : Env.

Lemma is_failure_Raises e : is_failure (Raises e).
Proof. by intros r. Qed.

Lemma is_failure_TimesOut : is_failure TimesOut.
Proof. by intros r. Qed.

(** One failed attempt, then the rest of the retries. *)
Lemma retries_cons_failure mgr task_type chain model_idx model_name start_time
    retry retries attempt err w :
  is_failure (respond env (calls w) (TaskCall model_name)) →
  ModelAttempt.success attempt = false →
  execute_with_fallback_retries env mgr task_type chain model_idx model_name
    start_time (retry :: retries) attempt err w
  = let o := respond env (calls w) (TaskCall model_name) in
    execute_with_fallback_retries env mgr task_type chain model_idx model_name
      start_time retries
      (failed_attempt env mgr model_name start_time retry o attempt w)
      (Some (failure_error mgr model_name o))
      (failed_attempt_world env mgr task_type chain model_idx model_name
         start_time retry o w).
Proof.
  intros Hfail Hs. cbn [execute_with_fallback_retries].
  unfold bind at 1, await at 1.
  destruct (respond env (calls w) (TaskCall model_name)) as [r|e|] eqn:Ho.
  - by destruct (Hfail r).
  - destruct attempt. simpl in Hs. subst. reflexivity.
  - destruct attempt. simpl in Hs. subst. reflexivity.
Qed.

(** A successful attempt ends the loop. *)
Lemma retries_cons_success mgr task_type chain model_idx model_name start_time
    retry retries attempt err w result :
  respond env (calls w) (TaskCall model_name) = Returns result →
  execute_with_fallback_retries env mgr task_type chain model_idx model_name
    start_time (retry :: retries) attempt err w
  = ((Some result, successful_attempt env start_time retry result attempt w, err),
     successful_attempt_world env task_type chain model_idx model_name
       start_time retry result w).
Proof.
  intros Ho. cbn [execute_with_fallback_retries].
  unfold bind at 1, await at 1. rewrite Ho. reflexivity.
Qed.

Lemma outcome_cases (o : Outcome) : (∃ result, o = Returns result) ∨ is_failure o.
Proof. destruct o; [left; eauto | right; by intros r | right; by intros r]. Qed.

Lemma returned_failure o : is_failure o → returned o = false.
Proof. destruct o as [r| |]; [intros H; by destruct (H r) | done | done]. Qed.

(** ** The metrics counters under [update_metrics_dict] *)

Lemma attempts_of_update mm model_name success duration now m :
  attempts_of (update_metrics_dict mm model_name success duration now) m
  = attempts_of mm m + (if decide (m = model_name) then 1 else 0).
Proof.
  unfold attempts_of. destruct (decide (m = model_name)) as [->|Hne].
  - rewrite update_metrics_dict_lookup. simpl.
    destruct (mm !! model_name); simpl; lia.
  - rewrite update_metrics_dict_lookup_ne by done. lia.
Qed.

Lemma successes_of_update mm model_name success duration now m :
  successes_of (update_metrics_dict mm model_name success duration now) m
  = successes_of mm m
    + (if decide (m = model_name) then (if success then 1 else 0) else 0).
Proof.
  unfold successes_of. destruct (decide (m = model_name)) as [->|Hne].
  - rewrite update_metrics_dict_lookup. simpl.
    destruct (mm !! model_name), success; simpl; lia.
  - rewrite update_metrics_dict_lookup_ne by done. lia.
Qed.

Lemma attempts_recorded_app cs1 cs2 m :
  attempts_recorded (cs1 ++ cs2) m = attempts_recorded cs1 m + attempts_recorded cs2 m.
Proof.
  induction cs1 as [|[req o] cs1 IH]; simpl; [done|]. rewrite IH. lia.
Qed.

Lemma successes_recorded_app cs1 cs2 m :
  successes_recorded (cs1 ++ cs2) m = successes_recorded cs1 m + successes_recorded cs2 m.
Proof.
  induction cs1 as [|[req o] cs1 IH]; simpl; [done|]. rewrite IH. lia.
Qed.

Lemma successes_recorded_failed cs m :
  Forall failed_call cs → successes_recorded cs m = 0.
Proof.
  induction 1 as [|[req o] cs Ho _ IH]; simpl; [done|].
  unfold failed_call in Ho. simpl in Ho. unfold successes_added.
  rewrite (returned_failure _ Ho), IH. by case_decide.
Qed.

Lemma attempts_recorded_failed cs m :
  Forall failed_call cs →
  attempts_recorded cs m = Z.of_nat (length (filter (λ c, c.1 = TaskCall m) cs)).
Proof.
  induction 1 as [|[req o] cs Ho _ IH]; simpl; [done|].
  unfold failed_call in Ho. simpl in Ho. unfold attempts_added.
  rewrite (returned_failure _ Ho), IH.
  rewrite filter_cons. simpl. case_decide; simpl; lia.
Qed.

(** ** Composition of traces *)

Lemma trace_effect_nil w : trace_effect w w [].
Proof.
  split_and!; [by rewrite app_nil_r | intros m; simpl; lia | intros m; simpl; lia].
Qed.

Lemma trace_effect_app w1 w2 w3 cs1 cs2 :
  trace_effect w1 w2 cs1 → trace_effect w2 w3 cs2 → trace_effect w1 w3 (cs1 ++ cs2).
Proof.
  intros (Hc1 & Ha1 & Hs1) (Hc2 & Ha2 & Hs2). split_and!.
  - by rewrite Hc2, Hc1, app_assoc.
  - intros m. rewrite Ha2, Ha1, attempts_recorded_app. lia.
  - intros m. rewrite Hs2, Hs1, successes_recorded_app. lia.
Qed.

(** Reading the clock leaves everything else alone. *)
Lemma trace_effect_time_time w : trace_effect w (time_time env w).2 [].
Proof.
  split_and!; simpl; [by rewrite app_nil_r | intros m; lia | intros m; lia].
Qed.

Lemma trace_effect_failed_attempt mgr task_type chain model_idx model_name
    start_time retry o w :
  is_failure o →
  trace_effect w
    (failed_attempt_world env mgr task_type chain model_idx model_name start_time retry o w)
    [(TaskCall model_name, o)].
Proof.
  intros Hf. split_and!; simpl; [done | |]; intros m.
  - rewrite attempts_of_update. unfold attempts_added.
    rewrite (returned_failure _ Hf).
    repeat case_decide; simplify_eq; lia.
  - rewrite successes_of_update. unfold successes_added.
    rewrite (returned_failure _ Hf).
    repeat case_decide; simplify_eq; lia.
Qed.

Lemma trace_effect_successful_attempt task_type chain model_idx model_name
    start_time retry result w :
  trace_effect w
    (successful_attempt_world env task_type chain model_idx model_name start_time
       retry result w)
    [(TaskCall model_name, Returns result)].
Proof.
  split_and!; simpl; [done | |]; intros m.
  - rewrite !attempts_of_update. unfold attempts_added. simpl.
    repeat case_decide; simplify_eq; lia.
  - rewrite !successes_of_update. unfold successes_added. simpl.
    repeat case_decide; simplify_eq; lia.
Qed.

(** ** The retries of one model *)

Lemma retries_trace mgr task_type chain model_idx model_name start_time retries :
  ∀ attempt err w r attempt' err' w',
  ModelAttempt.success attempt = false →
  execute_with_fallback_retries env mgr task_type chain model_idx model_name
    start_time retries attempt err w = ((r, attempt', err'), w') →
  ∃ outs,
    trace_effect w w' ((λ o, (TaskCall model_name, o)) <$> outs)
    ∧ event_brief <$> performance_log w'
      = (event_brief <$> performance_log w)
        ++ attempt_briefs model_name model_idx retries outs
    ∧ (length outs ≤ length retries)%nat
    ∧ ModelAttempt.model_name attempt' = ModelAttempt.model_name attempt
    ∧ match r with
      | None =>
          Forall is_failure outs ∧ length outs = length retries
          ∧ ModelAttempt.success attempt' = false
      | Some result =>
          ∃ fails, outs = fails ++ [Returns result]
            ∧ Forall is_failure fails
            ∧ ModelAttempt.success attempt' = true
            ∧ ModelAttempt.response attempt' = Some result
            ∧ retries !! length fails = Some (ModelAttempt.retry_count attempt')
            ∧ respond env (calls w ++ ((λ o, (TaskCall model_name, o)) <$> fails))
                (TaskCall model_name) = Returns result
      end.
Proof.
  induction retries as [|retry retries IH]; intros attempt err w r attempt' err' w' Hs Hrun.
  - injection Hrun as <- <- <- <-. exists []. simpl.
    split_and!; [apply trace_effect_nil | by rewrite app_nil_r | done | done | done..].
  - destruct (outcome_cases (respond env (calls w) (TaskCall model_name)))
      as [[result Ho]|Hfail].
    + rewrite (retries_cons_success _ _ _ _ _ _ _ _ _ _ _ _ Ho) in Hrun.
      injection Hrun as <- <- <- <-. exists [Returns result].
      split_and!.
      * apply trace_effect_successful_attempt.
      * simpl. rewrite fmap_app. unfold attempt_briefs. by rewrite zip_with_nil_r.
      * simpl. lia.
      * by destruct attempt.
      * exists []. simpl. rewrite app_nil_r.
        split_and!; [done | done | by destruct attempt | by destruct attempt
                    | by destruct attempt | done].
    + rewrite (retries_cons_failure _ _ _ _ _ _ _ _ _ _ _ Hfail Hs) in Hrun.
      cbv zeta in Hrun.
      set (o := respond env (calls w) (TaskCall model_name)) in *.
      apply IH in Hrun as (outs & Htr & Hlog & Hlen & Hname & Hr);
        [|by destruct attempt].
      exists (o :: outs). split_and!.
      * change ((λ o0, (TaskCall model_name, o0)) <$> o :: outs)
          with ([(TaskCall model_name, o)] ++ ((λ o0, (TaskCall model_name, o0)) <$> outs)).
        eapply trace_effect_app; [|exact Htr].
        by apply trace_effect_failed_attempt.
      * rewrite Hlog. simpl. rewrite fmap_app, <- app_assoc. simpl.
        unfold attempt_briefs. simpl. by rewrite (returned_failure _ Hfail).
      * simpl. lia.
      * rewrite Hname. by destruct attempt.
      * destruct r as [result|].
        -- destruct Hr as (fails & -> & Hf & Hsucc & Hresp & Hretry & Hor).
           exists (o :: fails). split_and!; [done | by constructor | done..| |].
           ++ done.
           ++ simpl in Hor. by rewrite <- app_assoc in Hor.
        -- destruct Hr as (Hf & Hl & Hsucc).
           split_and!; [by constructor | simpl; lia | done].
Qed.

Lemma attempt_briefs_are_attempts model_name model_idx retries outs :
  Forall is_attempt_brief (attempt_briefs model_name model_idx retries outs).
Proof.
  unfold attempt_briefs. revert outs.
  induction retries as [|retry retries IH]; intros [|o outs]; simpl;
    constructor; [done | apply IH].
Qed.

(** ** The loop over the chain *)

Lemma chain_trace mgr task_type chain remaining :
  ∀ model_idx st w r st' w',
  execute_with_fallback_chain env mgr task_type chain model_idx remaining st w
  = ((r, st'), w') →
  ∃ cs bs,
    trace_effect w w' cs
    ∧ event_brief <$> performance_log w' = (event_brief <$> performance_log w) ++ bs
    ∧ Forall is_attempt_brief bs
    ∧ Forall (λ c, ∃ m, m ∈ remaining ∧ c.1 = TaskCall m) cs
    ∧ match r with
      | None =>
          Forall failed_call cs
          ∧ ∃ ds, fallback_event_chain st' = fallback_event_chain st ++ ds
              ∧ ModelAttempt.d_model_name <$> ds = remaining
              ∧ Forall (λ d, ModelAttempt.d_success d = false) ds
      | Some (result, attempt) =>
          ∃ fails, cs = fails ++ [(TaskCall (ModelAttempt.model_name attempt), Returns result)]
              ∧ Forall failed_call fails
              ∧ ModelAttempt.success attempt = true
              ∧ ModelAttempt.response attempt = Some result
              ∧ ModelAttempt.model_name attempt ∈ remaining
              ∧ respond env (calls w ++ fails)
                  (TaskCall (ModelAttempt.model_name attempt)) = Returns result
      end.
Proof.
  induction remaining as [|model_name remaining IH]; intros model_idx st w r st' w' Hrun.
  - injection Hrun as <- <- <-. exists [], []. rewrite app_nil_r.
    split_and!; [apply trace_effect_nil | done | done | done | done |].
    exists []. by rewrite app_nil_r.
  - cbn [execute_with_fallback_chain] in Hrun.
    unfold bind at 1 in Hrun. unfold time_time at 1 in Hrun.
    unfold bind at 1 in Hrun.
    set (w1 := mkWorld (model_metrics w) (performance_log w) (calls w) (S (ticks w)) (sleeps w)) in *.
    destruct (execute_with_fallback_retries env mgr task_type chain model_idx
                model_name (clock env (ticks w)) (range (max_retries mgr))
                (ModelAttempt.new model_name) (last_error st) w1)
      as [[[r0 attempt0] err0] w2] eqn:Hret.
    apply retries_trace in Hret as (outs & Htr & Hlog & _ & Hname & Hr0); [|done].
    assert (Htr1 : trace_effect w w2 ((λ o, (TaskCall model_name, o)) <$> outs)).
    { change ((λ o, (TaskCall model_name, o)) <$> outs)
        with ([] ++ ((λ o, (TaskCall model_name, o)) <$> outs)).
      eapply trace_effect_app; [apply (trace_effect_time_time w)|exact Htr]. }
    assert (Hhere : Forall (λ c : Request * Outcome,
                      ∃ m, m ∈ model_name :: remaining ∧ c.1 = TaskCall m)
                    ((λ o, (TaskCall model_name, o)) <$> outs)).
    { apply Forall_fmap, Forall_true. intros o. exists model_name. split; [left|done]. }
    simpl in Hname.
    destruct r0 as [result|].
    + injection Hrun as <- <- <-.
      destruct Hr0 as (fails & -> & Hf & Hsucc & Hresp & _ & Hor).
      eexists _, _. split_and!; [exact Htr1 | exact Hlog
        | apply attempt_briefs_are_attempts | exact Hhere |].
      exists ((λ o, (TaskCall model_name, o)) <$> fails).
      rewrite Hname. split_and!; [by rewrite fmap_app | | done | done | left | done].
      apply Forall_fmap. eapply Forall_impl; [exact Hf|]. by intros o Ho.
    + destruct Hr0 as (Hf & _ & Hsucc).
      apply IH in Hrun as (cs & bs & Htr2 & Hlog2 & Hbs & Hcs & Hr).
      exists (((λ o, (TaskCall model_name, o)) <$> outs) ++ cs),
             (attempt_briefs model_name model_idx (range (max_retries mgr)) outs ++ bs).
      assert (Hfo : Forall failed_call ((λ o, (TaskCall model_name, o)) <$> outs)).
      { apply Forall_fmap. eapply Forall_impl; [exact Hf|]. by intros o Ho. }
      split_and!.
      * eapply trace_effect_app; eauto.
      * rewrite Hlog2, Hlog. by rewrite app_assoc.
      * apply Forall_app. split; [apply attempt_briefs_are_attempts|done].
      * apply Forall_app. split; [done|].
        eapply Forall_impl; [exact Hcs|].
        intros c (m & Hm & Hc). exists m. split; [by right|done].
      * destruct r as [[result attempt]|].
        -- destruct Hr as (fails & -> & Hff & Hsu & Hre & Hin & Hor).
           exists (((λ o, (TaskCall model_name, o)) <$> outs) ++ fails).
           split_and!; [by rewrite app_assoc | by apply Forall_app | done | done
                       | by right |].
           destruct Htr1 as (Hc & _). rewrite Hc in Hor. by rewrite app_assoc.
        -- destruct Hr as (Hff & ds & Hds & Hnames & Hfalse). simpl in Hds.
           split; [by apply Forall_app|].
           exists (ModelAttempt.to_dict attempt0 :: ds).
           split_and!.
           ++ rewrite Hds. by rewrite <- app_assoc.
           ++ rewrite fmap_cons, Hnames. simpl. by rewrite Hname.
           ++ constructor; [done|done].
Qed.

(** ** The whole execution *)

(** The chain of a task type: its own chain, else the text chain; without a
    text chain the lookup raises [KeyError], whatever the task type. *)
Lemma get_fallback_chain_cases mgr task_type :
  (fallback_chains mgr !! "text" = None →
     get_fallback_chain mgr task_type = Raise KeyError_text)
  ∧ (∀ text_chain, fallback_chains mgr !! "text" = Some text_chain →
       get_fallback_chain mgr task_type
       = Ok (default text_chain (fallback_chains mgr !! task_type))).
Proof.
  unfold get_fallback_chain. split; [intros ->|intros text_chain ->]; done.
Qed.

(** C3.  When no call of the task function for a model of the chain ever
    returns (each raises or times out), [execute_with_fallback] returns
    [None] with an attempt whose [success] is false and whose [error] is
    the [RuntimeError] "All models in fallback chain failed"; what it appends
    to the performance log is a run of [model_attempt] events followed by
    exactly one [fallback_chain_exhausted] event, whose [attempts] list has
    one failed attempt record per model of the chain, in chain order. *)
Theorem execute_with_fallback_all_models_fail mgr task_type chain w :
  get_fallback_chain mgr task_type = Ok chain →
  (∀ m h, m ∈ chain → is_failure (respond env h (TaskCall m))) →
  ∃ w' bs attempts,
    execute_with_fallback env mgr task_type w = (Ok (None, exhausted_attempt), w')
    ∧ ModelAttempt.success exhausted_attempt = false
    ∧ ModelAttempt.error exhausted_attempt
      = Some (RuntimeError "All models in fallback chain failed")
    ∧ event_brief <$> performance_log w'
      = (event_brief <$> performance_log w) ++ bs ++ [exhausted_logged attempts]
    ∧ Forall is_attempt_brief bs
    ∧ attempts.*1 = chain
    ∧ Forall (λ a, a.2 = false) attempts.
Proof.
  intros Hc Hfail. unfold execute_with_fallback. rewrite Hc. unfold bind at 1.
  destruct (execute_with_fallback_chain env mgr task_type chain 0 chain
              (mkChainState None None []) w) as [[r st'] w1] eqn:Hrun.
  apply chain_trace in Hrun as (cs & bs & Htr & Hlog & Hbs & Hcs & Hr).
  destruct r as [[result attempt]|].
  - destruct Hr as (fails & _ & _ & _ & _ & Hin & Hor).
    exfalso. by apply (Hfail _ (calls w ++ fails) Hin result).
  - destruct Hr as (_ & ds & Hds & Hnames & Hfalse). simpl in Hds.
    eexists _, bs, ((λ d, (ModelAttempt.d_model_name d, ModelAttempt.d_success d)) <$> ds).
    split_and!; [reflexivity | done | done | | done | |].
    + simpl. rewrite fmap_app, Hlog, Hds. simpl. by rewrite <- app_assoc.
    + rewrite <- Hnames, <- list_fmap_compose. done.
    + apply Forall_fmap. eapply Forall_impl; [exact Hfalse|]. by intros d Hd.
Qed.

(** C10.  When [execute_with_fallback] returns a result, the call that
    returned it is the last call of the invocation and the only one that
    returned; for the model of the returned attempt, [successful_attempts]
    has grown by exactly 2, and [total_attempts] by 2 plus the number of
    failed calls made for that model before: the one successful call is
    counted twice. *)
Theorem execute_with_fallback_success_counted_twice mgr task_type w result attempt w' :
  execute_with_fallback env mgr task_type w = (Ok (Some result, attempt), w') →
  let model_name := ModelAttempt.model_name attempt in
  ∃ fails,
    calls w' = calls w ++ fails ++ [(TaskCall model_name, Returns result)]
    ∧ Forall failed_call fails
    ∧ successes_of (model_metrics w') model_name
      = successes_of (model_metrics w) model_name + 2
    ∧ attempts_of (model_metrics w') model_name
      = attempts_of (model_metrics w) model_name
        + Z.of_nat (length (filter (λ c, c.1 = TaskCall model_name) fails)) + 2.
Proof.
  intros Hrun model_name. unfold execute_with_fallback in Hrun.
  destruct (get_fallback_chain mgr task_type) as [chain|e]; [|done].
  unfold bind at 1 in Hrun.
  destruct (execute_with_fallback_chain env mgr task_type chain 0 chain
              (mkChainState None None []) w) as [[r st'] w1] eqn:Hchain.
  apply chain_trace in Hchain as (cs & bs & (Hcalls & Hatt & Hsucc) & _ & _ & _ & Hr).
  destruct r as [[result0 attempt0]|]; [|done].
  injection Hrun as -> -> ->.
  destruct Hr as (fails & -> & Hff & _ & _ & _ & _).
  exists fails. fold model_name in Hcalls, Hatt, Hsucc |- *.
  split_and!; [done | done | |].
  - rewrite Hsucc, successes_recorded_app, (successes_recorded_failed _ _ Hff).
    simpl. rewrite decide_True by done. unfold successes_added. simpl. lia.
  - rewrite Hatt, attempts_recorded_app, (attempts_recorded_failed _ _ Hff).
    simpl. rewrite decide_True by done. unfold attempts_added. simpl. lia.
Qed.

(** C2.  With [max_retries = 2] and a chain that starts with [model_a] and
    [model_b], where the task function never returns for [model_a] and
    always returns [result] for [model_b], [execute_with_fallback] returns
    [result] with an attempt record of [model_b] that is successful, holds
    the result and has retry index 0.  It makes exactly three calls, two
    failed ones for [model_a] and the successful one for [model_b], and
    nothing after it (no further retry, no later model of the chain); the
    log receives exactly two failed attempt records for [model_a] (retries 0
    and 1) and one successful attempt record for [model_b]. *)
Theorem execute_with_fallback_second_model_succeeds
    mgr task_type model_a model_b rest result w :
  get_fallback_chain mgr task_type = Ok (model_a :: model_b :: rest) →
  max_retries mgr = 2 →
  (∀ h, is_failure (respond env h (TaskCall model_a))) →
  (∀ h, respond env h (TaskCall model_b) = Returns result) →
  ∃ attempt w' o1 o2,
    execute_with_fallback env mgr task_type w = (Ok (Some result, attempt), w')
    ∧ ModelAttempt.model_name attempt = model_b
    ∧ ModelAttempt.success attempt = true
    ∧ ModelAttempt.response attempt = Some result
    ∧ ModelAttempt.retry_count attempt = 0%nat
    ∧ is_failure o1 ∧ is_failure o2
    ∧ calls w'
      = calls w ++ [(TaskCall model_a, o1); (TaskCall model_a, o2);
                    (TaskCall model_b, Returns result)]
    ∧ event_brief <$> performance_log w'
      = (event_brief <$> performance_log w)
        ++ [attempt_logged model_a false 0 0; attempt_logged model_a false 1 0;
            attempt_logged model_b true 0 1].
Proof.
  intros Hc Hmax Ha Hb. unfold execute_with_fallback. rewrite Hc.
  unfold bind at 1. cbn [execute_with_fallback_chain]. rewrite Hmax.
  change (range 2) with [0%nat; 1%nat].
  cbn [last_error last_model_used fallback_event_chain].
  unfold bind at 1. unfold time_time at 1. unfold bind at 1.
  set (w1 := mkWorld (model_metrics w) (performance_log w) (calls w) (S (ticks w)) (sleeps w)).
  destruct (execute_with_fallback_retries env mgr task_type
              (model_a :: model_b :: rest) 0 model_a (clock env (ticks w))
              [0%nat; 1%nat] (ModelAttempt.new model_a) None w1)
    as [[[r0 attempt0] err0] w2] eqn:Hret.
  apply retries_trace in Hret as (outs & (Hcalls & _) & Hlog & _ & _ & Hr0); [|done].
  destruct r0 as [result0|].
  { destruct Hr0 as (fails & _ & _ & _ & _ & _ & Hor).
    exfalso. exact (Ha _ result0 Hor). }
  destruct Hr0 as (Hf & Hlen & _).
  destruct outs as [|o1 [|o2 [|o3 outs]]]; try done.
  apply Forall_cons in Hf as [Hf1 Hf2]. apply Forall_cons in Hf2 as [Hf2 _].
  unfold bind at 1. unfold time_time at 1. cbv beta iota. unfold bind at 1.
  rewrite (retries_cons_success _ _ _ _ _ _ _ _ _ _ _ _ (Hb _)).
  eexists _, _, o1, o2. split_and!; [reflexivity | done | done | done | done | done | done | |].
  - simpl. rewrite Hcalls. simpl. by rewrite <- app_assoc.
  - simpl. rewrite fmap_app, Hlog. simpl.
    unfold attempt_briefs. simpl.
    rewrite (returned_failure _ Hf1), (returned_failure _ Hf2).
    by rewrite <- app_assoc.
Qed.

End execute_with_fallback_properties.

(* ===================================================================== *)
(** * Properties of [execute_task] and the provider adapters               *)
(* ===================================================================== *)

Section execute_task_properties.
Import fallback_ai_manager.

Variable env : Env.

(** An adapter whose key is missing raises before anything is sent: the
    world is unchanged. *)
Lemma call_client_missing_key mgr client key_name api_key model_name prompt w :
  required_key mgr client = Some (key_name, api_key) →
  truthy api_key = None →
  call_client env mgr client model_name prompt w
  = (Raises (ValueError (key_name +:+ " is not configured.")), w).
Proof.
  intros Hk Ht. destruct client; simpl in Hk; simplify_eq;
    unfold call_client, call_hosted; by rewrite Ht.
Qed.

(** The retry loop on such an adapter runs to the end of its budget: every
    attempt is recorded as a failed attempt, none sends a request. *)
Lemma execute_task_retries_missing_key mgr client key_name api_key model_name prompt :
  required_key mgr client = Some (key_name, api_key) →
  truthy api_key = None →
  ∀ attempts err w,
  ∃ w',
    execute_task_retries env mgr client model_name prompt attempts err w
    = ((None,
        match attempts with
        | [] => err
        | _ :: _ => Some (ValueError (key_name +:+ " is not configured."))
        end), w')
    ∧ calls w' = calls w
    ∧ (∀ m, attempts_of (model_metrics w') m
            = attempts_of (model_metrics w) m
              + (if decide (m = model_name) then Z.of_nat (length attempts) else 0))
    ∧ (∀ m, successes_of (model_metrics w') m = successes_of (model_metrics w) m).
Proof.
  intros Hk Ht attempts. induction attempts as [|attempt attempts IH]; intros err w.
  - exists w. split_and!; [done | done | intros m; case_decide; simpl; lia | done].
  - cbn [execute_task_retries].
    unfold bind at 1. unfold time_time at 1. cbv beta iota.
    unfold bind at 1. rewrite (call_client_missing_key _ _ _ _ _ _ _ Hk Ht).
    cbv beta iota.
    unfold bind at 1. unfold time_time at 1. cbv beta iota.
    unfold bind at 1. unfold update_model_metrics at 1.
    unfold bind at 1. unfold time_time at 1. cbv beta iota.
    unfold bind at 1.
    match goal with
    | |- context [execute_task_retries _ _ _ _ _ attempts ?e] =>
        set (err1 := e)
    end.
    match goal with
    | |- context [(if decide ?P then sleep else ret tt) ?w0] =>
        destruct ((if decide P then sleep else ret tt) w0) as [[] w1] eqn:Hsl;
        assert (Hw1 : calls w1 = calls w0 ∧ model_metrics w1 = model_metrics w0)
    end.
    { case_decide; injection Hsl as <-; done. }
    destruct Hw1 as [Hc1 Hm1]. simpl in Hc1, Hm1.
    destruct (IH err1 w1) as (w' & Hrun & Hcalls & Hatt & Hsucc).
    exists w'. split_and!.
    + rewrite Hrun. by destruct attempts.
    + by rewrite Hcalls, Hc1.
    + intros m. rewrite Hatt, Hm1, attempts_of_update.
      destruct (decide (m = model_name)); simpl length; lia.
    + intros m. rewrite Hsucc, Hm1, successes_of_update.
      destruct (decide (m = model_name)); lia.
Qed.

(** C4, as the code has it.  A call to a hosted provider whose API key is
    missing (unset or empty) fails at once with the [ValueError] "<KEY> is
    not configured." and sends nothing.  [execute_task] handles that error
    like any other failure of the call: it repeats the call until the
    retry budget of the model is used up, recording [max_retries] failed
    attempts for the model, and only then goes on to the next model of the
    chain. *)
Theorem execute_task_missing_key_consumes_retry_budget
    mgr client key_name api_key model_name rest prompt err w :
  _get_model_client model_name = Some client →
  required_key mgr client = Some (key_name, api_key) →
  truthy api_key = None →
  (∀ w0, call_client env mgr client model_name prompt w0
         = (Raises (ValueError (key_name +:+ " is not configured.")), w0))
  ∧ ∃ w' err',
      execute_task_chain env mgr prompt (model_name :: rest) err w
      = execute_task_chain env mgr prompt rest err' w'
      ∧ (0 < max_retries mgr →
         err' = Some (ValueError (key_name +:+ " is not configured.")))
      ∧ calls w' = calls w
      ∧ attempts_of (model_metrics w') model_name
        = attempts_of (model_metrics w) model_name + Z.max 0 (max_retries mgr)
      ∧ successes_of (model_metrics w') model_name
        = successes_of (model_metrics w) model_name.
Proof.
  intros Hclient Hk Ht. split.
  - intros w0. by apply call_client_missing_key with api_key.
  - destruct (execute_task_retries_missing_key mgr client key_name api_key
                model_name prompt Hk Ht (range (max_retries mgr)) err w)
      as (w' & Hrun & Hcalls & Hatt & Hsucc).
    eexists w', _. split_and!.
    + cbn [execute_task_chain]. rewrite Hclient. unfold bind at 1.
      rewrite Hrun. reflexivity.
    + intros Hpos. unfold range.
      destruct (Z.to_nat (max_retries mgr)) eqn:Hn; [lia|done].
    + done.
    + rewrite Hatt, decide_True by done. unfold range. rewrite length_seq. lia.
    + by rewrite Hsucc.
Qed.

End execute_task_properties.

(* ===================================================================== *)
(** * The executor on the scenarios                                        *)
(* ===================================================================== *)

Section executor_scenarios.
Import fallback_ai_manager scenarios.

Lemma execute_with_fallback_second_model_succeeds_witness :
  ∃ attempt w' o1 o2,
    execute_with_fallback flaky_env demo_manager "text" initial_world
    = (Ok (Some "Response from p2/modelB", attempt), w')
    ∧ ModelAttempt.model_name attempt = "p2/modelB"
    ∧ ModelAttempt.success attempt = true
    ∧ ModelAttempt.response attempt = Some "Response from p2/modelB"
    ∧ ModelAttempt.retry_count attempt = 0%nat
    ∧ is_failure o1 ∧ is_failure o2
    ∧ calls w'
      = calls initial_world
        ++ [(TaskCall "p1/modelA", o1); (TaskCall "p1/modelA", o2);
            (TaskCall "p2/modelB", Returns "Response from p2/modelB")]
    ∧ event_brief <$> performance_log w'
      = (event_brief <$> performance_log initial_world)
        ++ [attempt_logged "p1/modelA" false 0 0; attempt_logged "p1/modelA" false 1 0;
            attempt_logged "p2/modelB" true 0 1].
Proof.
  apply (execute_with_fallback_second_model_succeeds flaky_env demo_manager "text"
           "p1/modelA" "p2/modelB" [] "Response from p2/modelB" initial_world).
  - reflexivity.
  - reflexivity.
  - intros h r. simpl. discriminate.
  - intros h. reflexivity.
Defined.

Lemma execute_with_fallback_all_models_fail_witness :
  ∃ w' bs attempts,
    execute_with_fallback failing_env demo_manager "text" initial_world
    = (Ok (None, exhausted_attempt), w')
    ∧ ModelAttempt.success exhausted_attempt = false
    ∧ ModelAttempt.error exhausted_attempt
      = Some (RuntimeError "All models in fallback chain failed")
    ∧ event_brief <$> performance_log w'
      = (event_brief <$> performance_log initial_world) ++ bs ++ [exhausted_logged attempts]
    ∧ Forall is_attempt_brief bs
    ∧ attempts.*1 = ["p1/modelA"; "p2/modelB"]
    ∧ Forall (λ a, a.2 = false) attempts.
Proof.
  apply (execute_with_fallback_all_models_fail failing_env demo_manager "text"
           ["p1/modelA"; "p2/modelB"] initial_world).
  - reflexivity.
  - intros m h _ r. simpl. destruct h; discriminate.
Defined.

(** The log of that run, line by line. *)
Example execute_with_fallback_all_models_fail_log :
  event_brief <$> performance_log
    (execute_with_fallback failing_env demo_manager "text" initial_world).2
  = [attempt_logged "p1/modelA" false 0 0; attempt_logged "p1/modelA" false 1 0;
     attempt_logged "p2/modelB" false 0 1; attempt_logged "p2/modelB" false 1 1;
     exhausted_logged [("p1/modelA", false); ("p2/modelB", false)]].
Proof. vm_compute. reflexivity. Qed.

Lemma execute_with_fallback_success_counted_twice_witness :
  let w' := (execute_with_fallback flaky_env demo_manager "text" initial_world).2 in
  successes_of (model_metrics w') "p2/modelB" = 2
  ∧ attempts_of (model_metrics w') "p2/modelB" = 2.
Proof.
  intros w'.
  destruct (execute_with_fallback_success_counted_twice flaky_env demo_manager "text"
              initial_world "Response from p2/modelB"
              (ModelAttempt.mk "p2/modelB" true (Some "Response from p2/modelB")
                 None (11 - 7)%Q 0)
              w') as (fails & Hcalls & Hfails & Hs & Ha).
  - vm_compute. reflexivity.
  - split; [exact Hs|].
    vm_compute. reflexivity.
Defined.

(** One successful call, two counted: the metrics entry of the model that
    answered after a single real call. *)
Example one_success_recorded_as_two :
  model_metrics (execute_with_fallback flaky_env demo_manager "text" initial_world).2
    !! "p2/modelB"
  = Some (mkMetrics 2 2 (1 + 4)%Q 12%Q).
Proof. vm_compute. reflexivity. Qed.

Lemma execute_task_missing_key_consumes_retry_budget_witness :
  ∃ w' err',
    execute_task_chain flaky_env demo_manager "hi" ["openai/gpt-4"] None initial_world
    = execute_task_chain flaky_env demo_manager "hi" [] err' w'
    ∧ (0 < max_retries demo_manager →
       err' = Some (ValueError ("OPENAI_API_KEY" +:+ " is not configured.")))
    ∧ calls w' = calls initial_world
    ∧ attempts_of (model_metrics w') "openai/gpt-4"
      = attempts_of (model_metrics initial_world) "openai/gpt-4"
        + Z.max 0 (max_retries demo_manager)
    ∧ successes_of (model_metrics w') "openai/gpt-4"
      = successes_of (model_metrics initial_world) "openai/gpt-4".
Proof.
  refine (proj2 (execute_task_missing_key_consumes_retry_budget flaky_env demo_manager
                   _call_openai "OPENAI_API_KEY" (Some EmptyString) "openai/gpt-4"
                   [] "hi" None initial_world _ _ _));
    reflexivity.
Defined.

(** The missing key is retried.  With the default budget of 2 and no OpenAI
    key, [execute_task] on a task served by an OpenAI model makes a second
    attempt on that model after the first one failed with the configuration
    error: 2 attempts are recorded for the model, with the inter-retry sleep
    between them, and no request is sent. *)
Lemma execute_task_missing_key_is_retried :
  let r := execute_task flaky_env demo_manager "chat" "hi" initial_world in
  r.1 = AllModelsFailed "chat" (Some (ValueError "OPENAI_API_KEY is not configured."))
  ∧ attempts_of (model_metrics r.2) "openai/gpt-4" = 2
  ∧ ¬ attempts_of (model_metrics r.2) "openai/gpt-4" <= 1
  ∧ sleeps r.2 = 1%nat
  ∧ calls r.2 = [].
Proof.
  vm_compute. split_and!; [reflexivity | reflexivity | by intros H | reflexivity | reflexivity].
Qed.

End executor_scenarios.

(* ===================================================================== *)
(** * Further properties of the structured router                          *)
(* ===================================================================== *)

Section ai_task_router_more.
Import ai_task_router.

(** What a returned pair is made of. *)
Lemma route_task_Ok_inv available_models probe task_type r :
  route_task available_models probe task_type = Ok r →
  ∃ available_memory model,
    get_available_memory probe = Ok available_memory
    ∧ model ∈ candidates available_models task_type
    ∧ r = (name model, to_dict model)
    ∧ (first_fitting available_memory
         (sort_by_key (candidates available_models task_type)) = Some model
       ∨ (first_fitting available_memory
            (sort_by_key (candidates available_models task_type)) = None
          ∧ ∀ m, m ∈ candidates available_models task_type →
                 memory_requirement model <= memory_requirement m)).
Proof.
  unfold route_task. fold (candidates available_models task_type).
  set (cs := candidates available_models task_type).
  destruct cs as [|c0 cs'] eqn:Hcs; [done|]. rewrite <- Hcs.
  destruct (get_available_memory probe) as [available_memory|e]; [|done].
  destruct (first_fitting available_memory (sort_by_key cs)) as [model|] eqn:Hff.
  - intros [= <-]. exists available_memory, model.
    destruct (first_fitting_Some _ _ _ (sort_by_key_ascending cs) Hff) as (Hin & _).
    split_and!; [done | by apply elem_of_sort_by_key | done | by left].
  - destruct (sort_by_key cs) as [|m0 rest] eqn:Hsort; [done|].
    intros [= <-]. destruct (min_by_memory_spec m0 rest) as [Hin Hmin].
    rewrite <- Hsort in Hin, Hmin.
    exists available_memory, (min_by_memory m0 rest).
    split_and!; [done | by apply elem_of_sort_by_key | done | right].
    split; [done|]. intros m Hm. apply Hmin. by apply elem_of_sort_by_key.
Qed.

(** X1.  Whatever [route_task] returns is the name and the dict of a model
    of the catalog that supports the requested task type and is marked
    available: the dict shows [is_available] true and lists the task type. *)
Theorem route_task_returns_suitable_model available_models probe task_type model_name cfg :
  route_task available_models probe task_type = Ok (model_name, cfg) →
  ∃ model,
    model ∈ values available_models
    ∧ model_name = name model ∧ cfg = to_dict model
    ∧ d_name cfg = model_name
    ∧ d_is_available cfg = true
    ∧ TaskType_name task_type ∈ d_task_types cfg.
Proof.
  intros (a & model & _ & Hin & [= -> ->] & _)%route_task_Ok_inv.
  apply elem_of_candidates in Hin as [[Ht Ha] Hv].
  exists model. split_and!; [done..|].
  simpl. apply list_elem_of_fmap. by exists task_type.
Qed.

Lemma route_task_returns_suitable_model_witness :
  ∃ model,
    model ∈ values _initialize_models
    ∧ "llama3:8b" = name model
    ∧ to_dict (mkAIModel "llama3:8b" [TEXT_GENERATION; GENERAL_QA; DOCUMENTATION] 2 4700 true)
      = to_dict model
    ∧ d_name (to_dict (mkAIModel "llama3:8b" [TEXT_GENERATION; GENERAL_QA; DOCUMENTATION] 2 4700 true))
      = "llama3:8b"
    ∧ d_is_available (to_dict (mkAIModel "llama3:8b" [TEXT_GENERATION; GENERAL_QA; DOCUMENTATION] 2 4700 true))
      = true
    ∧ TaskType_name GENERAL_QA
      ∈ d_task_types (to_dict (mkAIModel "llama3:8b" [TEXT_GENERATION; GENERAL_QA; DOCUMENTATION] 2 4700 true)).
Proof.
  apply (route_task_returns_suitable_model _initialize_models
           (mkProbe TorchNoCuda (SmiRaises CalledProcessError)) GENERAL_QA).
  reflexivity.
Defined.

(** X2.  More memory never gives a worse choice: if the model chosen with
    the smaller amount of memory fits in it, the model chosen from the same
    catalog with a larger amount has a sort key that is at most as large. *)
Theorem route_task_monotone_in_memory available_models task_type
    probe1 probe2 a1 a2 n1 d1 n2 d2 :
  get_available_memory probe1 = Ok a1 →
  get_available_memory probe2 = Ok a2 →
  a1 <= a2 →
  route_task available_models probe1 task_type = Ok (n1, d1) →
  route_task available_models probe2 task_type = Ok (n2, d2) →
  d_memory_requirement_mb d1 <= a1 →
  dict_key_le d2 d1 ∧ d_memory_requirement_mb d2 <= a2.
Proof.
  intros Hp1 Hp2 Hle
    (a1' & m1 & Ha1 & Hin1 & [= -> ->] & _)%route_task_Ok_inv
    (a2' & m2 & Ha2 & Hin2 & [= -> ->] & Hsel2)%route_task_Ok_inv Hfit1.
  rewrite Hp2 in Ha2. injection Ha2 as <-. simpl in Hfit1.
  destruct Hsel2 as [Hff|[Hff _]].
  - destruct (first_fitting_Some _ _ _ (sort_by_key_ascending _) Hff) as (_ & Hfit2 & Hmin).
    split; [|done]. unfold dict_key_le. simpl.
    apply Hmin; [by apply elem_of_sort_by_key | lia].
  - exfalso. pose proof (proj1 (first_fitting_None _ _) Hff m1) as Hnone.
    specialize (Hnone (proj2 (elem_of_sort_by_key _ _) Hin1)). lia.
Qed.

Lemma route_task_monotone_in_memory_witness :
  let llama := mkAIModel "llama3:8b" [TEXT_GENERATION; GENERAL_QA; DOCUMENTATION] 2 4700 true in
  let mistral := mkAIModel "mistral:latest" [TEXT_GENERATION; GENERAL_QA] 3 4400 true in
  dict_key_le (to_dict llama) (to_dict mistral)
  ∧ d_memory_requirement_mb (to_dict llama) <= 6144.
Proof.
  intros llama mistral.
  apply (route_task_monotone_in_memory _initialize_models TEXT_GENERATION
           (mkProbe (TorchRaises ImportError) (SmiOutput (Some 4500)))
           (mkProbe (TorchRaises ImportError) (SmiOutput None))
           4500 6144 "mistral:latest" (to_dict mistral) "llama3:8b" (to_dict llama));
    [reflexivity | reflexivity | lia | reflexivity | reflexivity | simpl; lia].
Defined.

(** What [get_available_memory] lets out, read off its two [except]
    clauses. *)
Lemma get_available_memory_Raise probe e :
  get_available_memory probe = Raise e
  ↔ torch_lets_out probe e ∨ nvidia_smi_lets_out probe e.
Proof.
  unfold get_available_memory, query_nvidia_smi, torch_lets_out, nvidia_smi_lets_out.
  destruct probe as [t s]; simpl.
  destruct t as [et| |total].
  - destruct (isinstance et "ImportError") eqn:Het.
    + destruct s as [es|[n|]].
      * destruct (isinstance es "CalledProcessError") eqn:Hc;
          destruct (isinstance es "ValueError") eqn:Hv; simpl;
          split; try done; try (intros [[[= ->] ?]|(_ & [= ->] & ? & ?)]; congruence).
        intros [= ->]. right. split_and!; [right; eauto | done..].
      * split; [done|]. intros [[[= ->] ?]|(_ & ? & _)]; congruence.
      * split; [done|]. intros [[[= ->] ?]|(_ & ? & _)]; congruence.
    + split.
      * intros [= ->]. by left.
      * intros [[[= ->] _]|([?|(e' & [= ->] & ?)] & _)]; congruence.
  - destruct s as [es|[n|]].
    + destruct (isinstance es "CalledProcessError") eqn:Hc;
        destruct (isinstance es "ValueError") eqn:Hv; simpl;
        split; try done; try (intros [[? ?]|(_ & [= ->] & ? & ?)]; congruence).
      intros [= ->]. right. split_and!; [by left | done..].
    + split; [done|]. intros [[? ?]|(_ & ? & _)]; congruence.
    + split; [done|]. intros [[? ?]|(_ & ? & _)]; congruence.
  - split; [done|]. intros [[? ?]|([?|(e' & ? & ?)] & _)]; congruence.
Qed.

(** X3.  [route_task] raises in exactly three situations.  No model of the
    catalog is a candidate: the "No suitable models" [ValueError].  There
    are candidates and the first block of the probe ([import torch], the
    CUDA calls) raises something that is not an [ImportError]: that
    exception.  There are candidates, the first block gives no device, and
    running [nvidia-smi] raises something that is neither a
    [CalledProcessError] nor a [ValueError], such as the [FileNotFoundError]
    of an absent executable: that exception.  Memory pressure, a failing
    [nvidia-smi] and unreadable output never make it raise. *)
Theorem route_task_raises_iff available_models probe task_type err :
  route_task available_models probe task_type = Raise err
  ↔ (candidates available_models task_type = []
     ∧ err = ValueError_NoSuitableModels task_type)
    ∨ (candidates available_models task_type ≠ []
       ∧ ∃ e, err = ProbeFailed e
              ∧ (torch_lets_out probe e ∨ nvidia_smi_lets_out probe e)).
Proof.
  unfold route_task. fold (candidates available_models task_type).
  set (cs := candidates available_models task_type).
  destruct cs as [|c0 cs'] eqn:Hcs.
  { split.
    - intros [= <-]. by left.
    - intros [[_ ->]|[Hne _]]; done. }
  rewrite <- Hcs.
  destruct (get_available_memory probe) as [a|e'] eqn:Hprobe.
  - split.
    + destruct (first_fitting a (sort_by_key cs)); [done|].
      destruct (sort_by_key cs) as [|m0 rest] eqn:Hsort; [|done].
      pose proof (sort_by_key_perm cs) as Hp. rewrite Hsort, Hcs in Hp.
      by apply Permutation_nil_cons in Hp.
    + intros [[Hnil _]|(_ & e & _ & He)]; [by rewrite Hcs in Hnil|].
      apply get_available_memory_Raise in He. congruence.
  - split.
    + intros [= <-]. right. split; [by rewrite Hcs|].
      exists e'. split; [done|]. by apply get_available_memory_Raise.
    + intros [[Hnil _]|(_ & e & -> & He)]; [by rewrite Hcs in Hnil|].
      apply get_available_memory_Raise in He. congruence.
Qed.

(** A driver fault in the CUDA query and a [nvidia-smi] that may not be
    executed both reach the caller of [route_task]; a module that is not
    installed and a failing command do not. *)
Example route_task_probe_outcomes :
  route_task _initialize_models
    (mkProbe (TorchRaises (mkException "RuntimeError" ["Exception"; "BaseException"]))
             (SmiOutput (Some 8192))) CODE_ANALYSIS
  = Raise (ProbeFailed (mkException "RuntimeError" ["Exception"; "BaseException"]))
  ∧ route_task _initialize_models
      (mkProbe TorchNoCuda (SmiRaises PermissionError)) CODE_ANALYSIS
    = Raise (ProbeFailed PermissionError)
  ∧ fst <$> (match route_task _initialize_models
                     (mkProbe (TorchRaises ModuleNotFoundError) (SmiRaises CalledProcessError))
                     CODE_ANALYSIS with Ok r => Some r | Raise _ => None end)
    = Some "codellama:7b-instruct".
Proof. split_and!; reflexivity. Qed.

(** ** Refreshing the availability flags *)

Lemma in_installed_true model_name installed :
  in_installed model_name installed = true ↔ listed model_name installed.
Proof.
  unfold in_installed, listed. induction installed as [|v installed IH]; simpl.
  - split; [done|]. intros H. by apply elem_of_nil in H.
  - rewrite orb_true_iff, IH, elem_of_cons.
    destruct v as [|b|n|s|l|ms];
      try (split; [by intros [?|?]; [|right] | intros [?|?]; [done | by right]]).
    rewrite bool_decide_eq_true. split.
    + intros [->|?]; [by left | by right].
    + intros [[= ->]|?]; [by left | by right].
Qed.

Lemma names_of_Raise ms e : names_of ms = Raise e → e = TypeError ∨ e = KeyError.
Proof.
  induction ms as [|m ms IH]; simpl; [done|].
  destruct (getitem_name m) as [v|e'] eqn:Hm.
  - destruct (hashable v); [|intros [= <-]; by left].
    destruct (names_of ms) as [installed|e'']; [done|].
    intros [= <-]. by apply IH.
  - intros [= <-]. unfold getitem_name in Hm.
    destruct m as [|b|n|s|l|members]; try (injection Hm as <-; by left).
    destruct (dict_getitem "name" members); [done|]. injection Hm as <-. by right.
Qed.

(** What the comprehension raises is a [TypeError] or a [KeyError], which
    the [except] clause does not list. *)
Lemma installed_models_Raise value e :
  installed_models value = Raise e → e = TypeError ∨ e = KeyError.
Proof.
  unfold installed_models. destruct (iterate value) as [ms|e'] eqn:Hit.
  - apply names_of_Raise.
  - intros [= <-]. destruct value; simpl in Hit; try done; injection Hit as <-; by left.
Qed.

Lemma log_or_raise_cases available_models e :
  (log_or_raise available_models e = Ok available_models
   ∧ (isinstance e "CalledProcessError" = true ∨ isinstance e "JSONDecodeError" = true))
  ∨ (log_or_raise available_models e = Raise e
     ∧ isinstance e "CalledProcessError" = false
     ∧ isinstance e "JSONDecodeError" = false).
Proof.
  unfold log_or_raise.
  destruct (isinstance e "CalledProcessError"), (isinstance e "JSONDecodeError");
    cbn [orb]; [left | left | left | right]; split; auto.
Qed.

Lemma update_model_availability_loaded_Ok available_models value refreshed :
  update_model_availability available_models (OllamaLoaded value) = Ok refreshed →
  ∃ installed,
    installed_models value = Ok installed
    ∧ refreshed = (λ kv : string * AIModel,
                     (kv.1, set_is_available (in_installed kv.1 installed) kv.2))
                  <$> available_models.
Proof.
  simpl. destruct (installed_models value) as [installed|e] eqn:Hv.
  - intros [= <-]. eauto.
  - by apply installed_models_Raise in Hv as [->| ->].
Qed.

Lemma elem_of_refreshed (c : Catalog) (installed : list JSON) key model' :
  (key, model') ∈ ((λ kv : string * AIModel,
                      (kv.1, set_is_available (in_installed kv.1 installed) kv.2)) <$> c)
  ↔ ∃ model, (key, model) ∈ c
             ∧ model' = set_is_available (in_installed key installed) model.
Proof.
  rewrite list_elem_of_fmap. split.
  - intros ([k m] & [= -> ->] & Hin). by exists m.
  - intros (m & Hin & ->). by exists (key, m).
Qed.

Lemma refreshed_keys (c : Catalog) (installed : list JSON) :
  ((λ kv : string * AIModel,
      (kv.1, set_is_available (in_installed kv.1 installed) kv.2)) <$> c).*1 = c.*1.
Proof. rewrite <- list_fmap_compose. by apply list_fmap_ext. Qed.

Lemma filter_none {A} (P : A → Prop) `{∀ x, Decision (P x)} (l : list A) :
  Forall (λ x, ¬ P x) l → filter P l = [].
Proof.
  induction 1 as [|x l Hx _ IH]; [done|].
  by rewrite filter_cons, decide_False.
Qed.

(** X4.  After a refresh against a loaded listing, the comprehension has
    given a set of names, [route_task] only returns models stored under a
    key that is in it, and when no key of the catalog is in it, every
    routing call raises the "No suitable models" error. *)
Theorem route_task_after_refresh available_models value refreshed probe task_type :
  update_model_availability available_models (OllamaLoaded value) = Ok refreshed →
  ∃ installed,
    installed_models value = Ok installed
    ∧ (∀ model_name cfg,
         route_task refreshed probe task_type = Ok (model_name, cfg) →
         ∃ key model, (key, model) ∈ available_models ∧ listed key installed
                      ∧ model_name = name model ∧ task_type ∈ task_types model)
    ∧ ((∀ key, key ∈ available_models.*1 → ¬ listed key installed) →
       route_task refreshed probe task_type = Raise (ValueError_NoSuitableModels task_type)).
Proof.
  intros (installed & Hv & ->)%update_model_availability_loaded_Ok.
  exists installed. split_and!; [done| |].
  - intros model_name cfg (a & model' & _ & Hin & [= -> ->] & _)%route_task_Ok_inv.
    apply elem_of_candidates in Hin as [[Ht Ha] Hv'].
    unfold values in Hv'. apply list_elem_of_fmap in Hv' as ([key m'] & -> & Hkv).
    apply elem_of_refreshed in Hkv as (model & Hin & ->). simpl in *.
    apply in_installed_true in Ha. by exists key, model.
  - intros Hnone. unfold route_task.
    rewrite filter_none; [done|]. apply Forall_forall.
    intros model' Hv'. unfold values in Hv'.
    apply list_elem_of_fmap in Hv' as ([key m'] & -> & Hkv).
    apply elem_of_refreshed in Hkv as (model & Hin & ->). simpl.
    unfold suitable. simpl.
    destruct (in_installed key installed) eqn:Hk; [|by rewrite andb_false_r].
    exfalso. apply in_installed_true in Hk. revert Hk. apply Hnone.
    apply list_elem_of_fmap. by exists (key, model).
Qed.

Lemma route_task_after_refresh_witness :
  ∃ installed,
    installed_models scenarios.two_small_models = Ok installed
    ∧ (∀ model_name cfg,
         route_task
           ((λ kv : string * AIModel,
               (kv.1, set_is_available
                        (in_installed kv.1 [JString "gemma:2b"; JString "llava:latest"]) kv.2))
            <$> _initialize_models)
           (mkProbe TorchNoCuda (SmiRaises CalledProcessError)) TEXT_GENERATION
         = Ok (model_name, cfg) →
         ∃ key model, (key, model) ∈ _initialize_models ∧ listed key installed
                      ∧ model_name = name model ∧ TEXT_GENERATION ∈ task_types model)
    ∧ ((∀ key, key ∈ _initialize_models.*1 → ¬ listed key installed) →
       route_task
         ((λ kv : string * AIModel,
             (kv.1, set_is_available
                      (in_installed kv.1 [JString "gemma:2b"; JString "llava:latest"]) kv.2))
          <$> _initialize_models)
         (mkProbe TorchNoCuda (SmiRaises CalledProcessError)) TEXT_GENERATION
       = Raise (ValueError_NoSuitableModels TEXT_GENERATION)).
Proof.
  apply (route_task_after_refresh _initialize_models scenarios.two_small_models).
  reflexivity.
Defined.

(** On the shipped catalog with only the two small models listed, text
    generation goes to the one of them that handles text. *)
Example route_task_after_refresh_shipped :
  match update_model_availability _initialize_models (OllamaLoaded scenarios.two_small_models) with
  | Ok refreshed =>
      fst <$> (match route_task refreshed (mkProbe TorchNoCuda (SmiRaises CalledProcessError))
                       TEXT_GENERATION with Ok r => Some r | Raise _ => None end)
  | Raise _ => None
  end = Some "gemma:2b".
Proof. reflexivity. Qed.

(** X5.  A refresh that returns keeps the keys of the catalog and their
    order and touches nothing but the availability flag; refreshing again
    with the same listing changes nothing.  After a loaded listing the flag
    is the membership of the key in the set of listed names; after a
    listing that raised a [CalledProcessError] or a [JSONDecodeError] every
    flag is what it was.  The refresh raises what the listing raised, when
    that is neither of the two, and the [TypeError] or [KeyError] of the
    comprehension on a loaded value of another shape. *)
Theorem update_model_availability_frame available_models listing :
  match update_model_availability available_models listing with
  | Ok refreshed =>
      refreshed.*1 = available_models.*1
      ∧ Forall2 (λ old new : string * AIModel,
                   name new.2 = name old.2 ∧ task_types new.2 = task_types old.2
                   ∧ priority new.2 = priority old.2
                   ∧ memory_requirement new.2 = memory_requirement old.2)
          available_models refreshed
      ∧ update_model_availability refreshed listing = Ok refreshed
      ∧ match listing with
        | OllamaLoaded value =>
            ∃ installed,
              installed_models value = Ok installed
              ∧ Forall2 (λ old new : string * AIModel,
                           is_available new.2 = in_installed old.1 installed)
                  available_models refreshed
        | OllamaRaises e =>
            refreshed = available_models
            ∧ (isinstance e "CalledProcessError" = true
               ∨ isinstance e "JSONDecodeError" = true)
        end
  | Raise e =>
      isinstance e "CalledProcessError" = false
      ∧ isinstance e "JSONDecodeError" = false
      ∧ match listing with
        | OllamaLoaded value =>
            installed_models value = Raise e ∧ (e = TypeError ∨ e = KeyError)
        | OllamaRaises e' => e' = e
        end
  end.
Proof.
  assert (Hsame : Forall2 (λ old new : string * AIModel,
                   name new.2 = name old.2 ∧ task_types new.2 = task_types old.2
                   ∧ priority new.2 = priority old.2
                   ∧ memory_requirement new.2 = memory_requirement old.2)
                  available_models available_models).
  { apply Forall2_same_length_lookup_2; [done|]. by intros i x y -> [= ->]. }
  destruct listing as [e|value]; cbn [update_model_availability].
  - destruct (log_or_raise_cases available_models e) as [[Heq He]|(Heq & Hc & Hj)];
      rewrite Heq; [|done].
    split_and!; [done | done | | done | done].
    cbn [update_model_availability]. exact Heq.
  - destruct (installed_models value) as [installed|e] eqn:Hv.
    + split_and!.
      * apply refreshed_keys.
      * apply Forall2_fmap_r, Forall2_same_length_lookup_2; [done|].
        by intros i x y -> [= ->].
      * f_equal. rewrite <- list_fmap_compose. apply list_fmap_ext.
        intros i [k m] _. by simpl.
      * exists installed. split; [done|].
        apply Forall2_fmap_r, Forall2_same_length_lookup_2; [done|].
        by intros i x y -> [= ->].
    + destruct (installed_models_Raise _ _ Hv) as [->| ->].
      * change (log_or_raise available_models TypeError)
          with (Raise TypeError : PyResult PyException Catalog).
        split_and!; [reflexivity | reflexivity | done | by left].
      * change (log_or_raise available_models KeyError)
          with (Raise KeyError : PyResult PyException Catalog).
        split_and!; [reflexivity | reflexivity | done | by right].
Qed.

(** The shapes of a listing.  A missing executable and a loaded value that
    is not a list of objects with a name end the refresh with an exception;
    the empty list marks every model as not available. *)
Example update_model_availability_shapes :
  update_model_availability _initialize_models (OllamaRaises FileNotFoundError)
  = Raise FileNotFoundError
  ∧ update_model_availability _initialize_models (OllamaRaises JSONDecodeError)
    = Ok _initialize_models
  ∧ update_model_availability _initialize_models
      (OllamaLoaded (JObject [("models", JArray [JObject [("name", JString "gemma:2b")]])]))
    = Raise TypeError
  ∧ update_model_availability _initialize_models
      (OllamaLoaded (JArray [JObject [("model", JString "gemma:2b")]]))
    = Raise KeyError
  ∧ update_model_availability _initialize_models
      (OllamaLoaded (JArray [JString "gemma:2b"]))
    = Raise TypeError
  ∧ (is_available ∘ snd <$>
       match update_model_availability _initialize_models (OllamaLoaded (JArray [])) with
       | Ok refreshed => refreshed
       | Raise _ => []
       end)
    = [false; false; false; false; false; false].
Proof. split_and!; reflexivity. Qed.

(** ** Looking a model up *)

Lemma catalog_get_Some (c : Catalog) key model :
  NoDup c.*1 → (key, model) ∈ c → catalog_get key c = Some model.
Proof.
  induction c as [|[k m] c IH]; simpl; intros Hnd Hin.
  - by apply elem_of_nil in Hin.
  - apply NoDup_cons in Hnd as [Hk Hnd].
    apply elem_of_cons in Hin as [[= -> ->]|Hin].
    + by rewrite decide_True.
    + rewrite decide_False; [by apply IH|].
      intros ->. apply Hk. apply list_elem_of_fmap. by exists (key, model).
Qed.

Lemma catalog_get_None (c : Catalog) key :
  catalog_get key c = None ↔ key ∉ c.*1.
Proof.
  induction c as [|[k m] c IH]; simpl.
  - split; [|done]. intros _ H. by apply elem_of_nil in H.
  - case_decide as Hk.
    + subst. split; [done|]. intros H. exfalso. apply H. left.
    + rewrite IH, not_elem_of_cons. split; [by split | by intros [_ ?]].
Qed.

Lemma well_keyed_initial : well_keyed _initialize_models.
Proof.
  split.
  - refine (bool_decide_unpack (NoDup _) _). vm_compute. exact I.
  - repeat constructor.
Qed.

Lemma well_keyed_refresh c listing refreshed :
  well_keyed c → update_model_availability c listing = Ok refreshed → well_keyed refreshed.
Proof.
  intros [Hnd Hk]. destruct listing as [e|value].
  - cbn [update_model_availability].
    destruct (log_or_raise_cases c e) as [[-> _]|[-> _]]; [|done]. by intros [= <-].
  - intros (installed & _ & ->)%update_model_availability_loaded_Ok. split.
    + by rewrite refreshed_keys.
    + apply Forall_fmap. eapply Forall_impl; [exact Hk|]. by intros [k m] Hkm.
Qed.

(** X6.  [get_model_info] raises "Unknown model" exactly for the names that
    are not keys of the catalog; on a catalog that stores every model under
    its own name (the shipped one, before and after any refresh), the name
    that [route_task] returns can be looked up again and gives the same dict
    that [route_task] returned with it. *)
Theorem get_model_info_of_routed available_models probe task_type :
  (∀ model_name,
     get_model_info available_models model_name = Raise (ValueError_UnknownModel model_name)
     ↔ model_name ∉ available_models.*1)
  ∧ (well_keyed available_models →
     ∀ model_name cfg,
       route_task available_models probe task_type = Ok (model_name, cfg) →
       get_model_info available_models model_name = Ok cfg).
Proof.
  split.
  - intros model_name. unfold get_model_info. rewrite <- catalog_get_None.
    destruct (catalog_get model_name available_models); split; done.
  - intros [Hnd Hk] model_name cfg
      (a & model & _ & Hin & [= -> ->] & _)%route_task_Ok_inv.
    apply elem_of_candidates in Hin as [_ Hv]. unfold values in Hv.
    apply list_elem_of_fmap in Hv as ([key m] & -> & Hkv). simpl.
    rewrite Forall_forall in Hk. specialize (Hk _ Hkv). simpl in Hk. subst key.
    unfold get_model_info. by rewrite (catalog_get_Some _ _ _ Hnd Hkv).
Qed.

(** X26.  Listing and lookup agree: on a catalog that stores every model
    under its own name, [list_models] has one dict per catalog entry, in
    catalog order, and looking up the name shown in any listed dict gives
    that dict back. *)
Theorem list_models_lookup available_models cfg :
  well_keyed available_models →
  cfg ∈ list_models available_models →
  get_model_info available_models (d_name cfg) = Ok cfg
  ∧ length (list_models available_models) = length available_models
  ∧ d_name <$> list_models available_models = available_models.*1.
Proof.
  intros [Hnd Hk] Hin. split_and!.
  - unfold list_models, values in Hin.
    apply list_elem_of_fmap in Hin as (model & -> & Hin).
    apply list_elem_of_fmap in Hin as ([key m] & -> & Hkv). simpl.
    rewrite Forall_forall in Hk. specialize (Hk _ Hkv). simpl in Hk. subst key.
    unfold get_model_info. by rewrite (catalog_get_Some _ _ _ Hnd Hkv).
  - unfold list_models, values. by rewrite !length_fmap.
  - unfold list_models, values. clear Hin Hnd.
    induction Hk as [|[k m] c Hkm _ IH]; [done|].
    rewrite !fmap_cons, IH. simpl in *. by rewrite Hkm.
Qed.

Lemma list_models_lookup_witness :
  let gemma := to_dict (mkAIModel "gemma:2b" [TEXT_GENERATION; GENERAL_QA] 6 1700 true) in
  get_model_info _initialize_models (d_name gemma) = Ok gemma
  ∧ length (list_models _initialize_models) = length _initialize_models
  ∧ d_name <$> list_models _initialize_models = _initialize_models.*1.
Proof.
  intros gemma.
  apply (list_models_lookup _initialize_models gemma well_keyed_initial).
  unfold gemma, list_models. simpl. repeat (first [left | right]).
Defined.

Lemma get_model_info_of_routed_witness :
  get_model_info _initialize_models "codellama:7b-instruct"
  = Ok (to_dict (mkAIModel "codellama:7b-instruct"
                   [CODE_ANALYSIS; CODE_GENERATION; DEBUGGING; OPTIMIZATION; DOCUMENTATION]
                   1 3800 true)).
Proof.
  apply (proj2 (get_model_info_of_routed _initialize_models
                  (mkProbe TorchNoCuda (SmiRaises CalledProcessError)) DEBUGGING)
           well_keyed_initial).
  reflexivity.
Defined.

End ai_task_router_more.

(* ===================================================================== *)
(** * Further properties of the keyword router and its executor            *)
(* ===================================================================== *)

Section ai_task_router_temp_more.
Import ai_task_router_temp.

Variable lower : string → string.

Lemma scan_tasks_Some_elem prompt_lower ts task_name task_config :
  scan_tasks lower prompt_lower ts = Some (task_name, task_config) →
  (task_name, task_config) ∈ ts
  ∧ scan_keywords lower prompt_lower (default [] (routing_keywords task_config)) = true.
Proof.
  induction ts as [|[n c] ts IH]; simpl; [done|].
  destruct (scan_keywords lower prompt_lower (default [] (routing_keywords c))) eqn:Hc.
  - intros [= -> ->]. split; [left|done].
  - intros [Hin Hk]%IH. split; [by right|done].
Qed.

Lemma dict_get_Some_elem {A} key (d : list (string * A)) v :
  dict_get key d = Some v → (key, v) ∈ d.
Proof.
  induction d as [|[k x] d IH]; simpl; [done|].
  case_decide as Hk; [intros [= ->]; subst; left | intros ?; right; auto].
Qed.

(** X7.  [route_task] never makes a config up: what it returns is the
    config of a task declared in the configuration, or the empty dict; and
    a declared task without [routing_keywords] is only ever returned as the
    default. *)
Theorem route_task_returns_declared_config config prompt :
  (route_task lower config prompt = empty_config
   ∨ ∃ task_name, (task_name, route_task lower config prompt) ∈ tasks config)
  ∧ ∀ task_name task_config,
      scan_tasks lower (lower prompt) (tasks config) = Some (task_name, task_config) →
      ∃ keywords, routing_keywords task_config = Some keywords ∧ keywords ≠ [].
Proof.
  split.
  - unfold route_task.
    destruct (scan_tasks lower (lower prompt) (tasks config)) as [[n c]|] eqn:Hs.
    + right. exists n. by apply scan_tasks_Some_elem in Hs as [? _].
    + destruct (dict_get _ (tasks config)) as [c|] eqn:Hd; simpl; [|by left].
      right. eexists. by apply dict_get_Some_elem in Hd.
  - intros n c [_ Hk]%scan_tasks_Some_elem.
    destruct (routing_keywords c) as [[|k ks]|]; simpl in Hk; try done.
    by exists (k :: ks).
Qed.

Lemma str_in_empty (s : string) : str_in EmptyString s = true.
Proof. by destruct s. Qed.

(** X8.  An empty routing keyword is a catch-all: a task that has a keyword
    whose lowered form is the empty string matches every prompt, so for
    every prompt the scan stops at that task or before it; the tasks
    declared after it and the default task are never reached. *)
Theorem empty_keyword_catches_all config pre task_name task_config post keyword :
  tasks config = pre ++ (task_name, task_config) :: post →
  keyword ∈ default [] (routing_keywords task_config) →
  lower keyword = EmptyString →
  ∀ prompt,
    task_matches lower prompt task_config
    ∧ ∃ n c, (n, c) ∈ pre ++ [(task_name, task_config)]
             ∧ scan_tasks lower (lower prompt) (tasks config) = Some (n, c)
             ∧ route_task lower config prompt = c.
Proof.
  intros Hts Hk Hlow prompt.
  assert (Hm : scan_keywords lower (lower prompt)
                 (default [] (routing_keywords task_config)) = true).
  { apply scan_keywords_true. exists keyword. split; [done|].
    unfold keyword_matches. rewrite Hlow. apply str_in_empty. }
  split.
  { exists keyword. split; [done|]. unfold keyword_matches. rewrite Hlow. apply str_in_empty. }
  assert (Hscan : ∃ n c, (n, c) ∈ pre ++ [(task_name, task_config)]
                    ∧ scan_tasks lower (lower prompt) (tasks config) = Some (n, c)).
  { rewrite Hts. clear Hts.
    induction pre as [|[n c] pre IH]; simpl.
    - rewrite Hm. exists task_name, task_config. split; [left | done].
    - destruct (scan_keywords lower (lower prompt) (default [] (routing_keywords c))).
      + exists n, c. split; [left | done].
      + destruct IH as (n' & c' & Hin & Hs). exists n', c'. split; [by right | done]. }
  destruct Hscan as (n & c & Hin & Hs). exists n, c.
  split_and!; [done | done |]. unfold route_task. by rewrite Hs.
Qed.

End ai_task_router_temp_more.

Section fallback_ai_manager_temp_properties.
Import ai_task_router_temp fallback_ai_manager_temp.

Variable first_30 : string → string.

Lemma call_model_api_available model_name prompt :
  unavailable model_name = false →
  truthy (call_model_api first_30 model_name prompt)
  = Some ("Response from '" +:+ model_name +:+ "': The prompt was '"
          +:+ first_30 prompt +:+ "...'")%string.
Proof. intros Hu. unfold call_model_api. by rewrite Hu. Qed.

Lemma call_model_api_unavailable model_name prompt :
  unavailable model_name = true →
  truthy (call_model_api first_30 model_name prompt) = None.
Proof. intros Hu. unfold call_model_api. by rewrite Hu. Qed.

Lemma try_fallback_models_first prompt pre model_name post :
  Forall (λ m, unavailable m = true) pre →
  unavailable model_name = false →
  try_fallback_models first_30 (pre ++ model_name :: post) prompt
  = Some ("Response from '" +:+ model_name +:+ "': The prompt was '"
          +:+ first_30 prompt +:+ "...'")%string.
Proof.
  intros Hpre Hm. induction Hpre as [|m pre Hu _ IH]; simpl.
  - by rewrite call_model_api_available.
  - by rewrite call_model_api_unavailable.
Qed.

Lemma try_fallback_models_none prompt ms :
  Forall (λ m, unavailable m = true) ms →
  try_fallback_models first_30 ms prompt = None.
Proof.
  induction 1 as [|m ms Hu _ IH]; simpl; [done|].
  by rewrite call_model_api_unavailable.
Qed.

(** X9.  [execute_task] answers with the first model, in the order primary
    then fallbacks, that the API does not fail for; the models after it are
    not consulted.  When the API fails for every model of the task (or the
    task names none), the fixed error message is returned. *)
Theorem execute_task_first_available_model task_config prompt :
  (∀ pre model_name post,
     models_in_order task_config = pre ++ model_name :: post →
     Forall (λ m, unavailable m = true) pre →
     unavailable model_name = false →
     execute_task first_30 task_config prompt
     = ("Response from '" +:+ model_name +:+ "': The prompt was '"
        +:+ first_30 prompt +:+ "...'")%string)
  ∧ (Forall (λ m, unavailable m = true) (models_in_order task_config) →
     execute_task first_30 task_config prompt = all_failed_message).
Proof.
  unfold models_in_order, execute_task.
  destruct (truthy (primary_model task_config)) as [primary|]; simpl; split.
  - intros [|p pre] model_name post Heq Hpre Hm; simpl in Heq;
      injection Heq as -> Hf.
    + by rewrite call_model_api_available.
    + apply Forall_cons in Hpre as [Hp Hpre].
      rewrite call_model_api_unavailable by done.
      by rewrite Hf, try_fallback_models_first.
  - intros [Hp Hall]%Forall_cons.
    rewrite call_model_api_unavailable by done.
    by rewrite try_fallback_models_none.
  - intros pre model_name post -> Hpre Hm. by rewrite try_fallback_models_first.
  - intros Hall. by rewrite try_fallback_models_none.
Qed.

(** X10.  The empty dict that keyword routing returns for an undefined
    default task names no model, so handing it to [execute_task] ends in the
    fixed "all models failed" message: a prompt that matches no keyword in a
    configuration without its default task is answered by that message. *)
Theorem undefined_default_task_ends_in_failure lower config prompt :
  (∀ n c, (n, c) ∈ tasks config → ¬ task_matches lower prompt c) →
  dict_get (default "general_chat" (default_task config)) (tasks config) = None →
  execute_task first_30 (route_task lower config prompt) prompt = all_failed_message.
Proof.
  intros Hno%scan_tasks_None Hd. unfold route_task. by rewrite Hno, Hd.
Qed.

End fallback_ai_manager_temp_properties.

Section keyword_router_more_scenarios.
Import ai_task_router_temp fallback_ai_manager_temp scenarios.

Lemma empty_keyword_catches_all_witness :
  task_matches str_lower "give me a BTC signal"
    (mkTaskConfig (Some ["help"; EmptyString]) (Some "ollama/llama3") None None)
  ∧ ∃ n c,
      (n, c) ∈ [("code_analysis",
                 mkTaskConfig (Some ["code"]) (Some "ollama/codellama") None None)]
               ++ [("anything",
                    mkTaskConfig (Some ["help"; EmptyString]) (Some "ollama/llama3") None None)]
      ∧ scan_tasks str_lower (str_lower "give me a BTC signal") (tasks catch_all_config)
        = Some (n, c)
      ∧ route_task str_lower catch_all_config "give me a BTC signal" = c.
Proof.
  apply (empty_keyword_catches_all str_lower catch_all_config
           [("code_analysis", mkTaskConfig (Some ["code"]) (Some "ollama/codellama") None None)]
           "anything"
           (mkTaskConfig (Some ["help"; EmptyString]) (Some "ollama/llama3") None None)
           [("trading", mkTaskConfig (Some ["btc"]) (Some "ollama/mistral") None None);
            ("general_chat", mkTaskConfig None (Some "ollama/gemma") None None)]
           EmptyString).
  - reflexivity.
  - simpl. right. left.
  - reflexivity.
Defined.

(** The trading keyword of the third task is shadowed by the empty keyword
    of the second. *)
Example empty_keyword_shadows_later_task :
  route_task str_lower catch_all_config "give me a BTC signal"
  = mkTaskConfig (Some ["help"; EmptyString]) (Some "ollama/llama3") None None.
Proof. reflexivity. Qed.

Lemma execute_task_first_available_model_witness :
  execute_task first_30_bytes trading_task "give me a btc signal for the next hour"
  = "Response from 'llama3:8b': The prompt was 'give me a btc signal for the n...'".
Proof.
  apply (proj1 (execute_task_first_available_model first_30_bytes trading_task
                  "give me a btc signal for the next hour")
           ["specialized_trading_model_v2"; "deepseek-coder:6.7b"] "llama3:8b"
           ["mistral:latest"]).
  - reflexivity.
  - repeat constructor.
  - reflexivity.
Defined.

Lemma undefined_default_task_ends_in_failure_witness :
  execute_task first_30_bytes (route_task str_lower no_default_config "Hello there!")
    "Hello there!"
  = all_failed_message.
Proof.
  apply (undefined_default_task_ends_in_failure first_30_bytes str_lower
           no_default_config "Hello there!").
  - apply scan_tasks_None. reflexivity.
  - reflexivity.
Defined.

End keyword_router_more_scenarios.

(* ===================================================================== *)
(** * Further properties of the metrics store                              *)
(* ===================================================================== *)

Section metrics_more.
Import fallback_ai_manager.

Lemma counters_of_entry mm m e :
  mm !! m = Some e →
  attempts_of mm m = total_attempts e ∧ successes_of mm m = successful_attempts e.
Proof. intros He. unfold attempts_of, successes_of. by rewrite He. Qed.

Lemma counters_consistent_update mm model_name success duration now :
  counters_consistent mm →
  counters_consistent (update_metrics_dict mm model_name success duration now).
Proof.
  intros Hc m. specialize (Hc m).
  rewrite attempts_of_update, successes_of_update.
  destruct (decide (m = model_name)), success; lia.
Qed.

(** X11.  [update_model_metrics] keeps the counters consistent (for every
    model, 0 <= successful_attempts <= total_attempts), gives the updated
    model at least one recorded attempt, leaves the entry of every other
    model as it was, and touches neither the performance log nor the
    outside world. *)
Theorem update_model_metrics_keeps_consistency env model_name success duration w :
  counters_consistent (model_metrics w) →
  let w' := (update_model_metrics env model_name success duration w).2 in
  counters_consistent (model_metrics w')
  ∧ 1 <= attempts_of (model_metrics w') model_name
  ∧ (∀ m, m ≠ model_name → model_metrics w' !! m = model_metrics w !! m)
  ∧ performance_log w' = performance_log w
  ∧ calls w' = calls w.
Proof.
  intros Hc w'. subst w'. simpl. split_and!; [| | |done|done].
  - by apply counters_consistent_update.
  - rewrite attempts_of_update, decide_True by done.
    specialize (Hc model_name). lia.
  - intros m Hm. by apply update_metrics_dict_lookup_ne.
Qed.

(** X12.  On a store with consistent counters, in particular on every store
    that updates built from the empty one, the success rate of every model
    lies between 0 and 1. *)
Theorem get_model_success_rate_in_unit_interval mm model_name :
  counters_consistent mm →
  (0 <= get_model_success_rate mm model_name)%Q
  ∧ (get_model_success_rate mm model_name <= 1)%Q.
Proof.
  intros Hc. specialize (Hc model_name). unfold get_model_success_rate.
  destruct (mm !! model_name) as [e|] eqn:He; [|done].
  destruct (counters_of_entry _ _ _ He) as [Ha Hs]. rewrite Ha, Hs in Hc.
  case_decide as Hz; [done|].
  assert (Hpos : (0 < inject_Z (total_attempts e))%Q).
  { change 0%Q with (inject_Z 0). rewrite <- Zlt_Qlt. lia. }
  split.
  - apply Qle_shift_div_l; [done|]. rewrite Qmult_0_l.
    change 0%Q with (inject_Z 0). rewrite <- Zle_Qle. lia.
  - apply Qle_shift_div_r; [done|]. rewrite Qmult_1_l.
    rewrite <- Zle_Qle. lia.
Qed.

Lemma counters_consistent_empty : counters_consistent ∅.
Proof. intros m. unfold successes_of, attempts_of. rewrite lookup_empty. simpl. lia. Qed.

Lemma rate_above_iff (a s t : Z) :
  0 < t →
  ((a # 10) < inject_Z s / inject_Z t)%Q ↔ a * t < 10 * s.
Proof.
  intros Ht. destruct t as [|p|p]; try lia.
  unfold Qlt, Qdiv, Qmult, Qinv, inject_Z. simpl. lia.
Qed.

Lemma rate_at_most_iff (a s t : Z) :
  0 < t →
  (inject_Z s / inject_Z t <= (a # 10))%Q ↔ 10 * s <= a * t.
Proof.
  intros Ht. destruct t as [|p|p]; try lia.
  unfold Qle, Qdiv, Qmult, Qinv, inject_Z. simpl. lia.
Qed.

(** X13.  The health thresholds in whole numbers: a tracked model with
    [total] > 0 attempts of which [succ] succeeded is classified healthy iff
    10 succ > 8 total, degraded iff 5 total < 10 succ <= 8 total, and
    unhealthy iff 10 succ <= 5 total.  So 4 successes out of 5 are degraded,
    not healthy, and 1 out of 2 is unhealthy. *)
Theorem health_status_by_counts mm model_name e :
  mm !! model_name = Some e →
  0 < total_attempts e →
  let st := status (health_entry mm model_name e) in
  (st = healthy ↔ 8 * total_attempts e < 10 * successful_attempts e)
  ∧ (st = degraded ↔ 5 * total_attempts e < 10 * successful_attempts e
                     ∧ 10 * successful_attempts e <= 8 * total_attempts e)
  ∧ (st = unhealthy ↔ 10 * successful_attempts e <= 5 * total_attempts e).
Proof.
  intros He Ht st. subst st. unfold health_entry. simpl.
  rewrite (get_model_success_rate_tracked _ _ _ He) by lia.
  rewrite status_of_healthy, status_of_degraded, status_of_unhealthy.
  rewrite !rate_above_iff, !rate_at_most_iff by done.
  split_and!; [done | tauto | done].
Qed.

End metrics_more.

Section metrics_more_scenarios.
Import fallback_ai_manager scenarios.

Lemma update_model_metrics_keeps_consistency_witness :
  let w' := (update_model_metrics flaky_env "ollama/llama3" true (3 # 2) initial_world).2 in
  counters_consistent (model_metrics w')
  ∧ 1 <= attempts_of (model_metrics w') "ollama/llama3"
  ∧ (∀ m, m ≠ "ollama/llama3" → model_metrics w' !! m = model_metrics initial_world !! m)
  ∧ performance_log w' = performance_log initial_world
  ∧ calls w' = calls initial_world.
Proof.
  apply (update_model_metrics_keeps_consistency flaky_env "ollama/llama3" true (3 # 2)
           initial_world).
  apply counters_consistent_empty.
Defined.

Lemma get_model_success_rate_in_unit_interval_witness :
  let mm :=
    update_metrics_dict
      (update_metrics_dict ∅ "ollama/llama3" false (3 # 2) 10)
      "ollama/llama3" true (1 # 2) 20 in
  (0 <= get_model_success_rate mm "ollama/llama3")%Q
  ∧ (get_model_success_rate mm "ollama/llama3" <= 1)%Q.
Proof.
  intros mm.
  apply (get_model_success_rate_in_unit_interval mm "ollama/llama3").
  unfold mm. do 2 apply counters_consistent_update. apply counters_consistent_empty.
Defined.

Lemma health_status_by_counts_witness :
  status (health_entry four_of_five "ollama/llama3" (mkMetrics 5 4 10%Q 100%Q)) = degraded.
Proof.
  apply (proj1 (proj2 (health_status_by_counts four_of_five "ollama/llama3"
                         (mkMetrics 5 4 10%Q 100%Q) eq_refl ltac:(simpl; lia)))).
  simpl. lia.
Defined.

End metrics_more_scenarios.

(* ===================================================================== *)
(** * Further properties of the fallback executor                          *)
(* ===================================================================== *)

Section execute_with_fallback_more.
Import fallback_ai_manager.

Variable env : Env.

Lemma event_key_fmap (l : list Event) :
  event_key <$> l = brief_key <$> (event_brief <$> l).
Proof. by rewrite <- list_fmap_compose. Qed.

Lemma brief_key_attempt_briefs model_name model_idx retries outs :
  (length outs ≤ length retries)%nat →
  brief_key <$> attempt_briefs model_name model_idx retries outs
  = (λ o, Some (model_name, returned o)) <$> outs.
Proof.
  unfold attempt_briefs. revert outs.
  induction retries as [|retry retries IH]; intros [|o outs] Hlen; simpl in *;
    [done | lia | done |].
  f_equal. apply IH. lia.
Qed.

Lemma call_key_task_calls model_name (outs : list Outcome) :
  call_key <$> ((λ o, (TaskCall model_name, o)) <$> outs)
  = (λ o, Some (model_name, returned o)) <$> outs.
Proof. rewrite <- list_fmap_compose. by apply list_fmap_ext. Qed.

Lemma scheduled_calls_cons m chain b blocks :
  scheduled_calls (m :: chain) (b :: blocks)
  = ((λ o, (TaskCall m, o)) <$> b) ++ scheduled_calls chain blocks.
Proof. reflexivity. Qed.

Lemma scheduled_calls_length R chain blocks :
  Forall (λ b : list Outcome, (length b ≤ R)%nat) blocks →
  (length (scheduled_calls chain blocks) ≤ R * length chain)%nat.
Proof.
  intros Hb. revert chain.
  induction Hb as [|b blocks Hlen _ IH]; intros [|m chain]; simpl; try lia.
  rewrite scheduled_calls_cons, length_app, length_fmap.
  specialize (IH chain). lia.
Qed.

(** The calls of the loop over the chain, model by model, and the log lines
    that go with them. *)
Lemma chain_schedule mgr task_type chain remaining :
  ∀ model_idx st w r st' w',
  execute_with_fallback_chain env mgr task_type chain model_idx remaining st w
  = ((r, st'), w') →
  ∃ blocks,
    (length blocks ≤ length remaining)%nat
    ∧ Forall (λ b : list Outcome, (length b ≤ length (range (max_retries mgr)))%nat) blocks
    ∧ calls w' = calls w ++ scheduled_calls remaining blocks
    ∧ event_key <$> performance_log w'
      = (event_key <$> performance_log w) ++ (call_key <$> scheduled_calls remaining blocks).
Proof.
  induction remaining as [|model_name remaining IH]; intros model_idx st w r st' w' Hrun.
  - injection Hrun as <- <- <-. exists []. simpl.
    split_and!; [lia | done | by rewrite app_nil_r | by rewrite app_nil_r].
  - cbn [execute_with_fallback_chain] in Hrun.
    unfold bind at 1 in Hrun. unfold time_time at 1 in Hrun.
    unfold bind at 1 in Hrun.
    set (w1 := mkWorld (model_metrics w) (performance_log w) (calls w) (S (ticks w)) (sleeps w)) in *.
    destruct (execute_with_fallback_retries env mgr task_type chain model_idx
                model_name (clock env (ticks w)) (range (max_retries mgr))
                (ModelAttempt.new model_name) (last_error st) w1)
      as [[[r0 attempt0] err0] w2] eqn:Hret.
    apply retries_trace in Hret as (outs & (Hcalls & _) & Hlog & Hlen & _ & _); [|done].
    assert (Hkeys : event_key <$> performance_log w2
                    = (event_key <$> performance_log w)
                      ++ (call_key <$> ((λ o, (TaskCall model_name, o)) <$> outs))).
    { rewrite !event_key_fmap, Hlog, fmap_app.
      by rewrite brief_key_attempt_briefs, call_key_task_calls. }
    simpl in Hcalls.
    destruct r0 as [result|].
    + injection Hrun as <- <- <-. exists [outs].
      rewrite scheduled_calls_cons.
      replace (scheduled_calls remaining []) with (@nil (Request * Outcome))
        by (unfold scheduled_calls; by rewrite zip_with_nil_r).
      rewrite app_nil_r.
      split_and!; [simpl; lia | by constructor | done | done].
    + apply IH in Hrun as (blocks & Hbl & Hbs & Hc2 & Hl2).
      exists (outs :: blocks). rewrite scheduled_calls_cons.
      split_and!; [simpl; lia | by constructor | |].
      * by rewrite Hc2, Hcalls, app_assoc.
      * by rewrite Hl2, Hkeys, fmap_app, app_assoc.
Qed.

(** The effect of a whole execution on the calls and the counters. *)
Lemma execute_with_fallback_effect mgr task_type w res w' :
  execute_with_fallback env mgr task_type w = (res, w') →
  ∃ cs,
    trace_effect w w' cs
    ∧ ∀ chain, get_fallback_chain mgr task_type = Ok chain →
        Forall (λ c : Request * Outcome, ∃ m, m ∈ chain ∧ c.1 = TaskCall m) cs.
Proof.
  unfold execute_with_fallback.
  destruct (get_fallback_chain mgr task_type) as [chain|e].
  - unfold bind at 1.
    destruct (execute_with_fallback_chain env mgr task_type chain 0 chain
                (mkChainState None None []) w) as [[r st'] w1] eqn:Hrun.
    apply chain_trace in Hrun as (cs & bs & Htr & _ & _ & Hcs & _).
    intros Hres. exists cs. split; [|by intros ? [= <-]].
    destruct r as [[result attempt]|].
    + by injection Hres as <- <-.
    + injection Hres as <- <-. destruct Htr as (Hc & Ha & Hs).
      split_and!; simpl; done.
  - intros [= <- <-]. exists []. split; [apply trace_effect_nil | done].
Qed.

Lemma recorded_bounds cs m :
  0 <= successes_recorded cs m <= attempts_recorded cs m.
Proof.
  induction cs as [|[req o] cs IH]; simpl; [lia|].
  unfold successes_added, attempts_added.
  case_decide; destruct (returned o); lia.
Qed.

Lemma recorded_outside_chain (chain : list string) cs m :
  Forall (λ c : Request * Outcome, ∃ m', m' ∈ chain ∧ c.1 = TaskCall m') cs →
  m ∉ chain →
  attempts_recorded cs m = 0 ∧ successes_recorded cs m = 0.
Proof.
  intros Hcs Hm. induction Hcs as [|[req o] cs (m' & Hin & Hreq) _ IH]; simpl; [done|].
  simpl in Hreq. subst req. destruct IH as [-> ->].
  rewrite !decide_False; [done| |]; intros [= ->]; done.
Qed.

(** X14.  The performance log is a transcript of the calls: an execution
    appends exactly one [model_attempt] line per call of the task function,
    in call order, with the model called and whether the call returned, and
    after them one [fallback_chain_exhausted] line iff it returns no
    result. *)
Theorem performance_log_is_transcript mgr task_type w r attempt w' :
  execute_with_fallback env mgr task_type w = (Ok (r, attempt), w') →
  ∃ cs,
    calls w' = calls w ++ cs
    ∧ event_key <$> performance_log w'
      = (event_key <$> performance_log w) ++ (call_key <$> cs)
        ++ match r with Some _ => [] | None => [None] end.
Proof.
  unfold execute_with_fallback.
  destruct (get_fallback_chain mgr task_type) as [chain|e]; [|done].
  unfold bind at 1.
  destruct (execute_with_fallback_chain env mgr task_type chain 0 chain
              (mkChainState None None []) w) as [[r0 st'] w1] eqn:Hrun.
  apply chain_schedule in Hrun as (blocks & _ & _ & Hcalls & Hlog).
  destruct r0 as [[result attempt0]|].
  - intros [= <- <- <-]. exists (scheduled_calls chain blocks).
    by rewrite app_nil_r.
  - intros [= <- <- <-]. exists (scheduled_calls chain blocks).
    split; [done|]. simpl. by rewrite fmap_app, Hlog, <- app_assoc.
Qed.

(** X15.  The chain is walked forward only and within the budget: the calls
    of an execution are the calls for the first model of the chain, then
    those for the second, and so on, at most [max_retries] for each; so an
    execution makes at most [max_retries] times the chain length calls. *)
Theorem execute_with_fallback_schedule mgr task_type chain w r w' :
  get_fallback_chain mgr task_type = Ok chain →
  execute_with_fallback env mgr task_type w = (Ok r, w') →
  ∃ blocks,
    calls w' = calls w ++ scheduled_calls chain blocks
    ∧ Forall (λ b : list Outcome, (length b ≤ Z.to_nat (max_retries mgr))%nat) blocks
    ∧ (length (calls w') ≤ length (calls w) + Z.to_nat (max_retries mgr) * length chain)%nat.
Proof.
  intros Hc. unfold execute_with_fallback. rewrite Hc. unfold bind at 1.
  destruct (execute_with_fallback_chain env mgr task_type chain 0 chain
              (mkChainState None None []) w) as [[r0 st'] w1] eqn:Hrun.
  apply chain_schedule in Hrun as (blocks & _ & Hb & Hcalls & _).
  unfold range in Hb. setoid_rewrite length_seq in Hb.
  assert (Hlen : (length (calls w1)
                  ≤ length (calls w) + Z.to_nat (max_retries mgr) * length chain)%nat).
  { rewrite Hcalls, length_app.
    pose proof (scheduled_calls_length _ chain _ Hb). lia. }
  destruct r0 as [[result attempt0]|]; intros [= <- <-]; exists blocks; simpl; done.
Qed.

(** X16.  An execution keeps the counters consistent: although a success
    is counted twice, it is counted twice on both sides, and no model ever
    shows more successes than attempts. *)
Theorem execute_with_fallback_keeps_consistency mgr task_type w res w' :
  counters_consistent (model_metrics w) →
  execute_with_fallback env mgr task_type w = (res, w') →
  counters_consistent (model_metrics w').
Proof.
  intros Hc (cs & (_ & Ha & Hs) & _)%execute_with_fallback_effect m.
  rewrite Ha, Hs. specialize (Hc m). pose proof (recorded_bounds cs m). lia.
Qed.

(** X17.  An execution only touches the counters of the models of its
    chain. *)
Theorem execute_with_fallback_leaves_other_models mgr task_type chain w res w' m :
  get_fallback_chain mgr task_type = Ok chain →
  execute_with_fallback env mgr task_type w = (res, w') →
  m ∉ chain →
  attempts_of (model_metrics w') m = attempts_of (model_metrics w) m
  ∧ successes_of (model_metrics w') m = successes_of (model_metrics w) m.
Proof.
  intros Hchain (cs & (_ & Ha & Hs) & Hcs)%execute_with_fallback_effect Hm.
  destruct (recorded_outside_chain chain cs m (Hcs _ Hchain) Hm) as [Ha0 Hs0].
  rewrite Ha, Hs, Ha0, Hs0. lia.
Qed.

(** ** Executions that call nothing *)

Lemma chain_without_budget mgr task_type chain remaining :
  range (max_retries mgr) = [] →
  ∀ model_idx st w,
  ∃ st' w',
    execute_with_fallback_chain env mgr task_type chain model_idx remaining st w
    = ((None, st'), w')
    ∧ model_metrics w' = model_metrics w
    ∧ performance_log w' = performance_log w
    ∧ calls w' = calls w
    ∧ fallback_event_chain st' = fallback_event_chain st ++ (untried <$> remaining).
Proof.
  intros Hr. induction remaining as [|model_name remaining IH]; intros model_idx st w.
  - exists st, w. by rewrite app_nil_r.
  - cbn [execute_with_fallback_chain]. rewrite Hr.
    unfold bind at 1. unfold time_time at 1. cbv beta iota.
    unfold bind at 1. cbn [execute_with_fallback_retries]. unfold ret at 1.
    cbv beta iota.
    match goal with
    | |- context [execute_with_fallback_chain _ _ _ _ _ remaining ?s ?w0] =>
        destruct (IH (S model_idx) s w0) as (st' & w' & -> & Hm & Hl & Hc & Hf)
    end.
    exists st', w'. simpl in *. split_and!; [done..|].
    by rewrite Hf, <- app_assoc.
Qed.

(** X18.  With a retry budget of zero or less nothing is ever called: the
    execution returns no result, leaves calls and metrics as they were, and
    logs a single [fallback_chain_exhausted] event that lists every model of
    the chain as a failed attempt. *)
Theorem execute_with_fallback_without_budget mgr task_type chain w :
  max_retries mgr <= 0 →
  get_fallback_chain mgr task_type = Ok chain →
  ∃ w',
    execute_with_fallback env mgr task_type w = (Ok (None, exhausted_attempt), w')
    ∧ calls w' = calls w
    ∧ model_metrics w' = model_metrics w
    ∧ event_brief <$> performance_log w'
      = (event_brief <$> performance_log w)
        ++ [exhausted_logged ((λ m, (m, false)) <$> chain)].
Proof.
  intros Hmax Hc. unfold execute_with_fallback. rewrite Hc. unfold bind at 1.
  assert (Hr : range (max_retries mgr) = []).
  { unfold range. replace (Z.to_nat (max_retries mgr)) with 0%nat by lia. done. }
  destruct (chain_without_budget mgr task_type chain chain Hr 0
              (mkChainState None None []) w) as (st' & w1 & -> & Hm & Hl & Hcalls & Hf).
  eexists. split_and!; [reflexivity | done | done |].
  simpl. rewrite fmap_app, Hl. simpl. rewrite Hf. simpl.
  unfold event_brief. simpl. by rewrite <- list_fmap_compose.
Qed.

(** ** Executions in which every call fails *)

Lemma attempts_recorded_task_calls model_name (outs : list Outcome) m :
  Forall is_failure outs →
  attempts_recorded ((λ o, (TaskCall model_name, o)) <$> outs) m
  = (if decide (model_name = m) then Z.of_nat (length outs) else 0)
  ∧ successes_recorded ((λ o, (TaskCall model_name, o)) <$> outs) m = 0.
Proof.
  induction 1 as [|o outs Ho _ [IHa IHs]]; [simpl; by case_decide|].
  rewrite fmap_cons. cbn [attempts_recorded successes_recorded].
  rewrite IHa, IHs. unfold attempts_added, successes_added.
  rewrite (returned_failure _ Ho).
  destruct (decide (model_name = m)) as [->|Hne].
  - rewrite !decide_True by done. simpl length. lia.
  - rewrite !decide_False by congruence. lia.
Qed.

Lemma chain_exhausted_counts mgr task_type chain remaining :
  ∀ model_idx st w st' w',
  execute_with_fallback_chain env mgr task_type chain model_idx remaining st w
  = ((None, st'), w') →
  ∀ m,
    attempts_of (model_metrics w') m
    = attempts_of (model_metrics w) m
      + Z.of_nat (length (range (max_retries mgr)))
        * Z.of_nat (length (filter (λ x, x = m) remaining))
    ∧ successes_of (model_metrics w') m = successes_of (model_metrics w) m.
Proof.
  induction remaining as [|model_name remaining IH]; intros model_idx st w st' w' Hrun m.
  - injection Hrun as <- <-. simpl. lia.
  - cbn [execute_with_fallback_chain] in Hrun.
    unfold bind at 1 in Hrun. unfold time_time at 1 in Hrun.
    unfold bind at 1 in Hrun.
    set (w1 := mkWorld (model_metrics w) (performance_log w) (calls w) (S (ticks w)) (sleeps w)) in *.
    destruct (execute_with_fallback_retries env mgr task_type chain model_idx
                model_name (clock env (ticks w)) (range (max_retries mgr))
                (ModelAttempt.new model_name) (last_error st) w1)
      as [[[r0 attempt0] err0] w2] eqn:Hret.
    apply retries_trace in Hret as (outs & (_ & Ha & Hs) & _ & _ & _ & Hr0); [|done].
    destruct r0 as [result|]; [done|].
    destruct Hr0 as (Hf & Hlen & _).
    destruct (IH _ _ _ _ _ Hrun m) as [IHa IHs].
    destruct (attempts_recorded_task_calls model_name outs m Hf) as [Hra Hrs].
    rewrite IHa, IHs, Ha, Hs, Hra, Hrs, Hlen. simpl model_metrics.
    rewrite filter_cons.
    destruct (decide (model_name = m)) as [->|Hne]; simpl; lia.
Qed.

(** X20.  When an execution returns no result, every model of the chain has
    been charged exactly its whole retry budget: [total_attempts] of a model
    has grown by [max_retries] (0 if negative) for each of its occurrences
    in the chain, and no [successful_attempts] counter has moved. *)
Theorem execute_with_fallback_exhausted_counts mgr task_type chain w attempt w' m :
  get_fallback_chain mgr task_type = Ok chain →
  execute_with_fallback env mgr task_type w = (Ok (None, attempt), w') →
  attempts_of (model_metrics w') m
  = attempts_of (model_metrics w) m
    + Z.max 0 (max_retries mgr) * Z.of_nat (length (filter (λ x, x = m) chain))
  ∧ successes_of (model_metrics w') m = successes_of (model_metrics w) m.
Proof.
  intros Hc. unfold execute_with_fallback. rewrite Hc. unfold bind at 1.
  destruct (execute_with_fallback_chain env mgr task_type chain 0 chain
              (mkChainState None None []) w) as [[r st'] w1] eqn:Hrun.
  destruct r as [[result attempt0]|]; [done|].
  intros [= <- <-].
  destruct (chain_exhausted_counts _ _ _ _ _ _ _ _ _ Hrun m) as [Ha Hs].
  simpl. rewrite Ha, Hs. unfold range. rewrite length_seq. split; [lia|done].
Qed.

End execute_with_fallback_more.

(* ===================================================================== *)
(** * Further properties of [execute_task] and the provider adapters       *)
(* ===================================================================== *)

Section execute_task_more.
Import fallback_ai_manager.

Variable env : Env.

(** An adapter call changes nothing but the list of requests. *)
Lemma call_client_frame mgr client model_name prompt w :
  let res := call_client env mgr client model_name prompt w in
  model_metrics res.2 = model_metrics w
  ∧ performance_log res.2 = performance_log w.
Proof.
  destruct client; unfold call_client, call_hosted; simpl;
    try destruct (truthy _); simpl; done.
Qed.

Lemma task_retries_trace mgr client model_name prompt attempts :
  ∀ err w r err' w',
  execute_task_retries env mgr client model_name prompt attempts err w = ((r, err'), w') →
  ∃ n_fail : nat,
    (n_fail ≤ length attempts)%nat
    ∧ (r = None → n_fail = length attempts)
    ∧ (∀ m, attempts_of (model_metrics w') m
            = attempts_of (model_metrics w) m
              + (if decide (m = model_name) then Z.of_nat n_fail + hit r else 0))
    ∧ (∀ m, successes_of (model_metrics w') m
            = successes_of (model_metrics w) m
              + (if decide (m = model_name) then hit r else 0))
    ∧ performance_log w' = performance_log w.
Proof.
  induction attempts as [|attempt attempts IH]; intros err w r err' w' Hrun.
  - injection Hrun as <- <- <-. exists 0%nat. simpl.
    split_and!; [done | done | intros m; case_decide; lia
                | intros m; case_decide; lia | done].
  - cbn [execute_task_retries] in Hrun.
    unfold bind at 1 in Hrun. unfold time_time at 1 in Hrun. cbv beta iota in Hrun.
    unfold bind at 1 in Hrun.
    set (w1 := mkWorld (model_metrics w) (performance_log w) (calls w) (S (ticks w)) (sleeps w)) in *.
    pose proof (call_client_frame mgr client model_name prompt w1) as Hfr.
    destruct (call_client env mgr client model_name prompt w1) as [o w2].
    simpl in Hfr. destruct Hfr as [Hm2 Hl2].
    destruct o as [response|e|].
    1: { unfold bind, time_time, update_model_metrics, ret in Hrun. simpl in Hrun.
         injection Hrun as <- <- <-. exists 0%nat. simpl. rewrite Hm2, Hl2.
         split_and!; [lia | done | | | done]; intros m.
         - rewrite attempts_of_update. case_decide; simpl; lia.
         - rewrite successes_of_update. case_decide; simpl; lia. }
    all: unfold bind at 1 in Hrun; unfold time_time at 1 in Hrun; cbv beta iota in Hrun;
      unfold bind at 1 in Hrun; unfold update_model_metrics at 1 in Hrun;
      unfold bind at 1 in Hrun; unfold time_time at 1 in Hrun; cbv beta iota in Hrun;
      unfold bind at 1 in Hrun;
      match type of Hrun with
      | context [(if decide ?P then sleep else ret tt) ?w0] =>
          destruct ((if decide P then sleep else ret tt) w0) as [[] w3] eqn:Hsl;
          assert (Hw3 : model_metrics w3 = model_metrics w0
                        ∧ performance_log w3 = performance_log w0)
            by (case_decide; injection Hsl as <-; done)
      end;
      destruct Hw3 as [Hm3 Hl3]; simpl in Hm3, Hl3;
      apply IH in Hrun as (n & Hn & Hnone & Ha & Hs & Hl);
      exists (S n);
      split_and!;
        [ simpl; lia
        | intros Hr; simpl; by rewrite (Hnone Hr)
        | intros m; rewrite Ha, Hm3, attempts_of_update, Hm2;
          destruct (decide (m = model_name)); lia
        | intros m; rewrite Hs, Hm3, successes_of_update, Hm2;
          destruct (decide (m = model_name)); lia
        | by rewrite Hl, Hl3, Hl2 ].
Qed.

Lemma resolvable_cons_None model_name chain :
  _get_model_client model_name = None →
  resolvable (model_name :: chain) = resolvable chain.
Proof.
  intros Hn. unfold resolvable. rewrite filter_cons, decide_False; [done|].
  rewrite Hn. by intros [? ?].
Qed.

Lemma resolvable_cons_Some model_name chain client :
  _get_model_client model_name = Some client →
  resolvable (model_name :: chain) = model_name :: resolvable chain.
Proof.
  intros Hc. unfold resolvable. rewrite filter_cons, decide_True; [done|].
  rewrite Hc. by eexists.
Qed.

Lemma task_chain_trace mgr prompt chain :
  ∀ err w r err' w',
  execute_task_chain env mgr prompt chain err w = ((r, err'), w') →
  performance_log w' = performance_log w
  ∧ match r with
    | Some text =>
        ∃ model, model ∈ resolvable chain
          ∧ ∀ m, successes_of (model_metrics w') m
                 = successes_of (model_metrics w) m + (if decide (m = model) then 1 else 0)
    | None =>
        ∀ m, successes_of (model_metrics w') m = successes_of (model_metrics w) m
             ∧ attempts_of (model_metrics w') m
               = attempts_of (model_metrics w) m
                 + Z.of_nat (length (range (max_retries mgr)))
                   * Z.of_nat (length (filter (λ x, x = m) (resolvable chain)))
    end.
Proof.
  induction chain as [|model_name chain IH]; intros err w r err' w' Hrun.
  - injection Hrun as <- <- <-. split; [done|]. intros m. simpl. lia.
  - cbn [execute_task_chain] in Hrun.
    destruct (_get_model_client model_name) as [client|] eqn:Hclient.
    2: { rewrite (resolvable_cons_None _ _ Hclient). by eapply IH. }
    rewrite (resolvable_cons_Some _ _ _ Hclient).
    unfold bind at 1 in Hrun.
    destruct (execute_task_retries env mgr client model_name prompt
                (range (max_retries mgr)) err w) as [[r1 err1] w1] eqn:Hret.
    apply task_retries_trace in Hret as (n & Hn & Hnone & Ha & Hs & Hl).
    destruct r1 as [response|].
    + injection Hrun as <- <- <-. split; [done|].
      exists model_name. split; [left|]. intros m. by rewrite Hs.
    + apply IH in Hrun as [IHl IHr]. split; [by rewrite IHl|].
      destruct r as [text|].
      * destruct IHr as (model & Hin & Hsucc). exists model. split; [by right|].
        intros m. rewrite Hsucc, Hs. simpl. case_decide; lia.
      * intros m. destruct (IHr m) as [IHs IHa].
        rewrite IHs, IHa, Hs, Ha, (Hnone eq_refl), filter_cons. simpl hit.
        destruct (decide (m = model_name)) as [->|Hne].
        -- rewrite decide_True by done. simpl length. lia.
        -- rewrite decide_False by congruence. lia.
Qed.

Lemma execute_task_chain_unresolvable mgr prompt chain err w :
  Forall (λ m, _get_model_client m = None) chain →
  execute_task_chain env mgr prompt chain err w = ((None, err), w).
Proof.
  induction 1 as [|m chain Hm _ IH]; [done|].
  cbn [execute_task_chain]. by rewrite Hm.
Qed.

(** X21.  [execute_task] calls nothing and records nothing when it has no
    usable model: the task is not configured, or it has no model list or an
    empty one, or none of its models has a known provider prefix.  In the
    last case the models are skipped without spending any retry and the
    answer is the "all models failed" message with last error [None]. *)
Theorem execute_task_without_usable_model mgr task_name prompt w :
  (tasks_config mgr !! task_name = None →
     execute_task env mgr task_name prompt w = (TaskNotConfigured task_name, w))
  ∧ (∀ entry, tasks_config mgr !! task_name = Some entry → default [] entry = [] →
     execute_task env mgr task_name prompt w = (NoModelsConfigured task_name, w))
  ∧ (∀ chain, tasks_config mgr !! task_name = Some (Some chain) → chain ≠ [] →
     Forall (λ m, _get_model_client m = None) chain →
     execute_task env mgr task_name prompt w = (AllModelsFailed task_name None, w)).
Proof.
  unfold execute_task. split_and!.
  - by intros ->.
  - by intros entry -> ->.
  - intros [|m chain] -> Hne Hall; [done|].
    change (default [] (Some (m :: chain))) with (m :: chain). cbv beta iota.
    unfold bind at 1. by rewrite execute_task_chain_unresolvable.
Qed.


(** X23.  When [execute_task] answers that all models failed, no success was
    recorded, every model of the task with a known provider was charged
    exactly [max_retries] attempts (0 if negative) for each of its
    occurrences in the chain, and the models without a known provider were
    charged nothing. *)
Theorem execute_task_all_failed_counts mgr task_name prompt w name err w' :
  execute_task env mgr task_name prompt w = (AllModelsFailed name err, w') →
  ∃ chain,
    tasks_config mgr !! task_name = Some (Some chain)
    ∧ ∀ m, successes_of (model_metrics w') m = successes_of (model_metrics w) m
           ∧ attempts_of (model_metrics w') m
             = attempts_of (model_metrics w) m
               + Z.max 0 (max_retries mgr)
                 * Z.of_nat (length (filter (λ x, x = m) (resolvable chain))).
Proof.
  unfold execute_task.
  destruct (tasks_config mgr !! task_name) as [[chain|]|];
    [|by unfold ret; intros [=]..].
  change (default [] (Some chain)) with chain.
  destruct chain as [|m0 chain]; [by unfold ret; intros [=]|].
  unfold bind at 1.
  destruct (execute_task_chain env mgr prompt (m0 :: chain) None w)
    as [[r err1] w1] eqn:Hrun.
  apply task_chain_trace in Hrun as [Hl Hr].
  destruct r as [response|]; unfold ret; [by intros [=] | intros [= <- <- <-]].
  exists (m0 :: chain). split; [done|]. intros m. destruct (Hr m) as [Hs Ha].
  rewrite Hs, Ha. unfold range. rewrite length_seq. split; [done|lia].
Qed.

(** X24.  Dispatch and tag extraction agree: an identifier made of a
    provider prefix and a tag is given to that provider's adapter, which
    recovers the tag, also a tag that contains slashes; and whenever
    [_get_model_client] finds a client, the identifier is that client's
    prefix followed by the tag the adapter will use. *)
Theorem provider_dispatch_round_trip :
  (∀ client tag,
     _get_model_client (provider_prefix client +:+ tag) = Some client
     ∧ model_tag_of (provider_prefix client +:+ tag) = tag)
  ∧ (∀ model_name client,
       _get_model_client model_name = Some client →
       model_name = (provider_prefix client +:+ model_tag_of model_name)%string).
Proof.
  assert (Hpre : ∀ p tag : string, String.prefix p (p +:+ tag) = true).
  { intros p tag. apply prefix_true_iff. by exists tag. }
  split.
  - intros client tag. split; [|by destruct client].
    unfold _get_model_client.
    destruct client; simpl provider_prefix.
    + by rewrite Hpre.
    + replace (String.prefix "ollama/" ("openai/" +:+ tag)) with false by reflexivity.
      by rewrite Hpre.
    + replace (String.prefix "ollama/" ("anthropic/" +:+ tag)) with false by reflexivity.
      replace (String.prefix "openai/" ("anthropic/" +:+ tag)) with false by reflexivity.
      by rewrite Hpre.
    + replace (String.prefix "ollama/" ("deepseek/" +:+ tag)) with false by reflexivity.
      replace (String.prefix "openai/" ("deepseek/" +:+ tag)) with false by reflexivity.
      replace (String.prefix "anthropic/" ("deepseek/" +:+ tag)) with false by reflexivity.
      by rewrite Hpre.
  - intros model_name client. unfold _get_model_client.
    destruct (String.prefix "ollama/" model_name) eqn:H1;
      [|destruct (String.prefix "openai/" model_name) eqn:H2;
        [|destruct (String.prefix "anthropic/" model_name) eqn:H3;
          [|destruct (String.prefix "deepseek/" model_name) eqn:H4; [|done]]]];
      intros [= <-];
      match goal with
      | H : String.prefix _ model_name = true |- _ =>
          apply prefix_true_iff in H as [tag ->]
      end; reflexivity.
Qed.

End execute_task_more.

(* ===================================================================== *)
(** * The executor and the health report together                          *)
(* ===================================================================== *)

Section executor_and_health.
Import fallback_ai_manager.

Variable env : Env.

Lemma attempts_of_positive_entry mm m :
  1 <= attempts_of mm m →
  ∃ e, mm !! m = Some e ∧ total_attempts e = attempts_of mm m
       ∧ successful_attempts e = successes_of mm m.
Proof.
  unfold attempts_of, successes_of. destruct (mm !! m) as [e|]; simpl; [eauto|lia].
Qed.

(** X25.  An exhausted chain shows in the health report: after an execution
    that returned no result with a positive retry budget, every model of
    the chain that had no recorded success is reported [unhealthy], and the
    overall health is [degraded]. *)
Theorem exhausted_chain_degrades_health mgr task_type chain w attempt w' m :
  get_fallback_chain mgr task_type = Ok chain →
  execute_with_fallback env mgr task_type w = (Ok (None, attempt), w') →
  0 < max_retries mgr →
  counters_consistent (model_metrics w) →
  m ∈ chain →
  successes_of (model_metrics w) m = 0 →
  let health := (get_system_health env w').1 in
  (∃ entry, models health !! m = Some entry ∧ status entry = unhealthy)
  ∧ overall_health health = degraded.
Proof.
  intros Hc Hrun Hpos Hcons Hin Hzero health.
  assert (Hcounts : 1 <= attempts_of (model_metrics w') m
                    ∧ successes_of (model_metrics w') m = 0).
  { unfold execute_with_fallback in Hrun. rewrite Hc in Hrun. unfold bind at 1 in Hrun.
    destruct (execute_with_fallback_chain env mgr task_type chain 0 chain
                (mkChainState None None []) w) as [[r st'] w1] eqn:Hchain.
    destruct r as [[result attempt0]|]; [done|].
    injection Hrun as <- <-.
    destruct (chain_exhausted_counts env _ _ _ _ _ _ _ _ _ Hchain m) as [Ha Hs].
    simpl. rewrite Ha, Hs. split; [|done].
    assert (1 <= Z.of_nat (length (filter (λ x, x = m) chain)))%Z.
    { apply list_elem_of_split in Hin as (l1 & l2 & ->).
      rewrite filter_app, filter_cons, decide_True, length_app by done. simpl. lia. }
    unfold range. rewrite length_seq. specialize (Hcons m). nia. }
  destruct Hcounts as [Hatt Hsucc].
  destruct (attempts_of_positive_entry _ _ Hatt) as (e & He & Ht & Hs).
  assert (Hst : status (health_entry (model_metrics w') m e) = unhealthy).
  { unfold health_entry. simpl.
    rewrite (get_model_success_rate_tracked _ _ _ He) by lia.
    apply status_of_unhealthy, rate_at_most_iff; lia. }
  split.
  - exists (health_entry (model_metrics w') m e). split; [|done].
    unfold health. by rewrite get_system_health_models, He.
  - unfold health. rewrite get_system_health_overall.
    rewrite decide_True; [done|]. apply Exists_exists.
    exists (m, e). split; [by apply elem_of_map_to_list|].
    unfold non_healthy. cbn [fst snd]. by rewrite Hst.
Qed.

End executor_and_health.

(* ===================================================================== *)
(** * The further properties on the scenarios                              *)
(* ===================================================================== *)

Section more_scenarios.
Import fallback_ai_manager scenarios.

Lemma performance_log_is_transcript_witness :
  ∃ cs,
    calls exhausted_world = calls initial_world ++ cs
    ∧ event_key <$> performance_log exhausted_world
      = (event_key <$> performance_log initial_world) ++ (call_key <$> cs) ++ [None].
Proof.
  apply (performance_log_is_transcript failing_env demo_manager "text" initial_world
           None exhausted_attempt exhausted_world).
  vm_compute. reflexivity.
Defined.

Lemma execute_with_fallback_schedule_witness :
  ∃ blocks,
    calls exhausted_world
    = calls initial_world ++ scheduled_calls ["p1/modelA"; "p2/modelB"] blocks
    ∧ Forall (λ b : list Outcome, (length b ≤ Z.to_nat (max_retries demo_manager))%nat) blocks
    ∧ (length (calls exhausted_world)
       ≤ length (calls initial_world) + Z.to_nat (max_retries demo_manager) * 2)%nat.
Proof.
  apply (execute_with_fallback_schedule failing_env demo_manager "text"
           ["p1/modelA"; "p2/modelB"] initial_world (None, exhausted_attempt)
           exhausted_world).
  - reflexivity.
  - vm_compute. reflexivity.
Defined.

Lemma execute_with_fallback_keeps_consistency_witness :
  counters_consistent (model_metrics exhausted_world).
Proof.
  apply (execute_with_fallback_keeps_consistency failing_env demo_manager "text"
           initial_world (Ok (None, exhausted_attempt)) exhausted_world).
  - apply counters_consistent_empty.
  - vm_compute. reflexivity.
Defined.

Lemma execute_with_fallback_leaves_other_models_witness :
  attempts_of (model_metrics exhausted_world) "ollama/llama3"
  = attempts_of (model_metrics initial_world) "ollama/llama3"
  ∧ successes_of (model_metrics exhausted_world) "ollama/llama3"
    = successes_of (model_metrics initial_world) "ollama/llama3".
Proof.
  apply (execute_with_fallback_leaves_other_models failing_env demo_manager "text"
           ["p1/modelA"; "p2/modelB"] initial_world (Ok (None, exhausted_attempt))).
  - reflexivity.
  - vm_compute. reflexivity.
  - intros H. repeat (apply elem_of_cons in H as [H|H]; [discriminate|]).
    by apply elem_of_nil in H.
Defined.

Lemma execute_with_fallback_without_budget_witness :
  ∃ w',
    execute_with_fallback flaky_env no_budget_manager "text" initial_world
    = (Ok (None, exhausted_attempt), w')
    ∧ calls w' = calls initial_world
    ∧ model_metrics w' = model_metrics initial_world
    ∧ event_brief <$> performance_log w'
      = (event_brief <$> performance_log initial_world)
        ++ [exhausted_logged ((λ m, (m, false)) <$> ["p1/modelA"; "p2/modelB"])].
Proof.
  apply (execute_with_fallback_without_budget flaky_env no_budget_manager "text"
           ["p1/modelA"; "p2/modelB"] initial_world).
  - simpl. lia.
  - reflexivity.
Defined.

Lemma execute_with_fallback_exhausted_counts_witness :
  attempts_of (model_metrics exhausted_world) "p2/modelB"
  = attempts_of (model_metrics initial_world) "p2/modelB"
    + Z.max 0 (max_retries demo_manager)
      * Z.of_nat (length (filter (λ x, x = "p2/modelB") ["p1/modelA"; "p2/modelB"]))
  ∧ successes_of (model_metrics exhausted_world) "p2/modelB"
    = successes_of (model_metrics initial_world) "p2/modelB".
Proof.
  apply (execute_with_fallback_exhausted_counts failing_env demo_manager "text"
           ["p1/modelA"; "p2/modelB"] initial_world exhausted_attempt).
  - reflexivity.
  - vm_compute. reflexivity.
Defined.

Lemma exhausted_chain_degrades_health_witness :
  let health := (get_system_health failing_env exhausted_world).1 in
  (∃ entry, models health !! "p1/modelA" = Some entry ∧ status entry = unhealthy)
  ∧ overall_health health = degraded.
Proof.
  apply (exhausted_chain_degrades_health failing_env demo_manager "text"
           ["p1/modelA"; "p2/modelB"] initial_world exhausted_attempt).
  - reflexivity.
  - vm_compute. reflexivity.
  - simpl. lia.
  - apply counters_consistent_empty.
  - left.
  - reflexivity.
Defined.


Lemma execute_task_all_failed_counts_witness :
  ∃ chain,
    tasks_config demo_manager !! "chat" = Some (Some chain)
    ∧ ∀ m, successes_of (model_metrics unanswered_world) m
           = successes_of (model_metrics initial_world) m
           ∧ attempts_of (model_metrics unanswered_world) m
             = attempts_of (model_metrics initial_world) m
               + Z.max 0 (max_retries demo_manager)
                 * Z.of_nat (length (filter (λ x, x = m) (resolvable chain))).
Proof.
  apply (execute_task_all_failed_counts flaky_env demo_manager "chat" "hi" initial_world
           "chat" (Some (ValueError "OPENAI_API_KEY is not configured."))).
  vm_compute. reflexivity.
Defined.

End more_scenarios.
